(** * scCODA: analysis of multi-parameter simulation studies

    A shallow embedding of [util/multi_parameter_analysis_functions.py]:
    the per-run finalizer of spike-and-slab coefficients, the study
    aggregator (file scan, concatenation, stringification, group-by sum)
    and the summary statistics of [get_scores], with the numeric
    semantics of numpy (int64 wrap-around, IEEE binary64) and the error
    behaviour of pandas written out. The progress messages printed by
    the loops and the plotting functions are left out. *)

From Stdlib Require Import ZArith Bool List Ascii String Lia.
From Stdlib Require Import Floats.SpecFloat.
From stdpp Require Import base option list strings gmap pretty.

Set Warnings "-register-all".

Local Open Scope Z_scope.

(** ** Exceptions and the error monad *)

Inductive exn :=
  | KeyError (key : string)
  | TypeError
  | ValueError (msg : string)
  | OSError (msg : string)
  | UnpicklingError.

Inductive result (A : Type) :=
  | Ok (a : A)
  | Raise (e : exn).
Arguments Ok {A} a.
Arguments Raise {A} e.

#[global] Instance result_ret : MRet result := @Ok.
#[global] Instance result_bind : MBind result := fun A B f m =>
  match m with
  | Ok a => f a
  | Raise e => Raise e
  end.
#[global] Instance result_fmap : FMap result := fun A B f m =>
  match m with
  | Ok a => Ok (f a)
  | Raise e => Raise e
  end.

(** ** numpy scalars: int64 and float64 *)

Module Np.

Definition prec : Z := 53.
Definition emax : Z := 1024.

(** IEEE 754 binary64, as specified by [SpecFloat]. *)
Definition float64 := spec_float.

Definition nan : float64 := S754_nan.
Definition zero : float64 := S754_zero false.

Definition min_int64 : Z := - 2 ^ 63.
Definition max_int64 : Z := 2 ^ 63 - 1.

(** Two's complement wrap-around of int64 arithmetic. *)
Definition wrap (z : Z) : Z := (z + 2 ^ 63) mod 2 ^ 64 - 2 ^ 63.

Definition iadd (a b : Z) : Z := wrap (a + b).
Definition isub (a b : Z) : Z := wrap (a - b).
Definition imul (a b : Z) : Z := wrap (a * b).

(** Conversion int64 -> float64 (round to nearest even). *)
Definition of_int (z : Z) : float64 := binary_normalize prec emax z 0 false.

Definition fadd : float64 -> float64 -> float64 := SFadd prec emax.
Definition fsub : float64 -> float64 -> float64 := SFsub prec emax.
Definition fmul : float64 -> float64 -> float64 := SFmul prec emax.
Definition fdiv : float64 -> float64 -> float64 := SFdiv prec emax.
Definition fsqrt : float64 -> float64 := SFsqrt prec emax.

Definition isnan (x : float64) : bool :=
  match x with
  | S754_nan => true
  | _ => false
  end.

(** [x > y]; false as soon as one side is NaN. *)
Definition gt (x y : float64) : bool := SFltb y x.

(** [x == y]; the two zeros are equal, NaN equals nothing. *)
Definition eqb (x y : float64) : bool := SFeqb x y.

(** Element-wise [np.where(cond, a, b)] on arrays of one length. *)
Definition where_ (cond : list bool) (a b : list float64) : list float64 :=
  zip_with (fun c ab => if c : bool then fst ab else snd ab) cond (zip a b).

(** [np.where(cond, a, 0)]: the scalar is broadcast. *)
Definition where_scalar (cond : list bool) (a : list float64) (b : float64)
  : list float64 :=
  zip_with (fun (c : bool) x => if c then x else b) cond a.

End Np.

Abbreviation float64 := Np.float64.

(** ** pandas: series and data frames *)

Module Pd.

(** A column of an aggregated table: stringified parameters (object
    dtype), int64 counts, or float64 scores. *)
Inductive Series :=
  | SObj (l : list string)
  | SInt (l : list Z)
  | SFloat (l : list float64).

(** A frame is the ordered list of its named columns. *)
Definition Frame (C : Type) : Type := list (string * C).

Definition columns {C} (df : Frame C) : list string := map fst df.

(** [df[key]] *)
Fixpoint getitem {C} (df : Frame C) (key : string) : result C :=
  match df with
  | [] => Raise (KeyError key)
  | (k, c) :: df' => if String.eqb k key then Ok c else getitem df' key
  end.

(** [df[key] = c]: an existing column is replaced where it stands, a
    new one is added after the last column. *)
Fixpoint setitem {C} (df : Frame C) (key : string) (c : C) : Frame C :=
  match df with
  | [] => [(key, c)]
  | (k, c') :: df' =>
      if String.eqb k key then (k, c) :: df' else (k, c') :: setitem df' key c
  end.

(** [key in df.columns] *)
Definition has_column {C} (df : Frame C) (key : string) : bool :=
  existsb (String.eqb key) (columns df).

(** Numeric view of a series when an operation needs float64 operands.
    A column of strings among the counts makes [get_scores] raise a
    [TypeError] (every sum or product there feeds a division or a
    subtraction); the embedding raises it at the first operation. *)
Definition as_float (s : Series) : result (list float64) :=
  match s with
  | SObj _ => Raise TypeError
  | SInt l => Ok (map Np.of_int l)
  | SFloat l => Ok l
  end.

(** Binary operators that keep int64 when both sides are int64. The
    series of one frame share their index, so they are combined
    position by position. *)
Definition arith (iop : Z -> Z -> Z) (fop : float64 -> float64 -> float64)
    (a b : Series) : result Series :=
  match a, b with
  | SInt x, SInt y => Ok (SInt (zip_with iop x y))
  | _, _ =>
      x ← as_float a;
      y ← as_float b;
      Ok (SFloat (zip_with fop x y))
  end.

Definition add : Series -> Series -> result Series := arith Np.iadd Np.fadd.
Definition sub : Series -> Series -> result Series := arith Np.isub Np.fsub.
Definition mul : Series -> Series -> result Series := arith Np.imul Np.fmul.

(** True division always yields float64: 0/0 is NaN, x/0 is infinite. *)
Definition truediv (a b : Series) : result Series :=
  x ← as_float a;
  y ← as_float b;
  Ok (SFloat (zip_with Np.fdiv x y)).

(** [s - k] and [k * s] for a Python int [k]. *)
Definition sub_scalar (a : Series) (k : Z) : result Series :=
  match a with
  | SObj _ => Raise TypeError
  | SInt l => Ok (SInt (map (fun x => Np.isub x k) l))
  | SFloat l => Ok (SFloat (map (fun x => Np.fsub x (Np.of_int k)) l))
  end.

Definition rmul_scalar (k : Z) (a : Series) : result Series :=
  match a with
  | SObj _ => Raise TypeError
  | SInt l => Ok (SInt (map (fun x => Np.imul k x) l))
  | SFloat l => Ok (SFloat (map (fun x => Np.fmul (Np.of_int k) x) l))
  end.

(** [np.sqrt(s)] *)
Definition sqrt (a : Series) : result Series :=
  x ← as_float a;
  Ok (SFloat (map Np.fsqrt x)).

(** [s.fillna(0)]: only NaN is missing; infinities stay. An int64
    series has no missing value. *)
Definition fillna0 (a : Series) : Series :=
  match a with
  | SFloat l => SFloat (map (fun x => if Np.isnan x then Np.zero else x) l)
  | _ => a
  end.

End Pd.

Abbreviation Series := Pd.Series.
Abbreviation SObj := Pd.SObj.
Abbreviation SInt := Pd.SInt.
Abbreviation SFloat := Pd.SFloat.
Abbreviation Frame := Pd.Frame.

(** ** Summary statistics *)

(** [get_scores] writes into the table it is given and returns it. When
    it raises, the columns assigned so far stay in the caller's table;
    the embedding keeps the exception only. *)

Definition score_columns : list string :=
  ["tpr"; "tnr"; "precision"; "accuracy"; "youden"; "f1_score"; "mcc"]%string.

Definition get_scores (agg_df : Frame Series) : result (Frame Series) :=
  tp ← Pd.getitem agg_df "tp";
  tn ← Pd.getitem agg_df "tn";
  fp ← Pd.getitem agg_df "fp";
  fn ← Pd.getitem agg_df "fn";
  (* tpr = (tp / (tp + fn)).fillna(0) *)
  d ← Pd.add tp fn;
  q ← Pd.truediv tp d;
  let tpr := Pd.fillna0 q in
  let agg_df := Pd.setitem agg_df "tpr" tpr in
  (* tnr = (tn / (tn + fp)).fillna(0) *)
  d ← Pd.add tn fp;
  q ← Pd.truediv tn d;
  let tnr := Pd.fillna0 q in
  let agg_df := Pd.setitem agg_df "tnr" tnr in
  (* precision = (tp / (tp + fp)).fillna(0) *)
  d ← Pd.add tp fp;
  q ← Pd.truediv tp d;
  let precision := Pd.fillna0 q in
  let agg_df := Pd.setitem agg_df "precision" precision in
  (* acc = (tp + tn) / (tp + tn + fp + fn).fillna(0) *)
  n ← Pd.add tp tn;
  d ← Pd.add tp tn;
  d ← Pd.add d fp;
  d ← Pd.add d fn;
  acc ← Pd.truediv n (Pd.fillna0 d);
  let agg_df := Pd.setitem agg_df "accuracy" acc in
  (* youden = tpr + tnr - 1 *)
  s ← Pd.add tpr tnr;
  youden ← Pd.sub_scalar s 1;
  let agg_df := Pd.setitem agg_df "youden" youden in
  (* f1_score = 2 * (tpr * precision / (tpr + precision)).fillna(0) *)
  n ← Pd.mul tpr precision;
  d ← Pd.add tpr precision;
  q ← Pd.truediv n d;
  f1 ← Pd.rmul_scalar 2 (Pd.fillna0 q);
  let agg_df := Pd.setitem agg_df "f1_score" f1 in
  (* mcc = (((tp * tn) - (fp * fn))
            / np.sqrt((tp + fp) * (tp + fn) * (tn + fp) * (tn + fn))).fillna(0) *)
  a ← Pd.mul tp tn;
  b ← Pd.mul fp fn;
  n ← Pd.sub a b;
  d1 ← Pd.add tp fp;
  d2 ← Pd.add tp fn;
  d ← Pd.mul d1 d2;
  d3 ← Pd.add tn fp;
  d ← Pd.mul d d3;
  d4 ← Pd.add tn fn;
  d ← Pd.mul d d4;
  r ← Pd.sqrt d;
  q ← Pd.truediv n r;
  let agg_df := Pd.setitem agg_df "mcc" (Pd.fillna0 q) in
  Ok agg_df.

(** ** Python values held by the simulation-parameter columns *)

(** Lists are objects with an identity; [id] tells two list objects
    apart even when they hold the same items. *)
Inductive pyval :=
  | PyInt (z : Z)
  | PyFloat (x : float64)
  | PyList (id : nat) (items : list pyval).

#[global] Instance float64_eq_dec : EqDecision float64.
Proof. unfold Np.float64. solve_decision. Defined.

(** Value equality of two parameter entries, item by item, blind to the
    identity of the list objects. *)
Fixpoint same_value (a b : pyval) : bool :=
  match a, b with
  | PyInt x, PyInt y => bool_decide (x = y)
  | PyFloat x, PyFloat y => bool_decide (x = y)
  | PyList _ xs, PyList _ ys =>
      (fix items_eq (xs ys : list pyval) {struct xs} : bool :=
         match xs, ys with
         | [], [] => true
         | x :: xs', y :: ys' => same_value x y && items_eq xs' ys'
         | _, _ => false
         end) xs ys
  | _, _ => false
  end.

(** [x == z] for a float and an integer: Python compares the two
    exactly, without rounding the integer. *)
Definition float_eq_int (x : float64) (z : Z) : bool :=
  match x with
  | S754_zero _ => z =? 0
  | S754_finite s m e =>
      let sm := if s then Z.neg m else Z.pos m in
      if 0 <=? e then z =? sm * 2 ^ e else sm =? z * 2 ^ (- e)
  | _ => false
  end.

(** Element-wise equality of two parameter entries, [==] item by item:
    an integer equals the float of the same value, the two zeros are
    equal, NaN equals nothing; the identity of the list objects plays
    no role. *)
Fixpoint elementwise_equal (a b : pyval) : bool :=
  match a, b with
  | PyInt x, PyInt y => bool_decide (x = y)
  | PyFloat x, PyFloat y => Np.eqb x y
  | PyInt x, PyFloat y => float_eq_int y x
  | PyFloat x, PyInt y => float_eq_int x y
  | PyList _ xs, PyList _ ys =>
      (fix items_eq (xs ys : list pyval) {struct xs} : bool :=
         match xs, ys with
         | [], [] => true
         | x :: xs', y :: ys' => elementwise_equal x y && items_eq xs' ys'
         | _, _ => false
         end) xs ys
  | _, _ => false
  end.

(** Substring test [sub in s]. *)
Fixpoint contains (sub s : string) : bool :=
  String.prefix sub s ||
  match s with
  | EmptyString => false
  | String _ s' => contains sub s'
  end.

(** ** Run results *)

(** One fitted sub-run: the table of posterior summaries (float64
    columns, one row per coefficient) and the observed counts. *)
Record MCMCSubResult := {
  params : Frame (list float64);
  y : list (list Z)
}.

(** One row of a run's parameter table: the seven simulation
    parameters and the int64 columns written by the discovery-rate
    method, in column order. *)
Record param_row := {
  cases : pyval;
  K : pyval;
  n_total : pyval;
  n_samples : pyval;
  b_true : pyval;
  w_true : pyval;
  num_results : pyval;
  nums : list Z
}.

(** A row once the simulation parameters are strings: [sim] lists them
    in the order of [simulation_parameters]. *)
Record study_row := {
  sim : list string;
  num : list Z
}.

Definition raw_mapping : Type := gmap string (list float64).

(** A single-model run; [mcmc_results] is a dict in insertion order. *)
Record Simulation := {
  parameters : list param_row;
  mcmc_results : list (Z * MCMCSubResult);
  _MCMCResult__raw_params : option raw_mapping
}.

Module MultiModel.
(** A multi-model run: condition -> sub-run -> sub-result. *)
Record Simulation := {
  parameters : list param_row;
  results : list (string * list (Z * MCMCSubResult));
  _MCMCResult__raw_params : option raw_mapping
}.
End MultiModel.

(** The default of [custom_threshold], 0.5. *)
Definition default_custom_threshold : float64 :=
  S754_finite false 4503599627370496 (-53).

Definition simulation_parameters : list string :=
  ["cases"; "K"; "n_total"; "n_samples"; "b_true"; "w_true"; "num_results"]%string.

(** ** Per-run metric finalizer *)

(** The value assigned to [params["final_parameter"]]. *)
Definition final_parameter (custom_threshold : float64)
    (params : Frame (list float64)) : result (list float64) :=
  mean_nonzero ← Pd.getitem params "mean_nonzero";
  mean ← Pd.getitem params "mean";
  inclusion_prob ← Pd.getitem params "inclusion_prob";
  mean_nonzero' ← Pd.getitem params "mean_nonzero";
  Ok (Np.where_ (map Np.isnan mean_nonzero) mean
        (Np.where_scalar
           (map (fun p => Np.gt p custom_threshold) inclusion_prob)
           mean_nonzero' Np.zero)).

Definition finalize (custom_threshold : float64) (r_i : MCMCSubResult)
    : result MCMCSubResult :=
  c ← final_parameter custom_threshold (params r_i);
  Ok {| params := Pd.setitem (params r_i) "final_parameter" c; y := y r_i |}.

(** [for r_k, r_i in r.mcmc_results.items(): ...] *)
Fixpoint finalize_items (custom_threshold : float64)
    (items : list (Z * MCMCSubResult)) : result (list (Z * MCMCSubResult)) :=
  match items with
  | [] => Ok []
  | (r_k, r_i) :: rest =>
      r_i' ← finalize custom_threshold r_i;
      rest' ← finalize_items custom_threshold rest;
      Ok ((r_k, r_i') :: rest')
  end.

(** The guarded step of the multi-model variant. *)
Definition finalize_if_sparse (custom_threshold : float64) (r2_i : MCMCSubResult)
    : result MCMCSubResult :=
  if Pd.has_column (params r2_i) "mean_nonzero"
  then finalize custom_threshold r2_i
  else Ok r2_i.

Fixpoint finalize_items_if_sparse (custom_threshold : float64)
    (items : list (Z * MCMCSubResult)) : result (list (Z * MCMCSubResult)) :=
  match items with
  | [] => Ok []
  | (r2_k, r2_i) :: rest =>
      r2_i' ← finalize_if_sparse custom_threshold r2_i;
      rest' ← finalize_items_if_sparse custom_threshold rest;
      Ok ((r2_k, r2_i') :: rest')
  end.

(** [for r_k, r_i in r.results.items(): for r2_k, r2_i in r_i.items(): ...] *)
Fixpoint finalize_results (custom_threshold : float64)
    (res : list (string * list (Z * MCMCSubResult)))
    : result (list (string * list (Z * MCMCSubResult))) :=
  match res with
  | [] => Ok []
  | (r_k, r_i) :: rest =>
      r_i' ← finalize_items_if_sparse custom_threshold r_i;
      rest' ← finalize_results custom_threshold rest;
      Ok ((r_k, r_i') :: rest')
  end.

(** Dict lookups [d[k]] on the insertion-ordered dicts above. *)
Fixpoint dict_get {V} (d : list (Z * V)) (k : Z) : option V :=
  match d with
  | [] => None
  | (k', v) :: d' => if bool_decide (k' = k) then Some v else dict_get d' k
  end.

Fixpoint dict_get_str {V} (d : list (string * V)) (k : string) : option V :=
  match d with
  | [] => None
  | (k', v) :: d' => if String.eqb k' k then Some v else dict_get_str d' k
  end.

(** ** Study aggregator *)

(** Lexicographic order of the tuples of stringified parameters, each
    string compared code point by code point. *)
Fixpoint key_compare (a b : list string) : comparison :=
  match a, b with
  | [], [] => Eq
  | [], _ :: _ => Lt
  | _ :: _, [] => Gt
  | x :: a', y :: b' =>
      match String.compare x y with
      | Eq => key_compare a' b'
      | c => c
      end
  end.

(** Sum of the numeric cells of two rows, column by column (int64).
    The rows of a study carry the same numeric columns. *)
Definition add_nums (a b : list Z) : list Z := zip_with Np.iadd a b.

(** Adds one row to the groups found so far; the groups are kept in
    the sorted order in which [groupby] returns them. *)
Fixpoint add_to_groups (k : list string) (v : list Z)
    (groups : list (list string * list Z)) : list (list string * list Z) :=
  match groups with
  | [] => [(k, v)]
  | (k', v') :: groups' =>
      match key_compare k k' with
      | Lt => (k, v) :: groups
      | Eq => (k', add_nums v' v) :: groups'
      | Gt => (k', v') :: add_to_groups k v groups'
      end
  end.

(** [df.groupby(simulation_parameters).sum()] *)
Definition groupby_sum (df : list study_row) : list (list string * list Z) :=
  fold_left (fun groups row => add_to_groups (sim row) (num row) groups) df [].

(** [.reset_index()]: the group keys become regular columns again. *)
Definition reset_index (groups : list (list string * list Z)) : list study_row :=
  map (fun g => {| sim := fst g; num := snd g |}) groups.

(** [pd.concat(tables)] of tables with one set of columns. *)
Definition pd_concat {A} (tables : list (list A)) : result (list A) :=
  match tables with
  | [] => Raise (ValueError "No objects to concatenate")
  | _ => Ok (concat tables)
  end.

Section Study.

(** [repr] of a Python float (shortest round-trip decimal). *)
Variable float_repr : float64 -> string.

(** [str(v)] *)
Fixpoint py_str (v : pyval) : string :=
  match v with
  | PyInt z => pretty z
  | PyFloat x => float_repr x
  | PyList _ items => "[" +:+ String.concat ", " (map py_str items) +:+ "]"
  end.

(** [df[simulation_parameters].astype(str)], row by row. *)
Definition astype_str (r : param_row) : study_row :=
  {| sim := map py_str [cases r; K r; n_total r; n_samples r;
                        b_true r; w_true r; num_results r];
     num := nums r |}.

(** Lines 96-104: concatenation, stringification, aggregation. *)
Definition aggregate (tables : list (list param_row))
    : result (list study_row * list study_row) :=
  all_study_params ← pd_concat tables;
  let all_study_params := map astype_str all_study_params in
  let all_study_params_agg := groupby_sum all_study_params in
  Ok (all_study_params, reset_index all_study_params_agg).

(** [os.listdir] *)
Variable listdir : string -> result (list string).

Section SingleModel.

(** [renamed_load(open(file, "rb"))] *)
Variable renamed_load : string -> result Simulation.
(** The discovery-rate method of the run, [r.get_discovery_rates()]
    or [r.get_discovery_rates_per_param()]. *)
Variable get_discovery_rates : Simulation -> result Simulation.
Variable get_discovery_rates_per_param : Simulation -> result Simulation.

Definition discard_raw (r : Simulation) : Simulation :=
  {| parameters := parameters r;
     mcmc_results := mcmc_results r;
     _MCMCResult__raw_params := Some ∅ |}.

Definition finalize_run (custom_threshold : float64) (r : Simulation)
    : result Simulation :=
  items ← finalize_items custom_threshold (mcmc_results r);
  Ok {| parameters := parameters r;
        mcmc_results := items;
        _MCMCResult__raw_params := _MCMCResult__raw_params r |}.

(** The loop over the directory listing (lines 71-94). *)
Fixpoint prepare_loop (discovery : Simulation -> result Simulation)
    (path file_identifier : string) (custom_threshold : float64)
    (keep_results : bool) (files : list string) (results : list Simulation)
    : result (list Simulation) :=
  match files with
  | [] => Ok results
  | f :: files' =>
      if contains file_identifier f then
        r ← renamed_load (path +:+ "/" +:+ f);
        r ← finalize_run custom_threshold r;
        r ← discovery r;
        if keep_results
        then prepare_loop discovery path file_identifier custom_threshold
               keep_results files' (results ++ [r])
        else prepare_loop discovery path file_identifier custom_threshold
               keep_results files' (results ++ [discard_raw r])
      else prepare_loop discovery path file_identifier custom_threshold
             keep_results files' results
  end.

Definition multi_run_study_analysis_prepare (path : string)
    (file_identifier : option string) (custom_threshold : option float64)
    (keep_results : option bool)
    : result (list Simulation * list study_row * list study_row) :=
  let file_identifier := default "result_"%string file_identifier in
  let custom_threshold :=
    default default_custom_threshold custom_threshold in
  let keep_results := default false keep_results in
  files ← listdir path;
  results ← prepare_loop get_discovery_rates path file_identifier
              custom_threshold keep_results files [];
  '(all_study_params, agg) ← aggregate (map parameters results);
  Ok (results, all_study_params, agg).

Definition multi_run_study_analysis_prepare_per_param (path : string)
    (file_identifier : option string) (custom_threshold : option float64)
    (keep_results : option bool)
    : result (list Simulation * list study_row * list study_row) :=
  let file_identifier := default "result_"%string file_identifier in
  let custom_threshold :=
    default default_custom_threshold custom_threshold in
  let keep_results := default false keep_results in
  files ← listdir path;
  results ← prepare_loop get_discovery_rates_per_param path file_identifier
              custom_threshold keep_results files [];
  '(all_study_params, agg) ← aggregate (map parameters results);
  Ok (results, all_study_params, agg).

End SingleModel.

Section MultiModelStudy.

Variable renamed_load : string -> result MultiModel.Simulation.
Variable get_discovery_rates :
  MultiModel.Simulation -> result MultiModel.Simulation.

Definition mm_discard_raw (r : MultiModel.Simulation) : MultiModel.Simulation :=
  {| MultiModel.parameters := MultiModel.parameters r;
     MultiModel.results := MultiModel.results r;
     MultiModel._MCMCResult__raw_params := Some ∅ |}.

Definition mm_finalize_run (custom_threshold : float64)
    (r : MultiModel.Simulation) : result MultiModel.Simulation :=
  res ← finalize_results custom_threshold (MultiModel.results r);
  Ok {| MultiModel.parameters := MultiModel.parameters r;
        MultiModel.results := res;
        MultiModel._MCMCResult__raw_params :=
          MultiModel._MCMCResult__raw_params r |}.

(** The loop over the directory listing (lines 377-404). *)
Fixpoint mm_prepare_loop (path file_identifier : string)
    (custom_threshold : float64) (keep_results : bool)
    (files : list string) (results : list MultiModel.Simulation)
    : result (list MultiModel.Simulation) :=
  match files with
  | [] => Ok results
  | f :: files' =>
      if contains file_identifier f then
        r ← renamed_load (path +:+ "/" +:+ f);
        r ← mm_finalize_run custom_threshold r;
        r ← get_discovery_rates r;
        if keep_results
        then mm_prepare_loop path file_identifier custom_threshold
               keep_results files' (results ++ [r])
        else mm_prepare_loop path file_identifier custom_threshold
               keep_results files' (results ++ [mm_discard_raw r])
      else mm_prepare_loop path file_identifier custom_threshold
             keep_results files' results
  end.

Definition multi_run_study_analysis_multi_model_prepare (path : string)
    (file_identifier : option string) (custom_threshold : option float64)
    (keep_results : option bool)
    : result (list MultiModel.Simulation * list study_row * list study_row) :=
  let file_identifier := default "result_"%string file_identifier in
  let custom_threshold :=
    default default_custom_threshold custom_threshold in
  let keep_results := default false keep_results in
  files ← listdir path;
  results ← mm_prepare_loop path file_identifier custom_threshold
              keep_results files [];
  '(all_study_params, agg) ← aggregate (map MultiModel.parameters results);
  Ok (results, all_study_params, agg).

End MultiModelStudy.

End Study.

(** * Vocabulary of the properties *)

(** ** Cells of the score columns *)

Definition numeric (s : Series) : bool :=
  match s with
  | SObj _ => false
  | _ => true
  end.

(** The frame after the seven column assignments of [get_scores]. *)
Definition with_scores (df : Frame Series) (c : list Series) : Frame Series :=
  fold_left (fun d kc => Pd.setitem d (fst kc) (snd kc)) (zip score_columns c) df.

Definition fill0 (x : float64) : float64 := if Np.isnan x then Np.zero else x.

(** One cell of [(a / (a + b)).fillna(0)] on int64 columns. *)
Definition rate_cell (a b : Z) : float64 :=
  fill0 (Np.fdiv (Np.of_int a) (Np.of_int (Np.iadd a b))).

Definition accuracy_cell (tp tn fp fn : Z) : float64 :=
  Np.fdiv (Np.of_int (Np.iadd tp tn))
          (Np.of_int (Np.iadd (Np.iadd (Np.iadd tp tn) fp) fn)).

Definition youden_cell (tpr tnr : float64) : float64 :=
  Np.fsub (Np.fadd tpr tnr) (Np.of_int 1).

Definition f1_cell (tpr precision : float64) : float64 :=
  Np.fmul (Np.of_int 2)
          (fill0 (Np.fdiv (Np.fmul tpr precision) (Np.fadd tpr precision))).

Definition mcc_cell (tp tn fp fn : Z) : float64 :=
  fill0 (Np.fdiv
           (Np.of_int (Np.isub (Np.imul tp tn) (Np.imul fp fn)))
           (Np.fsqrt (Np.of_int
              (Np.imul (Np.imul (Np.imul (Np.iadd tp fp) (Np.iadd tp fn))
                                (Np.iadd tn fp))
                       (Np.iadd tn fn))))).

(** The float64 cell of column [c] at row [i]. *)
Definition cell (df : Frame Series) (c : string) (i : nat) : option float64 :=
  match Pd.getitem df c with
  | Ok (SFloat l) => l !! i
  | _ => None
  end.

Record row_scores := {
  rs_tpr : float64;
  rs_tnr : float64;
  rs_precision : float64;
  rs_accuracy : float64;
  rs_youden : float64;
  rs_f1_score : float64;
  rs_mcc : float64
}.

Definition scores_of_counts (tp tn fp fn : Z) : row_scores :=
  {| rs_tpr := rate_cell tp fn;
     rs_tnr := rate_cell tn fp;
     rs_precision := rate_cell tp fp;
     rs_accuracy := accuracy_cell tp tn fp fn;
     rs_youden := youden_cell (rate_cell tp fn) (rate_cell tn fp);
     rs_f1_score := f1_cell (rate_cell tp fn) (rate_cell tp fp);
     rs_mcc := mcc_cell tp tn fp fn |}.

(** The seven scores of row [i] of a scored frame. *)
Definition row_of (df : Frame Series) (i : nat) : option row_scores :=
  tpr ← cell df "tpr" i;
  tnr ← cell df "tnr" i;
  precision ← cell df "precision" i;
  accuracy ← cell df "accuracy" i;
  youden ← cell df "youden" i;
  f1 ← cell df "f1_score" i;
  mcc ← cell df "mcc" i;
  Some {| rs_tpr := tpr; rs_tnr := tnr; rs_precision := precision;
          rs_accuracy := accuracy; rs_youden := youden; rs_f1_score := f1;
          rs_mcc := mcc |}.

(** The scores [get_scores] writes in row [i] of [df]. *)
Definition scores_at (df : Frame Series) (i : nat) : option row_scores :=
  match get_scores df with
  | Ok df' => row_of df' i
  | Raise _ => None
  end.

(** A table of the four count columns alone. *)
Definition counts_frame (tp tn fp fn : list Z) : Frame Series :=
  [("tp", SInt tp); ("tn", SInt tn); ("fp", SInt fp); ("fn", SInt fn)]%string.

(** ** Reading a binary64 as a rational *)

Definition signed_mantissa (s : bool) (m : positive) : Z :=
  if s then Z.neg m else Z.pos m.

(** [x] is a normal binary64 within half a unit in the last place of
    the rational [n/d] (with [0 < d]): the decimal literal for [n/d]
    denotes [x]. *)
Definition rounds_to (n d : Z) (x : float64) : bool :=
  match x with
  | S754_finite s m e =>
      (Z.pos (digits2_pos m) =? Np.prec) && (e <=? 0) &&
      (2 * Z.abs (n * 2 ^ (- e) - signed_mantissa s m * d) <=? d)
  | _ => false
  end.

(** [x] is exactly the rational [n/d]. *)
Definition exactly (n d : Z) (x : float64) : bool :=
  match x with
  | S754_finite s m e =>
      (e <=? 0) && (n * 2 ^ (- e) =? signed_mantissa s m * d)
  | _ => false
  end.

(** Non-negative values with an exponent in range: the shape of every
    rate computed from non-negative counts. *)
Definition nonneg_class (x : float64) : Prop :=
  x = S754_zero false \/ x = S754_infinity false \/
  exists m e, x = S754_finite false m e /\ emin Np.prec Np.emax <= e.

(** ** Finalized sub-results *)

(** One cell of the [final_parameter] column. *)
Definition final_cell (custom_threshold mean mean_nonzero inclusion_prob : float64)
    : float64 :=
  if Np.isnan mean_nonzero then mean
  else if Np.gt inclusion_prob custom_threshold then mean_nonzero
  else Np.zero.

(** Every element of the [final_parameter] column of [r_i] is the
    [final_cell] of the same row of the three posterior summaries, and
    every row of the summaries has its element. *)
Definition finalized (custom_threshold : float64) (r_i : MCMCSubResult) : Prop :=
  exists mean mean_nonzero inclusion_prob col,
    Pd.getitem (params r_i) "mean" = Ok mean /\
    Pd.getitem (params r_i) "mean_nonzero" = Ok mean_nonzero /\
    Pd.getitem (params r_i) "inclusion_prob" = Ok inclusion_prob /\
    Pd.getitem (params r_i) "final_parameter" = Ok col /\
    (forall i v, col !! i = Some v ->
       exists m z p,
         mean !! i = Some m /\ mean_nonzero !! i = Some z /\
         inclusion_prob !! i = Some p /\
         v = final_cell custom_threshold m z p) /\
    (forall i m z p,
       mean !! i = Some m -> mean_nonzero !! i = Some z ->
       inclusion_prob !! i = Some p ->
       col !! i = Some (final_cell custom_threshold m z p)).

(** The three posterior summaries the finalizer reads are there. *)
Definition has_summaries (r_i : MCMCSubResult) : Prop :=
  Pd.has_column (params r_i) "mean" = true /\
  Pd.has_column (params r_i) "mean_nonzero" = true /\
  Pd.has_column (params r_i) "inclusion_prob" = true.

(** The sub-result [r_i'] is [r_i] with its [final_parameter] column
    written: [y] and every other column are those of [r_i], and every
    element of the column is the [final_cell] of the same row of the
    three posterior summaries of [r_i], each row having its element. *)
Definition finalized_from (custom_threshold : float64)
    (r_i r_i' : MCMCSubResult) : Prop :=
  y r_i' = y r_i /\
  (forall k, k <> "final_parameter"%string ->
     Pd.getitem (params r_i') k = Pd.getitem (params r_i) k) /\
  exists mean mean_nonzero inclusion_prob col,
    Pd.getitem (params r_i) "mean" = Ok mean /\
    Pd.getitem (params r_i) "mean_nonzero" = Ok mean_nonzero /\
    Pd.getitem (params r_i) "inclusion_prob" = Ok inclusion_prob /\
    Pd.getitem (params r_i') "final_parameter" = Ok col /\
    (forall i v, col !! i = Some v ->
       exists m z p,
         mean !! i = Some m /\ mean_nonzero !! i = Some z /\
         inclusion_prob !! i = Some p /\
         v = final_cell custom_threshold m z p) /\
    (forall i m z p,
       mean !! i = Some m -> mean_nonzero !! i = Some z ->
       inclusion_prob !! i = Some p ->
       col !! i = Some (final_cell custom_threshold m z p)).

(** The sub-results [items'] are those of [items], key by key and in
    the same order, each one finalized. *)
Definition sub_results_finalized_from (custom_threshold : float64)
    (items items' : list (Z * MCMCSubResult)) : Prop :=
  Forall2 (fun kv kv' =>
             fst kv' = fst kv /\
             finalized_from custom_threshold (snd kv) (snd kv'))
          items items'.

(** ** The loop over the files, file by file *)

Fixpoint collect {A B} (f : A -> result B) (l : list A) : result (list B) :=
  match l with
  | [] => Ok []
  | x :: l' =>
      y ← f x;
      ys ← collect f l';
      Ok (y :: ys)
  end.

(** What one iteration of the loop adds to [results] for a matching
    file. *)
Definition process_file (renamed_load : string -> result Simulation)
    (discovery : Simulation -> result Simulation)
    (path : string) (custom_threshold : float64) (keep_results : bool)
    (f : string) : result Simulation :=
  r ← renamed_load (path +:+ "/" +:+ f);
  r ← finalize_run custom_threshold r;
  r ← discovery r;
  Ok (if keep_results then r else discard_raw r).

Definition mm_process_file (renamed_load : string -> result MultiModel.Simulation)
    (discovery : MultiModel.Simulation -> result MultiModel.Simulation)
    (path : string) (custom_threshold : float64) (keep_results : bool)
    (f : string) : result MultiModel.Simulation :=
  r ← renamed_load (path +:+ "/" +:+ f);
  r ← mm_finalize_run custom_threshold r;
  r ← discovery r;
  Ok (if keep_results then r else mm_discard_raw r).

(** ** Aggregated tables *)

(** The numeric cells of the group of tuple [k], if there is one. *)
Fixpoint lookup_group (k : list string) (groups : list (list string * list Z))
    : option (list Z) :=
  match groups with
  | [] => None
  | (k', v) :: groups' =>
      if bool_decide (k' = k) then Some v else lookup_group k groups'
  end.

(** Groups in strictly increasing order of their tuples. *)
Definition key_lt (a b : list string * list Z) : Prop :=
  key_compare (fst a) (fst b) = Lt.

Fixpoint sorted_groups (groups : list (list string * list Z)) : Prop :=
  match groups with
  | [] => True
  | g :: groups' => Forall (key_lt g) groups' /\ sorted_groups groups'
  end.

Definition add_opt (a b : option (list Z)) : option (list Z) :=
  match a, b with
  | Some x, Some y => Some (add_nums x y)
  | Some x, None => Some x
  | None, _ => b
  end.

(** Sum, in row order, of the rows whose tuple is [k]. *)
Definition group_total (k : list string) (rows : list study_row)
    : option (list Z) :=
  fold_left (fun acc row =>
               if bool_decide (sim row = k)
               then add_opt acc (Some (num row)) else acc) rows None.

(** [.set_index(simulation_parameters)], the inverse of [reset_index]. *)
Definition set_index (df : list study_row) : list (list string * list Z) :=
  map (fun row => (sim row, num row)) df.



(** Two rows agree on every simulation parameter, value by value. *)
Definition same_parameters (r1 r2 : param_row) : Prop :=
  same_value (cases r1) (cases r2) = true /\
  same_value (K r1) (K r2) = true /\
  same_value (n_total r1) (n_total r2) = true /\
  same_value (n_samples r1) (n_samples r2) = true /\
  same_value (b_true r1) (b_true r2) = true /\
  same_value (w_true r1) (w_true r2) = true /\
  same_value (num_results r1) (num_results r2) = true.

(** Two rows agree on every simulation parameter under [==], item by
    item. *)
Definition elementwise_equal_parameters (r1 r2 : param_row) : Prop :=
  elementwise_equal (cases r1) (cases r2) = true /\
  elementwise_equal (K r1) (K r2) = true /\
  elementwise_equal (n_total r1) (n_total r2) = true /\
  elementwise_equal (n_samples r1) (n_samples r2) = true /\
  elementwise_equal (b_true r1) (b_true r2) = true /\
  elementwise_equal (w_true r1) (w_true r2) = true /\
  elementwise_equal (num_results r1) (num_results r2) = true.

(** ** A small study, used to exercise the statements *)

Module Example.

Definition f_1 : float64 := Np.of_int 1.
Definition f_2 : float64 := Np.of_int 2.
Definition f_0_4 : float64 := Np.fdiv (Np.of_int 4) (Np.of_int 10).
Definition f_0_6 : float64 := Np.fdiv (Np.of_int 6) (Np.of_int 10).
Definition f_0_9 : float64 := Np.fdiv (Np.of_int 9) (Np.of_int 10).

(** Posterior summaries of four coefficients. *)
Definition summaries : Frame (list float64) :=
  [("mean", [f_1; f_1; f_1; f_1]);
   ("mean_nonzero", [f_2; Np.nan; f_2; f_2]);
   ("inclusion_prob", [f_0_6; f_0_9; f_0_4; default_custom_threshold])]%string.

Definition sub_result : MCMCSubResult :=
  {| params := summaries; y := [[10; 20]; [30; 40]] |}.

Definition finalized_sub_result : MCMCSubResult :=
  {| params := summaries ++ [("final_parameter"%string, [f_2; f_1; Np.zero; Np.zero])];
     y := [[10; 20]; [30; 40]] |}.

(** A sub-result of a model without spike-and-slab prior. *)
Definition dense_sub_result : MCMCSubResult :=
  {| params := [("mean"%string, [f_1; f_2])]; y := [[1; 2]] |}.

Definition row (id : nat) (counts : list Z) : param_row :=
  {| cases := PyInt 1; K := PyInt 5; n_total := PyInt 1000;
     n_samples := PyList id [PyInt 5; PyInt 5];
     b_true := PyList (id + 1) [PyFloat f_1; PyFloat f_2];
     w_true := PyList (id + 2) [PyList (id + 3) [PyFloat f_0_4; PyInt 0]];
     num_results := PyInt 1;
     nums := counts |}.

Definition row_other (id : nat) (counts : list Z) : param_row :=
  {| cases := PyInt 1; K := PyInt 5; n_total := PyInt 1000;
     n_samples := PyList id [PyInt 5; PyInt 10];
     b_true := PyList (id + 1) [PyFloat f_1; PyFloat f_2];
     w_true := PyList (id + 2) [PyList (id + 3) [PyFloat f_0_4; PyInt 0]];
     num_results := PyInt 1;
     nums := counts |}.

(** The parameters of [row], with the effects [b_true] written as
    integers: [[1, 2]] instead of [[1.0, 2.0]]. *)
Definition row_int_effects (id : nat) (counts : list Z) : param_row :=
  {| cases := PyInt 1; K := PyInt 5; n_total := PyInt 1000;
     n_samples := PyList id [PyInt 5; PyInt 5];
     b_true := PyList (id + 1) [PyInt 1; PyInt 2];
     w_true := PyList (id + 2) [PyList (id + 3) [PyFloat f_0_4; PyInt 0]];
     num_results := PyInt 1;
     nums := counts |}.

Definition raw : raw_mapping := {[ "beta"%string := [f_1; f_2] ]}.

Definition run (id : nat) : Simulation :=
  {| parameters := [row id []];
     mcmc_results := [(0, sub_result)];
     _MCMCResult__raw_params := Some raw |}.

Definition mm_run (id : nat) : MultiModel.Simulation :=
  {| MultiModel.parameters := [row id []];
     MultiModel.results :=
       [("Simple"%string, [(0, sub_result)]);
        ("Poisson"%string, [(0, dense_sub_result)])];
     MultiModel._MCMCResult__raw_params := Some raw |}.

Definition float_repr (x : float64) : string :=
  if bool_decide (x = f_1) then "1.0"
  else if bool_decide (x = f_2) then "2.0"
  else if bool_decide (x = f_0_4) then "0.4"
  else "nan".

Definition listdir (path : string) : result (list string) :=
  Ok ["result_a"; "readme.txt"; "old_result_b"]%string.

Definition empty_listdir (path : string) : result (list string) :=
  Ok ["readme.txt"; "results.csv"]%string.

Definition renamed_load (file : string) : result Simulation :=
  if String.eqb file "study/result_a" then Ok (run 10)
  else if String.eqb file "study/old_result_b" then Ok (run 20)
  else Raise UnpicklingError.

Definition mm_renamed_load (file : string) : result MultiModel.Simulation :=
  if String.eqb file "study/result_a" then Ok (mm_run 10)
  else if String.eqb file "study/old_result_b" then Ok (mm_run 20)
  else Raise UnpicklingError.

(** A discovery-rate method: it writes four counts into the parameter
    table and touches nothing else. *)
Definition get_discovery_rates (r : Simulation) : result Simulation :=
  Ok {| parameters :=
          map (fun p => {| cases := cases p; K := K p; n_total := n_total p;
                           n_samples := n_samples p; b_true := b_true p;
                           w_true := w_true p; num_results := num_results p;
                           nums := [1; 3; 0; 1] |}) (parameters r);
        mcmc_results := mcmc_results r;
        _MCMCResult__raw_params := _MCMCResult__raw_params r |}.

Definition mm_get_discovery_rates (r : MultiModel.Simulation)
    : result MultiModel.Simulation :=
  Ok {| MultiModel.parameters :=
          map (fun p => {| cases := cases p; K := K p; n_total := n_total p;
                           n_samples := n_samples p; b_true := b_true p;
                           w_true := w_true p; num_results := num_results p;
                           nums := [1; 3; 0; 1] |}) (MultiModel.parameters r);
        MultiModel.results := MultiModel.results r;
        MultiModel._MCMCResult__raw_params := MultiModel._MCMCResult__raw_params r |}.

End Example.

(** * Further code and its vocabulary *)

(** ** Result loader *)

(** The module under which [RenameUnpickler.find_class] looks a class
    up: the four legacy locations, with or without the [model.]
    prefix, are mapped to the current ones. *)
Definition renamed_module (module : string) : string :=
  let renamed_module := module in
  let renamed_module :=
    if String.eqb module "multi_parameter_sampling"
       || String.eqb module "model.multi_parameter_sampling"
    then "util.multi_parameter_sampling"%string else renamed_module in
  let renamed_module :=
    if String.eqb module "compositional_analysis_generation_toolbox"
       || String.eqb module "model.compositional_analysis_generation_toolbox"
    then "util.compositional_analysis_generation_toolbox"%string
    else renamed_module in
  let renamed_module :=
    if String.eqb module "result_classes"
       || String.eqb module "model.result_classes"
    then "util.result_classes"%string else renamed_module in
  let renamed_module :=
    if String.eqb module "final_models"
       || String.eqb module "model.final_models"
    then "model.dirichlet_models"%string else renamed_module in
  renamed_module.

(** [find_class(module, name)], over the class lookup of
    [pickle.Unpickler] it delegates to. *)
Definition find_class {C} (super_find_class : string -> string -> result C)
    (module name : string) : result C :=
  super_find_class (renamed_module module) name.

Definition legacy_modules : list string :=
  ["multi_parameter_sampling"; "model.multi_parameter_sampling";
   "compositional_analysis_generation_toolbox";
   "model.compositional_analysis_generation_toolbox";
   "result_classes"; "model.result_classes";
   "final_models"; "model.final_models"]%string.

(** ** Tables with rows of one length *)

Definition series_length (s : Series) : nat :=
  match s with
  | SObj l => length l
  | SInt l => length l
  | SFloat l => length l
  end.

(** Every column of the frame has [n] rows. *)
Definition rectangular (n : nat) (df : Frame Series) : Prop :=
  Forall (fun kc => series_length (snd kc) = n) df.

(** ** Sub-results the guarded finalizer accepts *)


(** ** Totals of a table *)

(** Sum of the numeric cells of all rows, column by column (int64), in
    row order; [None] for a table without rows. *)
Definition column_totals (rows : list study_row) : option (list Z) :=
  fold_left (fun acc row => add_opt acc (Some (num row))) rows None.

(** ** Integer-valued parameters *)

(** Every character of [s] satisfies [p]. *)
Fixpoint all_chars (p : ascii -> bool) (s : string) : bool :=
  match s with
  | EmptyString => true
  | String c s' => p c && all_chars p s'
  end.

(** The characters of [str(n)] for an integer [n]. *)
Definition is_int_char (c : ascii) : bool :=
  existsb (Ascii.eqb c) (list_ascii_of_string "0123456789-").




(** A non-empty string of integer characters. *)
Definition int_token (s : string) : Prop :=
  all_chars is_int_char s = true /\ s <> EmptyString.

(** ** Count data of the case/control plots *)

(** The exceptions of the plotting functions: those above, and
    [IndexError]. *)
Inductive plot_exn :=
  | Exn (e : exn)
  | LabelKeyError (label : Z)
  | IndexError.

Inductive attempt (A : Type) :=
  | Returns (a : A)
  | Raises (e : plot_exn).
Arguments Returns {A} a.
Arguments Raises {A} e.

#[global] Instance attempt_ret : MRet attempt := @Returns.
#[global] Instance attempt_bind : MBind attempt := fun A B f m =>
  match m with
  | Returns a => f a
  | Raises e => Raises e
  end.

(** [df.loc[label]] on a table with the default index 0, 1, ..., as
    the parameter table of a run has it. *)
Definition loc (df : list param_row) (label : Z) : attempt param_row :=
  if (label <? 0)%Z then Raises (LabelKeyError label)
  else match df !! Z.to_nat label with
       | Some row => Returns row
       | None => Raises (LabelKeyError label)
       end.

(** [v[0]] *)
Definition first_item (v : pyval) : attempt pyval :=
  match v with
  | PyList _ (x :: _) => Returns x
  | PyList _ [] => Raises IndexError
  | _ => Raises (Exn TypeError)
  end.

(** A value used as the bound of a slice. *)
Definition slice_index (v : pyval) : attempt Z :=
  match v with
  | PyInt z => Returns z
  | _ => Raises (Exn TypeError)
  end.

(** The position at which [a[:n]] ends and [a[n:]] starts, for an
    array of [len] rows: a negative [n] counts from the end, and the
    bound is clipped to the array. *)
Definition slice_bound (n : Z) (len : nat) : nat :=
  Z.to_nat (if (n <? 0)%Z then Z.max (Z.of_nat len + n) 0
            else Z.min n (Z.of_nat len)).

(** [a[:n]] and [a[n:]] *)
Definition slice_to {A} (n : Z) (a : list A) : list A :=
  take (slice_bound n (length a)) a.

Definition slice_from {A} (n : Z) (a : list A) : list A :=
  drop (slice_bound n (length a)) a.

Section CountData.

(** [==] of two Python values. *)
Variable py_eq : pyval -> pyval -> bool.

(** [for i in r.mcmc_results: ...], on the two lists collected so far. *)
Fixpoint split_sub_results (r : Simulation)
    (items : list (Z * MCMCSubResult))
    (controls_y cases_y : list (list Z))
    : attempt (list (list Z) * list (list Z)) :=
  match items with
  | [] => Returns (controls_y, cases_y)
  | (i, r_i) :: items' =>
      row ← loc (parameters r) i;
      n_cases ← first_item (n_samples row);
      n_cases ← slice_index n_cases;
      split_sub_results r items'
        (controls_y ++ slice_to n_cases (y r_i))
        (cases_y ++ slice_from n_cases (y r_i))
  end.

(** [for r in results: if r.parameters.loc[0, "w_true"] == identifier_w: ...]
    (lines 205-215, 327-335 and 437-445). *)
Fixpoint get_count_data (identifier_w : pyval) (results : list Simulation)
    (controls_y cases_y : list (list Z))
    : attempt (list (list Z) * list (list Z)) :=
  match results with
  | [] => Returns (controls_y, cases_y)
  | r :: results' =>
      row ← loc (parameters r) 0;
      if py_eq (w_true row) identifier_w then
        '(controls_y, cases_y) ←
           split_sub_results r (mcmc_results r) controls_y cases_y;
        get_count_data identifier_w results' controls_y cases_y
      else get_count_data identifier_w results' controls_y cases_y
  end.

(** The runs the loop takes count data from. *)
Definition selected (identifier_w : pyval) (r : Simulation) : bool :=
  match parameters r with
  | row :: _ => py_eq (w_true row) identifier_w
  | [] => false
  end.

End CountData.

(** [[y[i] for y in ys]] for [i] of [range(K)]. *)
Fixpoint column (i : nat) (ys : list (list Z)) : attempt (list Z) :=
  match ys with
  | [] => Returns []
  | y :: ys' =>
      match y !! i with
      | Some c => cs ← column i ys'; Returns (c :: cs)
      | None => Raises IndexError
      end
  end.

(** [pd.DataFrame({"controls": ..., "cases": ...})] of the boxplots
    for cell type [i] (lines 339-340 and 468-469); the columns of a
    frame have one length. *)
Definition box_df (i : nat) (controls_y cases_y : list (list Z))
    : attempt (list Z * list Z) :=
  controls ← column i controls_y;
  cases ← column i cases_y;
  if bool_decide (length controls = length cases)
  then Returns (controls, cases)
  else Raises (Exn (ValueError "All arrays must be of the same length")).

(** All sample rows of the sub-results of the runs [rs]. *)
Definition sample_rows (rs : list Simulation) : list (list Z) :=
  concat (map (fun r => concat (map (fun kv => y (snd kv)) (mcmc_results r))) rs).

(** ** File names of the per-type plots *)

(** [s.replace(old, new)] for a non-empty [old], scanning from the
    left; [skip] characters of a match are still to be passed over. *)
Fixpoint replace_from (old new : string) (skip : nat) (s : string) : string :=
  match s with
  | EmptyString => EmptyString
  | String c s' =>
      match skip with
      | S k => replace_from old new k s'
      | O =>
          if String.prefix old s
          then new +:+ replace_from old new (String.length old - 1) s'
          else String c (replace_from old new 0 s')
      end
  end.

Definition str_replace (old new s : string) : string :=
  replace_from old new 0 s.

(** The file the plot of cell type [i] of [range(K)] is saved to
    (line 481). *)
Definition savefig_path (path : string) (i : nat) : string :=
  path +:+ "_type_" +:+ str_replace "." "" (pretty (Z.of_nat i + 1)%Z).

(** ** More example data *)

Module Demo.

(** A class lookup that answers with the qualified name it is asked. *)
Definition class_lookup (module name : string) : result string :=
  Ok (module +:+ "." +:+ name).

(** An aggregated table of two parameter combinations. *)
Definition agg_table : Frame Series :=
  [("n_samples", SObj ["[5, 5]"; "[5, 10]"]);
   ("tp", SInt [8; 0]); ("tn", SInt [7; 0]);
   ("fp", SInt [3; 0]); ("fn", SInt [2; 0])]%string.

(** A directory whose second matching file cannot be loaded. *)
Definition broken_listdir (path : string) : result (list string) :=
  Ok ["result_a"; "notes.md"; "result_broken"; "old_result_b"]%string.

(** A loader that also answers for files the study never asks for. *)
Definition eager_load (file : string) : result Simulation :=
  if String.eqb file "study/readme.txt" then Ok (Example.run 30)
  else Example.renamed_load file.

(** The directory of the example, listed in the opposite order. *)
Definition reversed_listdir (path : string) : result (list string) :=
  Ok ["old_result_b"; "readme.txt"; "result_a"]%string.

(** A multi-model run whose spike-and-slab table lacks [mean]. *)
Definition mm_incomplete_run : MultiModel.Simulation :=
  {| MultiModel.parameters := [Example.row 40 []];
     MultiModel.results :=
       [("Simple"%string,
         [(0, {| params := [("mean_nonzero"%string, [Example.f_2])];
                 y := [[1; 2]] |})])];
     MultiModel._MCMCResult__raw_params := None |}.

Definition mm_broken_load (file : string) : result MultiModel.Simulation :=
  if String.eqb file "study/result_broken" then Ok mm_incomplete_run
  else Example.mm_renamed_load file.

(** A run with one control sample and two case samples. *)
Definition unbalanced_run : Simulation :=
  {| parameters :=
       [{| cases := PyInt 1; K := PyInt 2; n_total := PyInt 1000;
           n_samples := PyList 1 [PyInt 1; PyInt 2];
           b_true := PyList 2 [PyFloat Example.f_1; PyFloat Example.f_2];
           w_true := PyList 3 [PyList 4 [PyFloat Example.f_0_4; PyInt 0]];
           num_results := PyInt 1;
           nums := [] |}];
     mcmc_results :=
       [(0, {| params := Example.summaries;
               y := [[10; 20]; [30; 40]; [50; 60]] |})];
     _MCMCResult__raw_params := None |}.

(** A run with another ground-truth effect. *)
Definition other_effect_run : Simulation :=
  {| parameters :=
       [{| cases := PyInt 1; K := PyInt 2; n_total := PyInt 1000;
           n_samples := PyList 5 [PyInt 1; PyInt 1];
           b_true := PyList 6 [PyFloat Example.f_1; PyFloat Example.f_2];
           w_true := PyList 7 [PyList 8 [PyInt 0; PyInt 0]];
           num_results := PyInt 1;
           nums := [] |}];
     mcmc_results :=
       [(0, {| params := Example.summaries; y := [[1; 2]; [3; 4]] |})];
     _MCMCResult__raw_params := None |}.

Definition identifier_w : pyval :=
  PyList 9 [PyList 10 [PyFloat Example.f_0_4; PyInt 0]].

End Demo.

(** * Properties *)

#[global] Arguments Np.of_int : simpl never.
#[global] Arguments Np.fadd : simpl never.
#[global] Arguments Np.fsub : simpl never.
#[global] Arguments Np.fmul : simpl never.
#[global] Arguments Np.fdiv : simpl never.
#[global] Arguments Np.fsqrt : simpl never.
#[global] Arguments Np.iadd : simpl never.
#[global] Arguments Np.isub : simpl never.
#[global] Arguments Np.imul : simpl never.
#[global] Arguments Np.isnan : simpl never.
#[global] Arguments Np.gt : simpl never.
#[global] Arguments Np.eqb : simpl never.

(** ** The error monad *)

Lemma bind_Ok {A B} (m : result A) (f : A -> result B) (b : B) :
  m ≫= f = Ok b -> exists a, m = Ok a /\ f a = Ok b.
Proof. destruct m as [a|e]; simpl; [eauto | discriminate]. Qed.

(** ** Frames *)

Lemma getitem_setitem_eq {C} (df : Frame C) k c :
  Pd.getitem (Pd.setitem df k c) k = Ok c.
Proof.
  induction df as [|[k' c'] df IH]; simpl.
  - now rewrite String.eqb_refl.
  - destruct (String.eqb k' k) eqn:E; simpl; rewrite E; auto.
Qed.

Lemma getitem_setitem_ne {C} (df : Frame C) k k' c :
  k <> k' -> Pd.getitem (Pd.setitem df k c) k' = Pd.getitem df k'.
Proof.
  intros Hne. induction df as [|[k0 c0] df IH]; simpl.
  - destruct (String.eqb k k') eqn:E; [|reflexivity].
    apply String.eqb_eq in E. contradiction.
  - destruct (String.eqb k0 k) eqn:E; simpl.
    + apply String.eqb_eq in E. subst k0.
      destruct (String.eqb k k') eqn:E'; [|reflexivity].
      apply String.eqb_eq in E'. contradiction.
    + now rewrite IH.
Qed.

Lemma setitem_fresh {C} (df : Frame C) k c :
  ~ In k (Pd.columns df) -> Pd.setitem df k c = df ++ [(k, c)].
Proof.
  induction df as [|[k0 c0] df IH]; simpl; intros Hn; [reflexivity|].
  destruct (String.eqb k0 k) eqn:E.
  - apply String.eqb_eq in E. tauto.
  - rewrite IH; tauto.
Qed.

Lemma columns_app {C} (a b : Frame C) :
  Pd.columns (a ++ b) = Pd.columns a ++ Pd.columns b.
Proof. unfold Pd.columns. apply map_app. Qed.

Lemma has_column_In {C} (df : Frame C) k :
  Pd.has_column df k = true <-> In k (Pd.columns df).
Proof.
  unfold Pd.has_column. rewrite existsb_exists. split.
  - intros (x & Hx & E). apply String.eqb_eq in E. now subst.
  - intros H. exists k. split; [assumption | apply String.eqb_refl].
Qed.

Lemma getitem_Ok_In {C} (df : Frame C) k c :
  Pd.getitem df k = Ok c -> In k (Pd.columns df).
Proof.
  induction df as [|[k0 c0] df IH]; simpl; [discriminate|].
  destruct (String.eqb k0 k) eqn:E; intros H.
  - apply String.eqb_eq in E. now left.
  - right. auto.
Qed.

Lemma getitem_missing {C} (df : Frame C) k :
  ~ In k (Pd.columns df) -> Pd.getitem df k = Raise (KeyError k).
Proof.
  induction df as [|[k0 c0] df IH]; simpl; intros Hn; [reflexivity|].
  destruct (String.eqb k0 k) eqn:E.
  - apply String.eqb_eq in E. tauto.
  - apply IH. tauto.
Qed.

Lemma lookup_map {A B} (f : A -> B) (l : list A) (i : nat) :
  map f l !! i = f <$> (l !! i).
Proof.
  revert i. induction l as [|x l IH]; intros [|i]; simpl; auto.
Qed.

(** ** get_scores: shape of the result *)

Lemma get_scores_shape df df' :
  get_scores df = Ok df' ->
  exists c1 c2 c3 c4 c5 c6 c7, df' = with_scores df [c1; c2; c3; c4; c5; c6; c7].
Proof.
  unfold get_scores. intros H.
  repeat (let a := fresh "a" in let Ha := fresh "Ha" in
          apply bind_Ok in H; destruct H as (a & Ha & H)).
  injection H as <-. do 7 eexists. reflexivity.
Qed.

Lemma get_scores_numeric df tp tn fp fn :
  Pd.getitem df "tp" = Ok tp -> Pd.getitem df "tn" = Ok tn ->
  Pd.getitem df "fp" = Ok fp -> Pd.getitem df "fn" = Ok fn ->
  numeric tp = true -> numeric tn = true ->
  numeric fp = true -> numeric fn = true ->
  exists df', get_scores df = Ok df'.
Proof.
  intros Htp Htn Hfp Hfn Ntp Ntn Nfp Nfn. unfold get_scores.
  rewrite Htp, Htn, Hfp, Hfn.
  destruct tp, tn, fp, fn; try discriminate; simpl; eexists; reflexivity.
Qed.

Lemma with_scores_other df c1 c2 c3 c4 c5 c6 c7 k :
  ~ In k score_columns ->
  Pd.getitem (with_scores df [c1; c2; c3; c4; c5; c6; c7]) k = Pd.getitem df k.
Proof.
  intros Hk. unfold with_scores. simpl in *.
  repeat (rewrite getitem_setitem_ne; [|intros E; tauto]).
  reflexivity.
Qed.

Lemma with_scores_fresh df c1 c2 c3 c4 c5 c6 c7 :
  (forall k, In k score_columns -> ~ In k (Pd.columns df)) ->
  with_scores df [c1; c2; c3; c4; c5; c6; c7]
  = df ++ [("tpr", c1); ("tnr", c2); ("precision", c3); ("accuracy", c4);
           ("youden", c5); ("f1_score", c6); ("mcc", c7)]%string.
Proof.
  intros Hfresh. unfold with_scores. simpl.
  assert (step : forall (new : Frame Series) k c,
            ~ In k (Pd.columns df) -> ~ In k (Pd.columns new) ->
            Pd.setitem (df ++ new) k c = df ++ (new ++ [(k, c)])).
  { intros new k c H1 H2. rewrite setitem_fresh.
    - now rewrite <- app_assoc.
    - rewrite columns_app, in_app_iff. tauto. }
  rewrite <- (app_nil_r df) at 1.
  repeat (rewrite step;
          [ simpl
          | apply Hfresh; simpl; tauto
          | simpl; intuition discriminate ]).
  reflexivity.
Qed.

(** ** get_scores on integer counts, cell by cell *)

Lemma get_scores_cells df tps tns fps fns :
  Pd.getitem df "tp" = Ok (SInt tps) -> Pd.getitem df "tn" = Ok (SInt tns) ->
  Pd.getitem df "fp" = Ok (SInt fps) -> Pd.getitem df "fn" = Ok (SInt fns) ->
  exists df', get_scores df = Ok df' /\
    forall i tp tn fp fn,
      tps !! i = Some tp -> tns !! i = Some tn ->
      fps !! i = Some fp -> fns !! i = Some fn ->
      row_of df' i = Some (scores_of_counts tp tn fp fn).
Proof.
  intros Htp Htn Hfp Hfn. unfold get_scores.
  rewrite Htp, Htn, Hfp, Hfn. simpl.
  eexists. split; [reflexivity|].
  intros i tp tn fp fn H1 H2 H3 H4.
  unfold row_of, cell.
  repeat (rewrite getitem_setitem_eq || (rewrite getitem_setitem_ne by discriminate)).
  repeat (rewrite ?lookup_map, ?lookup_zip_with, ?H1, ?H2, ?H3, ?H4; simpl).
  reflexivity.
Qed.

(** ** int64 arithmetic *)

Lemma wrap_small z : Np.min_int64 <= z <= Np.max_int64 -> Np.wrap z = z.
Proof.
  unfold Np.wrap, Np.min_int64, Np.max_int64. intros H.
  rewrite Z.mod_small; lia.
Qed.

Lemma iadd_small a b :
  Np.min_int64 <= a + b <= Np.max_int64 -> Np.iadd a b = a + b.
Proof. apply wrap_small. Qed.

Lemma imul_0_l a : Np.imul 0 a = 0.
Proof. reflexivity. Qed.

Lemma imul_0_r a : Np.imul a 0 = 0.
Proof. unfold Np.imul. now rewrite Z.mul_0_r. Qed.

(** ** binary64 rounding keeps positive values positive *)

Lemma digits2_pos_lower (m : positive) :
  2 ^ (Z.pos (digits2_pos m) - 1) <= Z.pos m.
Proof.
  induction m as [m IH|m IH|]; simpl digits2_pos.
  - rewrite Pos2Z.inj_succ.
    replace (Z.succ (Z.pos (digits2_pos m)) - 1)
      with (Z.succ (Z.pos (digits2_pos m) - 1)) by lia.
    rewrite Z.pow_succ_r by lia. lia.
  - rewrite Pos2Z.inj_succ.
    replace (Z.succ (Z.pos (digits2_pos m)) - 1)
      with (Z.succ (Z.pos (digits2_pos m) - 1)) by lia.
    rewrite Z.pow_succ_r by lia. lia.
  - simpl. lia.
Qed.

Lemma shr_1_m (mrs : shr_record) :
  0 <= shr_m mrs -> shr_m (shr_1 mrs) = shr_m mrs / 2.
Proof.
  destruct mrs as [m r s]. simpl. intros Hm.
  destruct m as [|p|p]; [reflexivity| |lia].
  destruct p as [p|p|]; simpl.
  - rewrite Pos2Z.inj_xI. apply Z.div_unique with 1; lia.
  - rewrite Pos2Z.inj_xO. apply Z.div_unique with 0; lia.
  - reflexivity.
Qed.

Lemma iter_pos_shr_1_m (p : positive) (mrs : shr_record) :
  0 <= shr_m mrs ->
  shr_m (SpecFloat.iter_pos shr_1 p mrs) = shr_m mrs / 2 ^ Z.pos p.
Proof.
  revert mrs. induction p as [p IH|p IH|]; intros mrs Hm; simpl SpecFloat.iter_pos.
  - assert (H1 : 0 <= shr_m (shr_1 mrs)).
    { rewrite shr_1_m by assumption. apply Z.div_pos; lia. }
    assert (H2 : 0 <= shr_m (SpecFloat.iter_pos shr_1 p (shr_1 mrs))).
    { rewrite IH by assumption.
      apply Z.div_pos; [assumption|]. apply Z.pow_pos_nonneg; lia. }
    rewrite IH, IH, shr_1_m by assumption.
    rewrite !Z.div_div by (try apply Z.pow_pos_nonneg; lia).
    f_equal.
    replace (Z.pos p~1) with (1 + Z.pos p + Z.pos p) by lia.
    rewrite !Z.pow_add_r by lia. lia.
  - assert (H2 : 0 <= shr_m (SpecFloat.iter_pos shr_1 p mrs)).
    { rewrite IH by assumption.
      apply Z.div_pos; [assumption|]. apply Z.pow_pos_nonneg; lia. }
    rewrite IH, IH by assumption.
    rewrite !Z.div_div by (try apply Z.pow_pos_nonneg; lia).
    f_equal.
    replace (Z.pos p~0) with (Z.pos p + Z.pos p) by lia.
    rewrite !Z.pow_add_r by lia. lia.
  - rewrite shr_1_m by assumption. reflexivity.
Qed.

Lemma shr_record_of_loc_m m l : shr_m (shr_record_of_loc m l) = m.
Proof. destruct l as [|[]]; reflexivity. Qed.

Lemma shr_fexp_exponent (m e : Z) (l : location) :
  emin Np.prec Np.emax <= snd (shr_fexp Np.prec Np.emax m e l).
Proof.
  unfold shr_fexp, shr, fexp.
  destruct (Z.max (Zdigits2 m + e - Np.prec) (emin Np.prec Np.emax) - e)
    as [|p|p] eqn:En; simpl; lia.
Qed.

Lemma shr_fexp_pos (m : positive) (e : Z) (l : location) :
  emin Np.prec Np.emax <= e ->
  1 <= shr_m (fst (shr_fexp Np.prec Np.emax (Z.pos m) e l)).
Proof.
  intros He. unfold shr_fexp, shr. simpl Zdigits2.
  pose proof (digits2_pos_lower m) as Hd.
  set (d := Z.pos (digits2_pos m)) in *.
  unfold fexp.
  destruct (Z.max (d + e - Np.prec) (emin Np.prec Np.emax) - e) as [|p|p] eqn:En;
    simpl.
  - rewrite shr_record_of_loc_m. lia.
  - rewrite iter_pos_shr_1_m by (rewrite shr_record_of_loc_m; lia).
    rewrite shr_record_of_loc_m.
    assert (Hp : Z.pos p <= d - 1) by (unfold Np.prec in *; lia).
    apply Z.div_le_lower_bound; [apply Z.pow_pos_nonneg; lia|].
    rewrite Z.mul_1_r.
    apply Z.le_trans with (2 ^ (d - 1)); [|assumption].
    apply Z.pow_le_mono_r; lia.
  - rewrite shr_record_of_loc_m. lia.
Qed.

Lemma round_nearest_even_ge m l : m <= round_nearest_even m l.
Proof. destruct l as [|[]]; simpl; try lia. destruct (Z.even m); lia. Qed.

(** Whatever is rounded, the sign is the one asked for and a finite
    outcome has its exponent in range. *)
Lemma binary_round_aux_cases (s : bool) (m e : Z) (l : location) :
  let r := binary_round_aux Np.prec Np.emax s m e l in
  r = S754_zero s \/ r = S754_infinity s \/ r = S754_nan \/
  exists m' e', r = S754_finite s m' e' /\ emin Np.prec Np.emax <= e'.
Proof.
  unfold binary_round_aux.
  destruct (shr_fexp Np.prec Np.emax m e l) as [mrs' e'].
  pose proof (shr_fexp_exponent
    (round_nearest_even (shr_m mrs') (loc_of_shr_record mrs')) e' loc_Exact) as H.
  destruct (shr_fexp Np.prec Np.emax
    (round_nearest_even (shr_m mrs') (loc_of_shr_record mrs')) e' loc_Exact)
    as [mrs'' e'']. simpl in H.
  destruct (shr_m mrs'') as [|m3|m3]; auto.
  destruct (e'' <=? Np.emax - Np.prec); eauto 10.
Qed.

(** A positive mantissa at an exponent in range never rounds to zero. *)
Lemma binary_round_aux_pos (s : bool) (m : positive) (e : Z) (l : location) :
  emin Np.prec Np.emax <= e ->
  let r := binary_round_aux Np.prec Np.emax s (Z.pos m) e l in
  r = S754_infinity s \/
  exists m' e', r = S754_finite s m' e' /\ emin Np.prec Np.emax <= e'.
Proof.
  intros He. unfold binary_round_aux.
  pose proof (shr_fexp_pos m e l He) as H1.
  pose proof (shr_fexp_exponent (Z.pos m) e l) as H2.
  destruct (shr_fexp Np.prec Np.emax (Z.pos m) e l) as [mrs' e'] eqn:E1.
  simpl in H1, H2.
  pose proof (round_nearest_even_ge (shr_m mrs') (loc_of_shr_record mrs')) as Hr.
  destruct (round_nearest_even (shr_m mrs') (loc_of_shr_record mrs'))
    as [|m2|m2] eqn:E2; try lia.
  pose proof (shr_fexp_pos m2 e' loc_Exact H2) as H3.
  pose proof (shr_fexp_exponent (Z.pos m2) e' loc_Exact) as H4.
  destruct (shr_fexp Np.prec Np.emax (Z.pos m2) e' loc_Exact) as [mrs'' e''] eqn:E3.
  simpl in H3, H4.
  destruct (shr_m mrs'') as [|m3|m3]; try lia.
  destruct (e'' <=? Np.emax - Np.prec); eauto.
Qed.

Lemma binary_round_pos (s : bool) (m : positive) (e : Z) :
  emin Np.prec Np.emax <= e ->
  let r := binary_round Np.prec Np.emax s m e in
  r = S754_infinity s \/
  exists m' e', r = S754_finite s m' e' /\ emin Np.prec Np.emax <= e'.
Proof.
  intros He. unfold binary_round, shl_align.
  set (e1 := fexp Np.prec Np.emax (Z.pos (digits2_pos m) + e)).
  assert (He1 : emin Np.prec Np.emax <= e1) by (unfold e1, fexp; lia).
  destruct (e1 - e) as [|d|d]; apply binary_round_aux_pos; assumption.
Qed.

Lemma of_int_class z : 0 <= z -> nonneg_class (Np.of_int z).
Proof.
  intros Hz. unfold Np.of_int, binary_normalize.
  destruct z as [|p|p]; [left; reflexivity | | lia].
  right. apply binary_round_pos. vm_compute. discriminate.
Qed.

Lemma fill0_fdiv_class x y :
  nonneg_class x -> nonneg_class y -> nonneg_class (fill0 (Np.fdiv x y)).
Proof.
  intros [->|[->|(mx & ex & -> & Hx)]] [->|[->|(my & ey & -> & Hy)]];
    try (left; reflexivity); try (right; left; reflexivity).
  unfold Np.fdiv, SFdiv.
  destruct (SFdiv_core_binary Np.prec Np.emax (Z.pos mx) ex (Z.pos my) ey)
    as [[mz ez] lz].
  destruct (binary_round_aux_cases (xorb false false) mz ez lz)
    as [H|[H|[H|(m' & e' & H & He)]]]; rewrite H; simpl.
  - left; reflexivity.
  - right; left; reflexivity.
  - left; reflexivity.
  - right; right; eauto.
Qed.

Lemma rate_cell_class a b :
  0 <= a -> 0 <= b -> a + b <= Np.max_int64 -> nonneg_class (rate_cell a b).
Proof.
  intros Ha Hb Hab. unfold rate_cell.
  rewrite iadd_small by (unfold Np.min_int64, Np.max_int64 in *; lia).
  apply fill0_fdiv_class; apply of_int_class; lia.
Qed.

(** The float sum of two non-negative values is zero only when both
    are zero. *)
Lemma fadd_class_zero x y :
  nonneg_class x -> nonneg_class y ->
  Np.eqb (Np.fadd x y) Np.zero = true ->
  x = Np.zero /\ y = Np.zero.
Proof.
  intros [->|[->|(mx & ex & -> & Hx)]] [->|[->|(my & ey & -> & Hy)]];
    try (vm_compute; auto; discriminate).
  unfold Np.fadd, SFadd, cond_Zopp, binary_normalize.
  set (ez := Z.min ex ey).
  rewrite <- Pos2Z.inj_add.
  destruct (binary_round_pos false
              (fst (shl_align mx ex ez) + fst (shl_align my ey ez)) ez)
    as [H|(m' & e' & H & He)]; [lia| |]; rewrite H; vm_compute; discriminate.
Qed.

Lemma f1_cell_zero : f1_cell Np.zero Np.zero = Np.zero.
Proof. reflexivity. Qed.

(** ** Claims on get_scores *)

(** C2. The claim asks for accuracy 0 on a row with
    [tp + tn + fp + fn = 0]. The code fills the missing values of the
    denominator, not of the quotient, so on every such row of
    non-negative counts the accuracy cell is 0/0 = NaN. *)
Theorem get_scores_accuracy_nan_on_empty_row df tps tns fps fns :
  Pd.getitem df "tp" = Ok (SInt tps) -> Pd.getitem df "tn" = Ok (SInt tns) ->
  Pd.getitem df "fp" = Ok (SInt fps) -> Pd.getitem df "fn" = Ok (SInt fns) ->
  exists df', get_scores df = Ok df' /\
    forall i tp tn fp fn,
      tps !! i = Some tp -> tns !! i = Some tn ->
      fps !! i = Some fp -> fns !! i = Some fn ->
      0 <= tp -> 0 <= tn -> 0 <= fp -> 0 <= fn ->
      tp + tn + fp + fn = 0 ->
      exists r, row_of df' i = Some r /\ rs_accuracy r = Np.nan.
Proof.
  intros Htp Htn Hfp Hfn.
  destruct (get_scores_cells df tps tns fps fns Htp Htn Hfp Hfn) as (df' & Hs & Hrow).
  exists df'. split; [exact Hs|].
  intros i tp tn fp fn H1 H2 H3 H4 P1 P2 P3 P4 Hsum.
  exists (scores_of_counts tp tn fp fn). split; [now apply Hrow|].
  assert (tp = 0) by lia. assert (tn = 0) by lia.
  assert (fp = 0) by lia. assert (fn = 0) by lia. subst.
  reflexivity.
Qed.

Lemma get_scores_accuracy_nan_on_empty_row_witness :
  (rs_accuracy <$> scores_at (counts_frame [0] [0] [0] [0]) 0)
  = Some S754_nan.
Proof.
  destruct (get_scores_accuracy_nan_on_empty_row
              (counts_frame [0] [0] [0] [0]) [0] [0] [0] [0]
              eq_refl eq_refl eq_refl eq_refl) as (df' & Hs & Hrow).
  destruct (Hrow 0%nat 0 0 0 0 eq_refl eq_refl eq_refl eq_refl) as (r & Hr & Hacc);
    try lia.
  unfold scores_at. rewrite Hs, Hr. simpl. now rewrite Hacc.
Defined.

Ltac mcc_zero :=
  repeat first [ rewrite imul_0_l | rewrite imul_0_r
               | progress change (Np.iadd 0 0) with 0 ];
  reflexivity.

Lemma iadd_zero_nonneg a b :
  0 <= a <= Np.max_int64 -> 0 <= b <= Np.max_int64 ->
  Np.iadd a b = 0 -> a + b = 0.
Proof.
  unfold Np.iadd, Np.wrap, Np.max_int64. intros Ha Hb H.
  destruct (Z_le_gt_dec (a + b) (2 ^ 63 - 1)) as [Hs|Hs].
  - rewrite Z.mod_small in H; lia.
  - replace (a + b + 2 ^ 63) with (a + b - 2 ^ 63 + 1 * 2 ^ 64) in H by lia.
    rewrite Z.mod_add in H by lia.
    rewrite Z.mod_small in H; lia.
Qed.

Lemma imul_small a b :
  Np.min_int64 <= a * b <= Np.max_int64 -> Np.imul a b = a * b.
Proof. apply wrap_small. Qed.

Lemma product_of_four_nonzero a b c d :
  0 <= a -> 0 <= b -> 0 <= c -> 0 <= d -> a * b * c * d <> 0 ->
  0 <= a * b <= a * b * c * d /\ 0 <= a * b * c <= a * b * c * d.
Proof.
  intros Ha Hb Hc Hd H.
  assert (Fa : 1 <= a).
  { destruct (Z.eq_dec a 0) as [->|]; [exfalso; apply H; ring | lia]. }
  assert (Fb : 1 <= b).
  { destruct (Z.eq_dec b 0) as [->|]; [exfalso; apply H; ring | lia]. }
  assert (Fc : 1 <= c).
  { destruct (Z.eq_dec c 0) as [->|]; [exfalso; apply H; ring | lia]. }
  assert (Fd : 1 <= d).
  { destruct (Z.eq_dec d 0) as [->|]; [exfalso; apply H; ring | lia]. }
  assert (Gab : 1 <= a * b) by (apply (Z.mul_le_mono_nonneg 1 a 1 b); lia).
  assert (Gabc : 1 <= a * b * c)
    by (apply (Z.mul_le_mono_nonneg 1 (a * b) 1 c); lia).
  assert (L1 : a * b * 1 <= a * b * c)
    by (apply Z.mul_le_mono_nonneg_l; lia).
  assert (L2 : a * b * c * 1 <= a * b * c * d)
    by (apply Z.mul_le_mono_nonneg_l; lia).
  lia.
Qed.

(** The int64 product under the root of mcc is the exact product of
    the four sums as long as nothing wraps. *)
Lemma mcc_product_exact tp tn fp fn :
  0 <= tp -> 0 <= tn -> 0 <= fp -> 0 <= fn ->
  tp + fp <= Np.max_int64 -> tp + fn <= Np.max_int64 ->
  tn + fp <= Np.max_int64 -> tn + fn <= Np.max_int64 ->
  (tp + fp) * (tp + fn) * (tn + fp) * (tn + fn) <= Np.max_int64 ->
  Np.imul (Np.imul (Np.imul (Np.iadd tp fp) (Np.iadd tp fn)) (Np.iadd tn fp))
          (Np.iadd tn fn) = 0 ->
  (tp + fp) * (tp + fn) * (tn + fp) * (tn + fn) = 0.
Proof.
  intros P1 P2 P3 P4 B1 B2 B3 B4 B H.
  rewrite !iadd_small in H by (unfold Np.min_int64, Np.max_int64 in *; lia).
  destruct (Z.eq_dec ((tp + fp) * (tp + fn) * (tn + fp) * (tn + fn)) 0)
    as [E|E]; [exact E|].
  destruct (product_of_four_nonzero (tp + fp) (tp + fn) (tn + fp) (tn + fn))
    as [L1 L2]; try lia.
  rewrite (imul_small (tp + fp) (tp + fn)) in H
    by (unfold Np.min_int64, Np.max_int64 in *; lia).
  rewrite (imul_small ((tp + fp) * (tp + fn)) (tn + fp)) in H
    by (unfold Np.min_int64, Np.max_int64 in *; lia).
  rewrite (imul_small ((tp + fp) * (tp + fn) * (tn + fp)) (tn + fn)) in H
    by (unfold Np.min_int64, Np.max_int64 in *; lia).
  exact H.
Qed.

(** C3, as amended. On every row of non-negative int64 counts a zero
    denominator that is not produced by int64 wrap-around yields the
    score 0. Read on the exact integers: tpr when [tp + fn = 0], tnr
    when [tn + fp = 0], precision when [tp + fp = 0], mcc when
    [(tp+fp)(tp+fn)(tn+fp)(tn+fn) = 0]. Read on the values the code
    computes: tpr, tnr and precision when the int64 sum is 0 (a sum of
    two non-negative int64 counts cannot wrap to 0); f1_score when the
    float sum [tpr + precision] is zero, provided the sums [tp + fn]
    and [tp + fp] fit into int64; mcc when the int64 product under the
    root is 0, provided the four sums and their product fit into
    int64. *)
Theorem get_scores_zero_denominators df tps tns fps fns :
  Pd.getitem df "tp" = Ok (SInt tps) -> Pd.getitem df "tn" = Ok (SInt tns) ->
  Pd.getitem df "fp" = Ok (SInt fps) -> Pd.getitem df "fn" = Ok (SInt fns) ->
  exists df', get_scores df = Ok df' /\
    forall i tp tn fp fn,
      tps !! i = Some tp -> tns !! i = Some tn ->
      fps !! i = Some fp -> fns !! i = Some fn ->
      0 <= tp -> 0 <= tn -> 0 <= fp -> 0 <= fn ->
      exists r, row_of df' i = Some r /\
        (tp + fn = 0 -> rs_tpr r = Np.zero) /\
        (tn + fp = 0 -> rs_tnr r = Np.zero) /\
        (tp + fp = 0 -> rs_precision r = Np.zero) /\
        (tp + fn <= Np.max_int64 -> tp + fp <= Np.max_int64 ->
         Np.eqb (Np.fadd (rs_tpr r) (rs_precision r)) Np.zero = true ->
         rs_f1_score r = Np.zero) /\
        ((tp + fp) * (tp + fn) * (tn + fp) * (tn + fn) = 0 ->
         rs_mcc r = Np.zero) /\
        (tp <= Np.max_int64 -> fn <= Np.max_int64 ->
         Np.iadd tp fn = 0 -> rs_tpr r = Np.zero) /\
        (tn <= Np.max_int64 -> fp <= Np.max_int64 ->
         Np.iadd tn fp = 0 -> rs_tnr r = Np.zero) /\
        (tp <= Np.max_int64 -> fp <= Np.max_int64 ->
         Np.iadd tp fp = 0 -> rs_precision r = Np.zero) /\
        (tp + fp <= Np.max_int64 -> tp + fn <= Np.max_int64 ->
         tn + fp <= Np.max_int64 -> tn + fn <= Np.max_int64 ->
         (tp + fp) * (tp + fn) * (tn + fp) * (tn + fn) <= Np.max_int64 ->
         Np.imul (Np.imul (Np.imul (Np.iadd tp fp) (Np.iadd tp fn))
                          (Np.iadd tn fp))
                 (Np.iadd tn fn) = 0 ->
         rs_mcc r = Np.zero).
Proof.
  intros Htp Htn Hfp Hfn.
  destruct (get_scores_cells df tps tns fps fns Htp Htn Hfp Hfn) as (df' & Hs & Hrow).
  exists df'. split; [exact Hs|].
  intros i tp tn fp fn H1 H2 H3 H4 P1 P2 P3 P4.
  exists (scores_of_counts tp tn fp fn). split; [now apply Hrow|].
  assert (Etpr : tp + fn = 0 -> rate_cell tp fn = Np.zero).
  { intros H. assert (tp = 0) by lia. assert (fn = 0) by lia. subst. reflexivity. }
  assert (Etnr : tn + fp = 0 -> rate_cell tn fp = Np.zero).
  { intros H. assert (tn = 0) by lia. assert (fp = 0) by lia. subst. reflexivity. }
  assert (Eprec : tp + fp = 0 -> rate_cell tp fp = Np.zero).
  { intros H. assert (tp = 0) by lia. assert (fp = 0) by lia. subst. reflexivity. }
  assert (Emcc : (tp + fp) * (tp + fn) * (tn + fp) * (tn + fn) = 0 ->
                 mcc_cell tp tn fp fn = Np.zero).
  { intros H. unfold mcc_cell.
    apply Z.mul_eq_0 in H. destruct H as [H|H];
      [apply Z.mul_eq_0 in H; destruct H as [H|H];
       [apply Z.mul_eq_0 in H; destruct H as [H|H]|]|].
    + assert (tp = 0) by lia. assert (fp = 0) by lia. subst. mcc_zero.
    + assert (tp = 0) by lia. assert (fn = 0) by lia. subst. mcc_zero.
    + assert (tn = 0) by lia. assert (fp = 0) by lia. subst. mcc_zero.
    + assert (tn = 0) by lia. assert (fn = 0) by lia. subst. mcc_zero. }
  cbn [rs_tpr rs_tnr rs_precision rs_f1_score rs_mcc scores_of_counts].
  split; [exact Etpr|]. split; [exact Etnr|]. split; [exact Eprec|].
  split; [|split; [exact Emcc|]].
  - intros B1 B2 Hsum.
    destruct (fadd_class_zero (rate_cell tp fn) (rate_cell tp fp)) as [E1 E2];
      [apply rate_cell_class; lia | apply rate_cell_class; lia | exact Hsum |].
    rewrite E1, E2. apply f1_cell_zero.
  - split; [|split; [|split]].
    + intros B1 B2 H. apply Etpr. apply iadd_zero_nonneg; [lia | lia | exact H].
    + intros B1 B2 H. apply Etnr. apply iadd_zero_nonneg; [lia | lia | exact H].
    + intros B1 B2 H. apply Eprec. apply iadd_zero_nonneg; [lia | lia | exact H].
    + intros B1 B2 B3 B4 B H. apply Emcc.
      now apply mcc_product_exact.
Qed.

Lemma get_scores_zero_denominators_witness :
  exists r, scores_at (counts_frame [0] [5] [5] [0]) 0 = Some r /\
    rs_tpr r = Np.zero /\ rs_precision r = Np.zero /\
    rs_f1_score r = Np.zero /\ rs_mcc r = Np.zero.
Proof.
  destruct (get_scores_zero_denominators
              (counts_frame [0] [5] [5] [0]) [0] [5] [5] [0]
              eq_refl eq_refl eq_refl eq_refl) as (df' & Hs & Hrow).
  destruct (Hrow 0%nat 0 5 5 0 eq_refl eq_refl eq_refl eq_refl)
    as (r & Hr & Htpr & _ & Hprec & Hf1 & Hmcc & _); try lia.
  exists r. unfold scores_at. rewrite Hs.
  assert (E1 : rs_tpr r = Np.zero) by (apply Htpr; lia).
  assert (E2 : rs_precision r = Np.zero).
  { injection Hs as <-. vm_compute in Hr. injection Hr as <-. reflexivity. }
  repeat split; try assumption.
  - apply Hf1; [vm_compute; discriminate | vm_compute; discriminate |].
    rewrite E1, E2. reflexivity.
  - apply Hmcc. reflexivity.
Defined.

(** C3 as stated fails where int64 addition wraps: with
    [tp = 2^62], [fn = 2^62 + 1], [fp = 2^62 - 1] the sum [tp + fn]
    wraps to a negative number, tpr is -0.5, precision is 0.5, their
    sum is 0 and f1_score is minus infinity. *)
Lemma get_scores_f1_wraps :
  0 <= 2 ^ 62 <= Np.max_int64 /\ 0 <= 2 ^ 62 - 1 <= Np.max_int64 /\
  0 <= 2 ^ 62 + 1 <= Np.max_int64 /\
  ((fun r => Np.eqb (Np.fadd (rs_tpr r) (rs_precision r)) Np.zero)
     <$> scores_at (counts_frame [2 ^ 62] [0] [2 ^ 62 - 1] [2 ^ 62 + 1]) 0)
  = Some true /\
  (rs_f1_score
     <$> scores_at (counts_frame [2 ^ 62] [0] [2 ^ 62 - 1] [2 ^ 62 + 1]) 0)
  = Some (S754_infinity true).
Proof.
  repeat split; try (vm_compute; congruence).
Qed.

(** The exact product of the four sums matters: with 65536 true
    positives and 65536 true negatives the int64 product wraps to 0 and
    the mcc cell is plus infinity. *)
Remark get_scores_mcc_wraps :
  (rs_mcc <$> scores_at (counts_frame [65536] [65536] [0] [0]) 0)
  = Some (S754_infinity false).
Proof. vm_compute. reflexivity. Qed.

Lemma columns_setitem {C} (df : Frame C) k c :
  Pd.columns (Pd.setitem df k c)
  = if Pd.has_column df k then Pd.columns df else Pd.columns df ++ [k].
Proof.
  unfold Pd.has_column, Pd.columns.
  induction df as [|[k0 c0] df IH]; simpl; [reflexivity|].
  rewrite (String.eqb_sym k k0).
  destruct (String.eqb k0 k) eqn:E; simpl; [reflexivity|].
  rewrite IH. now destruct (existsb (String.eqb k) (map fst df)).
Qed.

Lemma has_column_setitem {C} (df : Frame C) k c k' :
  k <> k' -> Pd.has_column (Pd.setitem df k c) k' = Pd.has_column df k'.
Proof.
  intros Hne. unfold Pd.has_column. rewrite columns_setitem.
  fold (Pd.has_column df k). destruct (Pd.has_column df k); [reflexivity|].
  rewrite existsb_app. simpl.
  destruct (String.eqb_spec k' k) as [->|_]; [contradiction|].
  now rewrite !orb_false_r.
Qed.

(** Writing columns of different names one after the other: those the
    table has keep their place, the others are added in order. *)
Lemma columns_fold_setitem {C} (kcs : list (string * C)) (df : Frame C) :
  NoDup (map fst kcs) ->
  Pd.columns (fold_left (fun d kc => Pd.setitem d (fst kc) (snd kc)) kcs df)
  = Pd.columns df
    ++ List.filter (fun k => negb (Pd.has_column df k)) (map fst kcs).
Proof.
  revert df. induction kcs as [|[k c] kcs IH]; intros df Hnd; simpl.
  - now rewrite app_nil_r.
  - apply NoDup_cons in Hnd. destruct Hnd as [Hk Hnd].
    rewrite IH by assumption. rewrite columns_setitem.
    rewrite (List.filter_ext_in
               (fun k0 => negb (Pd.has_column (Pd.setitem df k c) k0))
               (fun k0 => negb (Pd.has_column df k0))).
    + destruct (Pd.has_column df k); simpl; [reflexivity|].
      now rewrite <- app_assoc.
    + intros k0 Hin. f_equal. apply has_column_setitem.
      intros ->. apply Hk. now apply list_elem_of_In.
Qed.

(** C7, as amended. [get_scores] succeeds on numeric count columns;
    every column not named after a score keeps its values, [tp], [tn],
    [fp] and [fn] among them; the columns of the result are those of
    the input, in place, followed by the score columns the input did
    not have, in the order tpr, tnr, precision, accuracy, youden,
    f1_score, mcc: a score column the input has is written over where
    it stands; and on a table without score columns the result is the
    input table followed by the seven columns. *)
Theorem get_scores_frame df tp tn fp fn :
  Pd.getitem df "tp" = Ok tp -> Pd.getitem df "tn" = Ok tn ->
  Pd.getitem df "fp" = Ok fp -> Pd.getitem df "fn" = Ok fn ->
  numeric tp = true -> numeric tn = true ->
  numeric fp = true -> numeric fn = true ->
  exists df', get_scores df = Ok df' /\
    (forall k, ~ In k score_columns -> Pd.getitem df' k = Pd.getitem df k) /\
    Pd.getitem df' "tp" = Ok tp /\ Pd.getitem df' "tn" = Ok tn /\
    Pd.getitem df' "fp" = Ok fp /\ Pd.getitem df' "fn" = Ok fn /\
    ((forall k, In k score_columns -> ~ In k (Pd.columns df)) ->
     exists new, df' = df ++ new /\ Pd.columns new = score_columns) /\
    Pd.columns df'
    = Pd.columns df
      ++ List.filter (fun k => negb (Pd.has_column df k)) score_columns.
Proof.
  intros Htp Htn Hfp Hfn Ntp Ntn Nfp Nfn.
  destruct (get_scores_numeric df tp tn fp fn) as (df' & Hs); try assumption.
  exists df'. split; [exact Hs|].
  destruct (get_scores_shape df df' Hs) as (c1 & c2 & c3 & c4 & c5 & c6 & c7 & ->).
  assert (Hother : forall k, ~ In k score_columns ->
            Pd.getitem (with_scores df [c1; c2; c3; c4; c5; c6; c7]) k
            = Pd.getitem df k) by (intros; now apply with_scores_other).
  split; [exact Hother|].
  split; [rewrite Hother; [assumption | simpl; intuition discriminate]|].
  split; [rewrite Hother; [assumption | simpl; intuition discriminate]|].
  split; [rewrite Hother; [assumption | simpl; intuition discriminate]|].
  split; [rewrite Hother; [assumption | simpl; intuition discriminate]|].
  split.
  - intros Hfresh. rewrite with_scores_fresh by assumption.
    eexists. split; reflexivity.
  - unfold with_scores. rewrite columns_fold_setitem; [reflexivity|].
    apply (bool_decide_unpack _). vm_compute. exact I.
Qed.

Lemma get_scores_frame_witness :
  exists df' new,
    get_scores (("w_true", SObj ["[0.3]"]) :: counts_frame [8] [7] [3] [2])%string
    = Ok df' /\
    df' = (("w_true", SObj ["[0.3]"]) :: counts_frame [8] [7] [3] [2])%string ++ new /\
    Pd.columns new = score_columns /\
    Pd.getitem df' "w_true" = Ok (SObj ["[0.3]"%string]).
Proof.
  destruct (get_scores_frame
              (("w_true", SObj ["[0.3]"]) :: counts_frame [8] [7] [3] [2])%string
              (SInt [8]) (SInt [7]) (SInt [3]) (SInt [2])
              eq_refl eq_refl eq_refl eq_refl eq_refl eq_refl eq_refl eq_refl)
    as (df' & Hs & Hother & _ & _ & _ & _ & Happ & _).
  destruct Happ as (new & Hnew & Hcols).
  { intros k Hk Hc. simpl in Hk, Hc. intuition congruence. }
  exists df', new. repeat split; try assumption.
  rewrite Hother; [reflexivity | simpl; intuition discriminate].
Defined.

(** C7 as stated fails on a table that already has a score column: a
    stale [tpr] of 0 in front of the counts is replaced by the new
    score where it stands, and six columns are added, not seven. *)
Lemma get_scores_overwrites_score_column :
  exists df',
    get_scores (("tpr", SFloat [Np.zero]) :: counts_frame [8] [7] [3] [2])%string
    = Ok df' /\
    cell (("tpr", SFloat [Np.zero]) :: counts_frame [8] [7] [3] [2])%string
         "tpr" 0 = Some Np.zero /\
    cell df' "tpr" 0 = Some (rate_cell 8 2) /\
    rate_cell 8 2 <> Np.zero /\
    Pd.columns df'
    = ["tpr"; "tp"; "tn"; "fp"; "fn";
       "tnr"; "precision"; "accuracy"; "youden"; "f1_score"; "mcc"]%string.
Proof.
  eexists. split; [vm_compute; reflexivity|].
  repeat split; try (vm_compute; congruence).
Qed.

(** C8. On a row with tp=8, fn=2, tn=7, fp=3 the scores are the
    binary64 values of 0.8 (tpr), 0.7 (tnr) and 8/11 (precision), and
    exactly 3/4 (accuracy) and 1/2 (youden). *)
Theorem get_scores_example df tps tns fps fns i :
  Pd.getitem df "tp" = Ok (SInt tps) -> Pd.getitem df "tn" = Ok (SInt tns) ->
  Pd.getitem df "fp" = Ok (SInt fps) -> Pd.getitem df "fn" = Ok (SInt fns) ->
  tps !! i = Some 8 -> fns !! i = Some 2 ->
  tns !! i = Some 7 -> fps !! i = Some 3 ->
  exists df' r, get_scores df = Ok df' /\ row_of df' i = Some r /\
    rs_tpr r = S754_finite false 7205759403792794 (-53) /\
    rounds_to 8 10 (rs_tpr r) = true /\
    rs_tnr r = S754_finite false 6305039478318694 (-53) /\
    rounds_to 7 10 (rs_tnr r) = true /\
    rs_precision r = S754_finite false 6550690367084358 (-53) /\
    rounds_to 8 11 (rs_precision r) = true /\
    exactly 15 20 (rs_accuracy r) = true /\
    exactly 75 100 (rs_accuracy r) = true /\
    exactly 5 10 (rs_youden r) = true.
Proof.
  intros Htp Htn Hfp Hfn H1 H4 H2 H3.
  destruct (get_scores_cells df tps tns fps fns Htp Htn Hfp Hfn) as (df' & Hs & Hrow).
  exists df', (scores_of_counts 8 7 3 2).
  split; [exact Hs|]. split; [now apply Hrow|].
  repeat split; vm_compute; reflexivity.
Qed.

Lemma get_scores_example_witness :
  exists r, scores_at (counts_frame [8] [7] [3] [2]) 0 = Some r /\
    rounds_to 8 10 (rs_tpr r) = true /\ rounds_to 7 10 (rs_tnr r) = true /\
    rounds_to 8 11 (rs_precision r) = true /\
    exactly 75 100 (rs_accuracy r) = true /\ exactly 5 10 (rs_youden r) = true.
Proof.
  destruct (get_scores_example (counts_frame [8] [7] [3] [2]) [8] [7] [3] [2] 0%nat
              eq_refl eq_refl eq_refl eq_refl eq_refl eq_refl eq_refl eq_refl)
    as (df' & r & Hs & Hr & _ & T1 & _ & T2 & _ & T3 & _ & T4 & T5).
  exists r. unfold scores_at. rewrite Hs. repeat split; assumption.
Defined.

(** ** The finalizer *)

Lemma where_lookup c a b i v :
  Np.where_ c a b !! i = Some v ->
  exists (ci : bool) x y,
    c !! i = Some ci /\ a !! i = Some x /\ b !! i = Some y /\
    v = if ci then x else y.
Proof.
  unfold Np.where_. intros H.
  apply lookup_zip_with_Some in H. destruct H as (ci & [x y] & -> & Hc & Hz).
  apply lookup_zip_with_Some in Hz. destruct Hz as (x' & y' & E & Hx & Hy).
  injection E as -> ->. exists ci, x', y'. auto.
Qed.

Lemma where_scalar_lookup c a s i v :
  Np.where_scalar c a s !! i = Some v ->
  exists (ci : bool) x, c !! i = Some ci /\ a !! i = Some x /\
    v = if ci then x else s.
Proof.
  unfold Np.where_scalar. intros H.
  apply lookup_zip_with_Some in H. destruct H as (ci & x & -> & Hc & Hx).
  exists ci, x. auto.
Qed.

Lemma final_parameter_elements thr (df : Frame (list float64)) col :
  final_parameter thr df = Ok col ->
  exists mean mean_nonzero inclusion_prob,
    Pd.getitem df "mean" = Ok mean /\
    Pd.getitem df "mean_nonzero" = Ok mean_nonzero /\
    Pd.getitem df "inclusion_prob" = Ok inclusion_prob /\
    (forall i v, col !! i = Some v ->
       exists m z p,
         mean !! i = Some m /\ mean_nonzero !! i = Some z /\
         inclusion_prob !! i = Some p /\ v = final_cell thr m z p) /\
    (forall i m z p,
       mean !! i = Some m -> mean_nonzero !! i = Some z ->
       inclusion_prob !! i = Some p ->
       col !! i = Some (final_cell thr m z p)).
Proof.
  unfold final_parameter. intros H.
  apply bind_Ok in H. destruct H as (mn & Hmn & H).
  apply bind_Ok in H. destruct H as (mean & Hmean & H).
  apply bind_Ok in H. destruct H as (ip & Hip & H).
  rewrite Hmn in H. simpl in H. injection H as <-.
  exists mean, mn, ip. repeat split; try assumption.
  - intros i v Hv.
    apply where_lookup in Hv. destruct Hv as (c & m & w & Hc & Hm & Hw & ->).
    apply where_scalar_lookup in Hw. destruct Hw as (c' & z & Hc' & Hz & ->).
    rewrite lookup_map in Hc, Hc'.
    rewrite Hz in Hc. simpl in Hc. injection Hc as <-.
    destruct (ip !! i) as [p|] eqn:Hp; [|discriminate].
    simpl in Hc'. injection Hc' as <-.
    exists m, z, p. repeat split; try assumption.
  - intros i m z p Hm Hz Hp. unfold Np.where_, Np.where_scalar.
    rewrite !lookup_zip_with, !lookup_map, Hm, Hz, Hp. reflexivity.
Qed.

Lemma finalize_finalized thr r_i r_i' :
  finalize thr r_i = Ok r_i' -> finalized thr r_i' /\ y r_i' = y r_i.
Proof.
  unfold finalize. intros H.
  apply bind_Ok in H. destruct H as (col & Hcol & H). injection H as <-.
  split; [|reflexivity].
  destruct (final_parameter_elements thr (params r_i) col Hcol)
    as (mean & mn & ip & Hmean & Hmn & Hip & Hel & Hrows).
  exists mean, mn, ip, col. simpl.
  rewrite !getitem_setitem_ne by discriminate.
  rewrite getitem_setitem_eq. auto 10.
Qed.

Lemma finalize_finalized_from thr r_i r_i' :
  finalize thr r_i = Ok r_i' -> finalized_from thr r_i r_i'.
Proof.
  unfold finalize. intros H.
  apply bind_Ok in H. destruct H as (col & Hcol & H). injection H as <-.
  split; [reflexivity|]. split.
  - intros k Hk. simpl. apply getitem_setitem_ne. congruence.
  - destruct (final_parameter_elements thr (params r_i) col Hcol)
      as (mean & mn & ip & Hmean & Hmn & Hip & Hel & Hrows).
    exists mean, mn, ip, col. simpl.
    rewrite getitem_setitem_eq. auto 10.
Qed.

Lemma finalize_missing_column thr r_i :
  Pd.has_column (params r_i) "mean_nonzero" = false ->
  finalize thr r_i = Raise (KeyError "mean_nonzero").
Proof.
  intros H. unfold finalize, final_parameter.
  rewrite getitem_missing; [reflexivity|].
  intros Hin. apply has_column_In in Hin. congruence.
Qed.

Lemma finalize_has_column thr r_i r_i' :
  finalize thr r_i = Ok r_i' ->
  Pd.has_column (params r_i) "mean_nonzero" = true.
Proof.
  intros H. destruct (Pd.has_column (params r_i) "mean_nonzero") eqn:E; [reflexivity|].
  rewrite finalize_missing_column in H by assumption. discriminate.
Qed.

Lemma finalize_items_get thr items items' k :
  finalize_items thr items = Ok items' ->
  match dict_get items k with
  | Some r_i => exists r_i', dict_get items' k = Some r_i' /\ finalize thr r_i = Ok r_i'
  | None => dict_get items' k = None
  end.
Proof.
  revert items'. induction items as [|[k0 r0] items IH]; intros items' H; simpl in H.
  - injection H as <-. reflexivity.
  - apply bind_Ok in H. destruct H as (r0' & H0 & H).
    apply bind_Ok in H. destruct H as (rest' & Hrest & H). injection H as <-.
    simpl. destruct (bool_decide (k0 = k)); [eauto|]. now apply IH.
Qed.

Lemma getitem_has_column {C} (df : Frame C) k :
  Pd.has_column df k = true -> exists c, Pd.getitem df k = Ok c.
Proof.
  intros H. apply has_column_In in H.
  induction df as [|[k0 c0] df IH]; simpl in *; [contradiction|].
  destruct (String.eqb k0 k) eqn:E; [eauto|].
  apply IH. destruct H as [H|H]; [|assumption].
  subst. rewrite String.eqb_refl in E. discriminate.
Qed.

Lemma finalize_items_finalized_from thr items items' :
  finalize_items thr items = Ok items' ->
  sub_results_finalized_from thr items items'.
Proof.
  unfold sub_results_finalized_from. revert items'.
  induction items as [|[k r_i] items IH]; intros items' H; simpl in H.
  - injection H as <-. constructor.
  - apply bind_Ok in H. destruct H as (r_i' & Hr & H).
    apply bind_Ok in H. destruct H as (rest & Hrest & H). injection H as <-.
    constructor; [|now apply IH].
    split; [reflexivity | now apply finalize_finalized_from].
Qed.

Lemma finalize_total thr r_i :
  has_summaries r_i -> exists r_i', finalize thr r_i = Ok r_i'.
Proof.
  intros (H1 & H2 & H3). unfold finalize, final_parameter.
  destruct (getitem_has_column _ _ H1) as (mean & ->).
  destruct (getitem_has_column _ _ H2) as (mn & ->).
  destruct (getitem_has_column _ _ H3) as (ip & ->).
  simpl. eauto.
Qed.

Lemma finalize_items_total thr items :
  Forall (fun kv => has_summaries (snd kv)) items ->
  exists items', finalize_items thr items = Ok items'.
Proof.
  induction 1 as [|[k r_i] items Hhd _ IH]; simpl; [eauto|].
  destruct (finalize_total thr r_i Hhd) as (r_i' & ->).
  destruct IH as (items' & ->). simpl. eauto.
Qed.

Lemma finalize_run_finalized thr r r' :
  finalize_run thr r = Ok r' ->
  parameters r' = parameters r /\
  _MCMCResult__raw_params r' = _MCMCResult__raw_params r /\
  forall k r_i', dict_get (mcmc_results r') k = Some r_i' -> finalized thr r_i'.
Proof.
  unfold finalize_run. intros H.
  apply bind_Ok in H. destruct H as (items' & Hitems & H). injection H as <-.
  simpl. repeat split.
  intros k r_i' Hget.
  pose proof (finalize_items_get thr (mcmc_results r) items' k Hitems) as G.
  destruct (dict_get (mcmc_results r) k) as [r_i|].
  - destruct G as (r2 & Hget2 & Hfin). rewrite Hget in Hget2. injection Hget2 as <-.
    now apply finalize_finalized in Hfin.
  - congruence.
Qed.

(** The guarded step of the multi-model variant. *)

Lemma finalize_items_if_sparse_get thr items items' k :
  finalize_items_if_sparse thr items = Ok items' ->
  match dict_get items k with
  | Some r_i => exists r_i', dict_get items' k = Some r_i'
                             /\ finalize_if_sparse thr r_i = Ok r_i'
  | None => dict_get items' k = None
  end.
Proof.
  revert items'. induction items as [|[k0 r0] items IH]; intros items' H; simpl in H.
  - injection H as <-. reflexivity.
  - apply bind_Ok in H. destruct H as (r0' & H0 & H).
    apply bind_Ok in H. destruct H as (rest' & Hrest & H). injection H as <-.
    simpl. destruct (bool_decide (k0 = k)); [eauto|]. now apply IH.
Qed.

Lemma finalize_results_get thr res res' k :
  finalize_results thr res = Ok res' ->
  match dict_get_str res k with
  | Some r_i => exists r_i', dict_get_str res' k = Some r_i'
                             /\ finalize_items_if_sparse thr r_i = Ok r_i'
  | None => dict_get_str res' k = None
  end.
Proof.
  revert res'. induction res as [|[k0 r0] res IH]; intros res' H; simpl in H.
  - injection H as <-. reflexivity.
  - apply bind_Ok in H. destruct H as (r0' & H0 & H).
    apply bind_Ok in H. destruct H as (rest' & Hrest & H). injection H as <-.
    simpl. destruct (String.eqb k0 k); [eauto|]. now apply IH.
Qed.

(** ** The loop over the directory listing *)


Lemma collect_In {A B} (f : A -> result B) l ys y0 :
  collect f l = Ok ys -> In y0 ys -> exists x, In x l /\ f x = Ok y0.
Proof.
  revert ys. induction l as [|x l IH]; intros ys H Hin; simpl in H.
  - injection H as <-. contradiction.
  - apply bind_Ok in H. destruct H as (y1 & Hy & H).
    apply bind_Ok in H. destruct H as (ys' & Hys & H). injection H as <-.
    destruct Hin as [<-|Hin].
    + exists x. split; [now left | assumption].
    + destruct (IH ys' Hys Hin) as (x' & Hx' & Hf). exists x'. split; [now right|assumption].
Qed.

Lemma collect_Forall2 {A B} (f : A -> result B) l ys :
  collect f l = Ok ys <-> Forall2 (fun x y0 => f x = Ok y0) l ys.
Proof.
  revert ys. induction l as [|x l IH]; intros ys; simpl.
  - split.
    + intros H. injection H as <-. constructor.
    + intros H. now inversion H.
  - split.
    + intros H. apply bind_Ok in H. destruct H as (y0 & Hy & H).
      apply bind_Ok in H. destruct H as (ys' & Hys & H). injection H as <-.
      constructor; [assumption | now apply IH].
    + intros H. inversion H as [|? y0 ? ys' Hy Hys]; subst.
      rewrite Hy. simpl. apply IH in Hys. now rewrite Hys.
Qed.


Lemma collect_nil_filter {A B} (f : A -> result B) (p : A -> bool) l :
  (forall x, In x l -> p x = false) -> collect f (List.filter p l) = Ok [].
Proof.
  intros H. induction l as [|x l IH]; simpl; [reflexivity|].
  rewrite (H x) by now left. apply IH. intros; apply H; now right.
Qed.

Section StudyFacts.

Variable float_repr : float64 -> string.
Variable listdir : string -> result (list string).

Section SingleModelFacts.

Variable renamed_load : string -> result Simulation.

Lemma prepare_loop_collect discovery path fid thr keep files acc :
  prepare_loop renamed_load discovery path fid thr keep files acc
  = rs ← collect (process_file renamed_load discovery path thr keep)
                 (List.filter (contains fid) files);
    Ok (acc ++ rs).
Proof.
  revert acc. induction files as [|f files IH]; intros acc; simpl.
  - now rewrite app_nil_r.
  - destruct (contains fid f); simpl; [|apply IH].
    unfold process_file.
    destruct (renamed_load _) as [r0|e]; simpl; [|reflexivity].
    destruct (finalize_run thr r0) as [r1|e]; simpl; [|reflexivity].
    destruct (discovery r1) as [r2|e]; simpl; [|reflexivity].
    destruct keep; rewrite IH;
      destruct (collect _ _); simpl; try reflexivity;
      now rewrite <- app_assoc.
Qed.


Lemma process_file_finalized discovery path thr keep f r :
  (forall r1 r2, discovery r1 = Ok r2 -> mcmc_results r2 = mcmc_results r1) ->
  process_file renamed_load discovery path thr keep f = Ok r ->
  forall k r_i, dict_get (mcmc_results r) k = Some r_i -> finalized thr r_i.
Proof.
  intros Hd H. unfold process_file in H.
  apply bind_Ok in H. destruct H as (r0 & H0 & H).
  apply bind_Ok in H. destruct H as (r1 & H1 & H).
  apply bind_Ok in H. destruct H as (r2 & H2 & H). injection H as <-.
  apply finalize_run_finalized in H1. destruct H1 as (_ & _ & Hfin).
  intros k r_i Hget. apply (Hfin k).
  rewrite <- (Hd r1 r2 H2). destruct keep; exact Hget.
Qed.

Lemma process_file_finalized_from discovery path thr keep f r :
  (forall r1 r2, discovery r1 = Ok r2 -> mcmc_results r2 = mcmc_results r1) ->
  process_file renamed_load discovery path thr keep f = Ok r ->
  exists r0,
    renamed_load (path +:+ "/" +:+ f) = Ok r0 /\
    sub_results_finalized_from thr (mcmc_results r0) (mcmc_results r).
Proof.
  intros Hd H. unfold process_file in H.
  apply bind_Ok in H. destruct H as (r0 & H0 & H).
  apply bind_Ok in H. destruct H as (r1 & H1 & H).
  apply bind_Ok in H. destruct H as (r2 & H2 & H). injection H as <-.
  exists r0. split; [exact H0|].
  replace (mcmc_results (if keep then r2 else discard_raw r2))
    with (mcmc_results r1)
    by (rewrite <- (Hd r1 r2 H2); now destruct keep).
  unfold finalize_run in H1.
  apply bind_Ok in H1. destruct H1 as (items & Hitems & H1).
  injection H1 as <-. simpl. now apply finalize_items_finalized_from.
Qed.

End SingleModelFacts.

Section MultiModelFacts.

Variable renamed_load : string -> result MultiModel.Simulation.

Lemma mm_prepare_loop_collect discovery path fid thr keep files acc :
  mm_prepare_loop renamed_load discovery path fid thr keep files acc
  = rs ← collect (mm_process_file renamed_load discovery path thr keep)
                 (List.filter (contains fid) files);
    Ok (acc ++ rs).
Proof.
  revert acc. induction files as [|f files IH]; intros acc; simpl.
  - now rewrite app_nil_r.
  - destruct (contains fid f); simpl; [|apply IH].
    unfold mm_process_file.
    destruct (renamed_load _) as [r0|e]; simpl; [|reflexivity].
    destruct (mm_finalize_run thr r0) as [r1|e]; simpl; [|reflexivity].
    destruct (discovery r1) as [r2|e]; simpl; [|reflexivity].
    destruct keep; rewrite IH;
      destruct (collect _ _); simpl; try reflexivity;
      now rewrite <- app_assoc.
Qed.


End MultiModelFacts.

End StudyFacts.

(** ** Order of the group keys *)

Lemma ascii_compare_refl a : Ascii.compare a a = Eq.
Proof. unfold Ascii.compare. apply N.compare_refl. Qed.

Lemma ascii_compare_trans a b c :
  Ascii.compare a b = Lt -> Ascii.compare b c = Lt -> Ascii.compare a c = Lt.
Proof.
  unfold Ascii.compare. rewrite !N.compare_lt_iff. apply N.lt_trans.
Qed.

Lemma string_compare_refl s : String.compare s s = Eq.
Proof.
  induction s as [|a s IH]; simpl; [reflexivity|].
  now rewrite ascii_compare_refl.
Qed.

Lemma string_compare_trans a b c :
  String.compare a b = Lt -> String.compare b c = Lt -> String.compare a c = Lt.
Proof.
  revert b c. induction a as [|x a IH]; intros [|y b] [|z c]; simpl;
    try congruence.
  destruct (Ascii.compare x y) eqn:Exy; try discriminate;
    destruct (Ascii.compare y z) eqn:Eyz; try discriminate; intros H1 H2.
  - apply Ascii.compare_eq_iff in Exy, Eyz. subst.
    rewrite ascii_compare_refl. eauto.
  - apply Ascii.compare_eq_iff in Exy. subst. now rewrite Eyz.
  - apply Ascii.compare_eq_iff in Eyz. subst. now rewrite Exy.
  - now rewrite (ascii_compare_trans x y z).
Qed.

Lemma key_compare_refl k : key_compare k k = Eq.
Proof.
  induction k as [|x k IH]; simpl; [reflexivity|].
  now rewrite string_compare_refl.
Qed.

Lemma key_compare_eq a b : key_compare a b = Eq -> a = b.
Proof.
  revert b. induction a as [|x a IH]; intros [|y b]; simpl; try congruence.
  destruct (String.compare x y) eqn:E; try discriminate.
  intros H. apply String.compare_eq_iff in E. subst. f_equal. auto.
Qed.

Lemma key_compare_antisym a b : key_compare a b = CompOpp (key_compare b a).
Proof.
  revert b. induction a as [|x a IH]; intros [|y b]; simpl; try reflexivity.
  rewrite String.compare_antisym.
  destruct (String.compare y x); simpl; auto.
Qed.

Lemma key_compare_trans a b c :
  key_compare a b = Lt -> key_compare b c = Lt -> key_compare a c = Lt.
Proof.
  revert b c. induction a as [|x a IH]; intros [|y b] [|z c]; simpl;
    try congruence.
  destruct (String.compare x y) eqn:Exy; try discriminate;
    destruct (String.compare y z) eqn:Eyz; try discriminate; intros H1 H2.
  - apply String.compare_eq_iff in Exy, Eyz. subst.
    rewrite string_compare_refl. eauto.
  - apply String.compare_eq_iff in Exy. subst. now rewrite Eyz.
  - apply String.compare_eq_iff in Eyz. subst. now rewrite Exy.
  - now rewrite (string_compare_trans x y z).
Qed.

Lemma key_compare_Gt a b : key_compare a b = Gt -> key_compare b a = Lt.
Proof.
  intros H. rewrite key_compare_antisym, H. reflexivity.
Qed.

Lemma key_lt_neq a b : key_compare a b = Lt -> a <> b.
Proof. intros H ->. rewrite key_compare_refl in H. discriminate. Qed.

(** ** int64 sums of rows *)

Lemma wrap_add_l a b : Np.wrap (Np.wrap a + b) = Np.wrap (a + b).
Proof.
  unfold Np.wrap.
  replace ((a + 2 ^ 63) mod 2 ^ 64 - 2 ^ 63 + b + 2 ^ 63)
    with ((a + 2 ^ 63) mod 2 ^ 64 + b) by lia.
  rewrite Zplus_mod_idemp_l. f_equal. f_equal. lia.
Qed.

Lemma iadd_assoc a b c : Np.iadd (Np.iadd a b) c = Np.iadd a (Np.iadd b c).
Proof.
  unfold Np.iadd. rewrite wrap_add_l.
  rewrite (Z.add_comm a (Np.wrap (b + c))), wrap_add_l.
  f_equal. lia.
Qed.

Lemma add_nums_assoc a b c :
  add_nums (add_nums a b) c = add_nums a (add_nums b c).
Proof.
  unfold add_nums. revert b c.
  induction a as [|x a IH]; intros [|y b] [|z c]; simpl; try reflexivity.
  now rewrite iadd_assoc, IH.
Qed.

Lemma add_opt_assoc a b c : add_opt (add_opt a b) c = add_opt a (add_opt b c).
Proof.
  destruct a, b, c; simpl; try reflexivity. now rewrite add_nums_assoc.
Qed.

Lemma add_opt_None_r a : add_opt a None = a.
Proof. now destruct a. Qed.

(** ** Sorted groups as finite maps *)

Lemma lookup_group_above k v groups :
  Forall (key_lt (k, v)) groups -> lookup_group k groups = None.
Proof.
  induction 1 as [|[k' v'] groups Hlt _ IH]; simpl; [reflexivity|].
  unfold key_lt in Hlt. simpl in Hlt.
  rewrite bool_decide_eq_false_2; [assumption|].
  intros ->. now apply key_lt_neq in Hlt.
Qed.

Lemma key_lt_weaken k v k' v' groups :
  key_compare k k' = Lt -> Forall (key_lt (k', v')) groups ->
  Forall (key_lt (k, v)) groups.
Proof.
  intros Hlt. apply List.Forall_impl. intros [k2 v2]. unfold key_lt. simpl.
  now apply key_compare_trans.
Qed.

Lemma key_lt_value k v v' groups :
  Forall (key_lt (k, v)) groups -> Forall (key_lt (k, v')) groups.
Proof. apply List.Forall_impl. intros [k2 v2]. unfold key_lt. simpl. auto. Qed.

Lemma lookup_group_In k v groups :
  lookup_group k groups = Some v -> In (k, v) groups.
Proof.
  induction groups as [|[k' v'] groups IH]; simpl; [discriminate|].
  destruct (bool_decide (k' = k)) eqn:E; intros H.
  - apply bool_decide_eq_true in E. injection H as ->. subst. now left.
  - right. auto.
Qed.

Lemma In_lookup_group k v groups :
  sorted_groups groups -> In (k, v) groups -> lookup_group k groups = Some v.
Proof.
  induction groups as [|[k' v'] groups IH]; simpl; [contradiction|].
  intros [Hhd Htl] [E|Hin].
  - injection E as -> ->. now rewrite bool_decide_eq_true_2.
  - rewrite bool_decide_eq_false_2; [auto|].
    intros ->. rewrite List.Forall_forall in Hhd. specialize (Hhd _ Hin).
    unfold key_lt in Hhd. simpl in Hhd. now apply key_lt_neq in Hhd.
Qed.

Lemma sorted_groups_ext g1 g2 :
  sorted_groups g1 -> sorted_groups g2 ->
  (forall k, lookup_group k g1 = lookup_group k g2) -> g1 = g2.
Proof.
  revert g2. induction g1 as [|[k1 v1] g1 IH]; intros [|[k2 v2] g2] S1 S2 Hext.
  - reflexivity.
  - specialize (Hext k2). simpl in Hext.
    rewrite bool_decide_eq_true_2 in Hext by reflexivity. discriminate.
  - specialize (Hext k1). simpl in Hext.
    rewrite bool_decide_eq_true_2 in Hext by reflexivity. discriminate.
  - destruct S1 as [Hd1 S1], S2 as [Hd2 S2].
    destruct (key_compare k1 k2) eqn:C.
    + apply key_compare_eq in C. subst k2.
      pose proof (Hext k1) as H1. simpl in H1.
      rewrite !bool_decide_eq_true_2 in H1 by reflexivity. injection H1 as <-.
      f_equal. apply IH; try assumption.
      intros k. specialize (Hext k). simpl in Hext.
      destruct (bool_decide (k1 = k)) eqn:E; [|assumption].
      apply bool_decide_eq_true in E. subst k.
      now rewrite (lookup_group_above k1 v1 g1), (lookup_group_above k1 v1 g2).
    + specialize (Hext k1). simpl in Hext.
      rewrite bool_decide_eq_true_2 in Hext by reflexivity.
      rewrite bool_decide_eq_false_2 in Hext
        by (intros ->; now apply key_lt_neq in C).
      rewrite (lookup_group_above k1 v1 g2) in Hext; [discriminate|].
      now apply key_lt_weaken with k2 v2.
    + apply key_compare_Gt in C.
      specialize (Hext k2). simpl in Hext.
      rewrite (bool_decide_eq_true_2 (k2 = k2)) in Hext by reflexivity.
      rewrite bool_decide_eq_false_2 in Hext
        by (intros ->; now apply key_lt_neq in C).
      rewrite (lookup_group_above k2 v2 g1) in Hext; [discriminate|].
      now apply key_lt_weaken with k1 v1.
Qed.

(** ** Adding a row to the groups *)

Lemma add_to_groups_keys (Q : list string -> Prop) k v groups :
  Q k -> Forall (fun g => Q (fst g)) groups ->
  Forall (fun g => Q (fst g)) (add_to_groups k v groups).
Proof.
  intros Hk. induction 1 as [|[k' v'] groups Hhd Htl IH]; simpl.
  - constructor; [assumption | constructor].
  - destruct (key_compare k k'); repeat constructor; assumption.
Qed.

Lemma add_to_groups_sorted k v groups :
  sorted_groups groups -> sorted_groups (add_to_groups k v groups).
Proof.
  induction groups as [|[k' v'] groups IH]; simpl.
  - intros _. split; [constructor | exact I].
  - intros [Hhd Htl]. destruct (key_compare k k') eqn:C; simpl.
    + split; [|assumption]. now apply key_lt_value with v'.
    + split; [|split; assumption].
      constructor; [exact C | now apply key_lt_weaken with k' v'].
    + split; [|auto].
      apply (add_to_groups_keys (fun k2 => key_compare k' k2 = Lt)).
      * now apply key_compare_Gt.
      * exact Hhd.
Qed.

Lemma lookup_add_to_groups k v k' groups :
  sorted_groups groups ->
  lookup_group k' (add_to_groups k v groups)
  = if bool_decide (k = k')
    then add_opt (lookup_group k groups) (Some v)
    else lookup_group k' groups.
Proof.
  induction groups as [|[k0 v0] groups IH]; simpl; [reflexivity|].
  intros [Hhd Htl]. destruct (key_compare k k0) eqn:C; simpl.
  - apply key_compare_eq in C. subst k0.
    rewrite (bool_decide_eq_true_2 (k = k)) by reflexivity.
    destruct (bool_decide (k = k')); reflexivity.
  - rewrite (bool_decide_eq_false_2 (k0 = k))
      by (intros ->; now apply key_lt_neq in C).
    rewrite (lookup_group_above k v groups)
      by (now apply key_lt_weaken with k0 v0).
    destruct (bool_decide (k = k')); reflexivity.
  - apply key_compare_Gt in C.
    rewrite (bool_decide_eq_false_2 (k0 = k))
      by (intros ->; now apply key_lt_neq in C).
    rewrite IH by assumption.
    destruct (bool_decide (k0 = k')) eqn:E0; [|reflexivity].
    apply bool_decide_eq_true in E0. subst k'.
    rewrite bool_decide_eq_false_2; [reflexivity|].
    intros ->. now apply key_lt_neq in C.
Qed.

Lemma fold_groups_sorted rows groups :
  sorted_groups groups ->
  sorted_groups
    (fold_left (fun groups row => add_to_groups (sim row) (num row) groups)
               rows groups).
Proof.
  revert groups. induction rows as [|r rows IH]; intros groups S; simpl.
  - exact S.
  - apply IH. now apply add_to_groups_sorted.
Qed.

Lemma lookup_fold_groups k rows groups :
  sorted_groups groups ->
  lookup_group k
    (fold_left (fun groups row => add_to_groups (sim row) (num row) groups)
               rows groups)
  = fold_left (fun acc row =>
                 if bool_decide (sim row = k)
                 then add_opt acc (Some (num row)) else acc)
              rows (lookup_group k groups).
Proof.
  revert groups. induction rows as [|r rows IH]; intros groups S; simpl.
  - reflexivity.
  - rewrite IH by now apply add_to_groups_sorted.
    f_equal. rewrite lookup_add_to_groups by assumption.
    destruct (bool_decide (sim r = k)) eqn:E; [|reflexivity].
    apply bool_decide_eq_true in E. now subst k.
Qed.

Lemma groupby_sum_sorted rows : sorted_groups (groupby_sum rows).
Proof. apply fold_groups_sorted. exact I. Qed.

Lemma lookup_groupby_sum k rows :
  lookup_group k (groupby_sum rows) = group_total k rows.
Proof. unfold groupby_sum, group_total. now rewrite lookup_fold_groups. Qed.

Lemma fold_total_from k rows acc :
  fold_left (fun acc row =>
               if bool_decide (sim row = k)
               then add_opt acc (Some (num row)) else acc) rows acc
  = add_opt acc (group_total k rows).
Proof.
  unfold group_total. revert acc.
  induction rows as [|r rows IH]; intros acc; simpl.
  - now rewrite add_opt_None_r.
  - destruct (bool_decide (sim r = k)).
    + rewrite IH, (IH (Some (num r))). now rewrite <- add_opt_assoc.
    + apply IH.
Qed.

Lemma group_total_app k rows1 rows2 :
  group_total k (rows1 ++ rows2)
  = add_opt (group_total k rows1) (group_total k rows2).
Proof.
  unfold group_total at 1. rewrite fold_left_app.
  apply fold_total_from.
Qed.

Lemma group_total_In k rows row :
  In row rows -> sim row = k -> is_Some (group_total k rows).
Proof.
  intros Hin Hk. apply in_split in Hin. destruct Hin as (l1 & l2 & ->).
  rewrite group_total_app.
  change (row :: l2) with ([row] ++ l2). rewrite group_total_app.
  unfold group_total at 2. simpl.
  rewrite bool_decide_eq_true_2 by assumption. simpl.
  destruct (group_total k l1), (group_total k l2); simpl; eauto.
Qed.

(** ** Merging two aggregated tables *)






Lemma set_index_reset_index groups : set_index (reset_index groups) = groups.
Proof.
  unfold set_index, reset_index. rewrite map_map. simpl.
  induction groups as [|[k v] groups IH]; simpl; [reflexivity|].
  now rewrite IH.
Qed.

(** ** Stringification ignores object identity *)

Lemma pyval_nested_ind (P : pyval -> Prop) :
  (forall z, P (PyInt z)) ->
  (forall x, P (PyFloat x)) ->
  (forall id items, Forall P items -> P (PyList id items)) ->
  forall v, P v.
Proof.
  intros Hint Hfloat Hlist.
  fix IH 1. intros [z|x|id items].
  - apply Hint.
  - apply Hfloat.
  - apply Hlist. induction items as [|v items IHitems]; constructor.
    + apply IH.
    + exact IHitems.
Qed.

Lemma py_str_same_value float_repr a b :
  same_value a b = true -> py_str float_repr a = py_str float_repr b.
Proof.
  revert b. induction a as [z|x|id items IH] using pyval_nested_ind;
    intros [z'|x'|id' items']; simpl; try discriminate.
  - intros H. apply bool_decide_eq_true in H. now subst.
  - intros H. apply bool_decide_eq_true in H. now subst.
  - intros H. f_equal. f_equal. f_equal.
    revert items' H. induction IH as [|v items Hv _ IHitems];
      intros [|v' items'] H; try discriminate; [reflexivity|].
    apply andb_true_iff in H. destruct H as [H1 H2].
    simpl. f_equal; [now apply Hv | now apply IHitems].
Qed.

Lemma astype_str_same_parameters float_repr r1 r2 :
  same_parameters r1 r2 ->
  sim (astype_str float_repr r1) = sim (astype_str float_repr r2).
Proof.
  intros (H1 & H2 & H3 & H4 & H5 & H6 & H7). unfold astype_str. simpl.
  rewrite (py_str_same_value float_repr _ _ H1), (py_str_same_value float_repr _ _ H2),
    (py_str_same_value float_repr _ _ H3), (py_str_same_value float_repr _ _ H4),
    (py_str_same_value float_repr _ _ H5), (py_str_same_value float_repr _ _ H6),
    (py_str_same_value float_repr _ _ H7).
  reflexivity.
Qed.

(** ** Claims on the finalizer and the study aggregator *)

Lemma final_cell_cases thr m z p :
  (Np.isnan z = true -> final_cell thr m z p = m) /\
  (Np.isnan z = false -> Np.gt p thr = true -> final_cell thr m z p = z) /\
  (Np.isnan z = false -> Np.gt p thr = false -> final_cell thr m z p = Np.zero).
Proof.
  unfold final_cell. repeat split.
  - now intros ->.
  - now intros -> ->.
  - now intros -> ->.
Qed.

Lemma SFcompare_Eq_sym x y :
  SFcompare x y = Some Eq -> SFcompare y x = Some Eq.
Proof.
  destruct x as [s1|s1| |s1 m1 e1], y as [s2|s2| |s2 m2 e2]; simpl;
    try discriminate; try reflexivity;
    try (destruct s1; discriminate); try (destruct s2; discriminate);
    try (destruct s1, s2; (discriminate || reflexivity)).
  destruct s1, s2; try discriminate.
  - destruct (e1 ?= e2) eqn:E; try discriminate.
    apply Z.compare_eq in E. subst e2. rewrite Z.compare_refl.
    change (Pos.compare_cont Eq m1 m2) with (Pos.compare m1 m2).
    change (Pos.compare_cont Eq m2 m1) with (Pos.compare m2 m1).
    intros H. assert (E : (m1 ?= m2)%positive = Eq)
      by (destruct (m1 ?= m2)%positive; simpl in H; congruence).
    apply Pos.compare_eq in E. subst. now rewrite Pos.compare_refl.
  - destruct (e1 ?= e2) eqn:E; try discriminate.
    apply Z.compare_eq in E. subst e2. rewrite Z.compare_refl.
    change (Pos.compare_cont Eq m1 m2) with (Pos.compare m1 m2).
    change (Pos.compare_cont Eq m2 m1) with (Pos.compare m2 m1).
    intros H. assert (E : (m1 ?= m2)%positive = Eq) by congruence.
    apply Pos.compare_eq in E. subst. now rewrite Pos.compare_refl.
Qed.

Lemma eqb_not_gt p thr : Np.eqb p thr = true -> Np.gt p thr = false.
Proof.
  unfold Np.eqb, Np.gt, SFeqb, SFltb. intros H.
  destruct (SFcompare p thr) as [[]|] eqn:E; try discriminate.
  now rewrite (SFcompare_Eq_sym p thr E).
Qed.

Section StudyClaims.

Variable float_repr : float64 -> string.
Variable listdir : string -> result (list string).

Lemma aggregate_raw tables raw agg :
  aggregate float_repr tables = Ok (raw, agg) ->
  tables <> [] /\
  raw = map (astype_str float_repr) (concat tables) /\
  agg = reset_index (groupby_sum raw).
Proof.
  unfold aggregate, pd_concat. destruct tables as [|t tables]; simpl.
  - discriminate.
  - intros H. injection H as <- <-. repeat split. discriminate.
Qed.

Section SingleModelClaims.

Variable renamed_load : string -> result Simulation.
Variable get_discovery_rates : Simulation -> result Simulation.
Variable get_discovery_rates_per_param : Simulation -> result Simulation.

Lemma prepare_per_param_eq discovery path fid thr keep :
  multi_run_study_analysis_prepare_per_param
    float_repr listdir renamed_load discovery path fid thr keep
  = multi_run_study_analysis_prepare
      float_repr listdir renamed_load discovery path fid thr keep.
Proof. reflexivity. Qed.

Lemma prepare_unfold discovery path fid thr keep :
  multi_run_study_analysis_prepare
    float_repr listdir renamed_load discovery path fid thr keep
  = files ← listdir path;
    results ← collect
      (process_file renamed_load discovery path
         (default default_custom_threshold thr) (default false keep))
      (List.filter (contains (default "result_"%string fid)) files);
    '(all_study_params, agg) ← aggregate float_repr (map parameters results);
    Ok (results, all_study_params, agg).
Proof.
  unfold multi_run_study_analysis_prepare.
  destruct (listdir path) as [files|e]; simpl; [|reflexivity].
  rewrite prepare_loop_collect.
  destruct (collect _ _) as [rs|e]; reflexivity.
Qed.

Lemma prepare_Ok discovery path fid thr keep rs raw agg :
  multi_run_study_analysis_prepare
    float_repr listdir renamed_load discovery path fid thr keep
  = Ok (rs, raw, agg) ->
  exists files,
    listdir path = Ok files /\
    collect
      (process_file renamed_load discovery path
         (default default_custom_threshold thr) (default false keep))
      (List.filter (contains (default "result_"%string fid)) files) = Ok rs /\
    aggregate float_repr (map parameters rs) = Ok (raw, agg).
Proof.
  rewrite prepare_unfold. intros H.
  apply bind_Ok in H. destruct H as (files & Hfiles & H).
  apply bind_Ok in H. destruct H as (rs' & Hrs & H).
  apply bind_Ok in H. destruct H as ([raw' agg'] & Hagg & H).
  injection H as <- <- <-. eauto.
Qed.

Lemma prepare_finalized discovery path fid thr keep rs raw agg :
  (forall r1 r2, discovery r1 = Ok r2 -> mcmc_results r2 = mcmc_results r1) ->
  multi_run_study_analysis_prepare
    float_repr listdir renamed_load discovery path fid thr keep
  = Ok (rs, raw, agg) ->
  forall r k r_i,
    In r rs -> dict_get (mcmc_results r) k = Some r_i ->
    finalized (default default_custom_threshold thr) r_i.
Proof.
  intros Hd H r k r_i Hin Hget.
  apply prepare_Ok in H. destruct H as (files & _ & Hrs & _).
  destruct (collect_In _ _ _ r Hrs Hin) as (f & _ & Hf).
  eapply process_file_finalized; eauto.
Qed.

Lemma prepare_finalized_from discovery path fid thr keep rs raw agg :
  (forall r1 r2, discovery r1 = Ok r2 -> mcmc_results r2 = mcmc_results r1) ->
  multi_run_study_analysis_prepare
    float_repr listdir renamed_load discovery path fid thr keep
  = Ok (rs, raw, agg) ->
  exists files,
    listdir path = Ok files /\
    Forall2
      (fun f r =>
         exists r0,
           renamed_load (path +:+ "/" +:+ f) = Ok r0 /\
           sub_results_finalized_from (default default_custom_threshold thr)
             (mcmc_results r0) (mcmc_results r))
      (List.filter (contains (default "result_"%string fid)) files) rs.
Proof.
  intros Hd H. apply prepare_Ok in H. destruct H as (files & Hfiles & Hrs & _).
  exists files. split; [exact Hfiles|].
  apply collect_Forall2 in Hrs.
  eapply Forall2_impl; [exact Hrs|].
  intros f r Hf. simpl in Hf.
  exact (process_file_finalized_from renamed_load discovery path _ _ f r Hd Hf).
Qed.

(** C1. The finalizing loop succeeds on a run whose sub-results carry
    the three posterior summaries. The run it produces has the
    sub-results of the run it was given, key by key, each with its
    [y] and its columns as they were and with the [final_parameter]
    column written from its own summaries; so have the runs returned
    by [multi_run_study_analysis_prepare] and
    [multi_run_study_analysis_prepare_per_param], one per matching
    file and from the run loaded from that file (the discovery-rate
    method leaving the sub-results as they are). The elements of
    [final_parameter] are: the posterior mean where [mean_nonzero]
    is NaN; else [mean_nonzero] where the inclusion probability exceeds
    the threshold; else 0, in particular where the two are equal. The
    threshold is the caller's, 0.5 when none is given. *)
Theorem final_parameter_of_processed_runs :
  (forall thr r,
     Forall (fun kv => has_summaries (snd kv)) (mcmc_results r) ->
     exists r', finalize_run thr r = Ok r') /\
  (forall thr r r' k r_i,
     finalize_run thr r = Ok r' ->
     dict_get (mcmc_results r') k = Some r_i -> finalized thr r_i) /\
  (forall path fid thr keep rs raw agg,
     (forall r1 r2, get_discovery_rates r1 = Ok r2 ->
                    mcmc_results r2 = mcmc_results r1) ->
     multi_run_study_analysis_prepare
       float_repr listdir renamed_load get_discovery_rates path fid thr keep
     = Ok (rs, raw, agg) ->
     forall r k r_i,
       In r rs -> dict_get (mcmc_results r) k = Some r_i ->
       finalized (default default_custom_threshold thr) r_i) /\
  (forall path fid thr keep rs raw agg,
     (forall r1 r2, get_discovery_rates_per_param r1 = Ok r2 ->
                    mcmc_results r2 = mcmc_results r1) ->
     multi_run_study_analysis_prepare_per_param
       float_repr listdir renamed_load get_discovery_rates_per_param
       path fid thr keep
     = Ok (rs, raw, agg) ->
     forall r k r_i,
       In r rs -> dict_get (mcmc_results r) k = Some r_i ->
       finalized (default default_custom_threshold thr) r_i) /\
  exactly 1 2 default_custom_threshold = true /\
  (forall thr m z p,
     (Np.isnan z = true -> final_cell thr m z p = m) /\
     (Np.isnan z = false -> Np.gt p thr = true -> final_cell thr m z p = z) /\
     (Np.isnan z = false -> Np.gt p thr = false ->
      final_cell thr m z p = Np.zero) /\
     (Np.isnan z = false -> Np.eqb p thr = true ->
      final_cell thr m z p = Np.zero)) /\
  (forall thr r r',
     finalize_run thr r = Ok r' ->
     sub_results_finalized_from thr (mcmc_results r) (mcmc_results r')) /\
  (forall path fid thr keep rs raw agg,
     (forall r1 r2, get_discovery_rates r1 = Ok r2 ->
                    mcmc_results r2 = mcmc_results r1) ->
     multi_run_study_analysis_prepare
       float_repr listdir renamed_load get_discovery_rates path fid thr keep
     = Ok (rs, raw, agg) ->
     exists files,
       listdir path = Ok files /\
       Forall2
         (fun f r =>
            exists r0,
              renamed_load (path +:+ "/" +:+ f) = Ok r0 /\
              sub_results_finalized_from (default default_custom_threshold thr)
                (mcmc_results r0) (mcmc_results r))
         (List.filter (contains (default "result_"%string fid)) files) rs) /\
  (forall path fid thr keep rs raw agg,
     (forall r1 r2, get_discovery_rates_per_param r1 = Ok r2 ->
                    mcmc_results r2 = mcmc_results r1) ->
     multi_run_study_analysis_prepare_per_param
       float_repr listdir renamed_load get_discovery_rates_per_param
       path fid thr keep
     = Ok (rs, raw, agg) ->
     exists files,
       listdir path = Ok files /\
       Forall2
         (fun f r =>
            exists r0,
              renamed_load (path +:+ "/" +:+ f) = Ok r0 /\
              sub_results_finalized_from (default default_custom_threshold thr)
                (mcmc_results r0) (mcmc_results r))
         (List.filter (contains (default "result_"%string fid)) files) rs).
Proof.
  split; [|split; [|split; [|split; [|split; [|split; [|split; [|split]]]]]]].
  - intros thr r H. unfold finalize_run.
    destruct (finalize_items_total thr _ H) as (items & ->). simpl. eauto.
  - intros thr r r' k r_i H Hget.
    apply finalize_run_finalized in H. destruct H as (_ & _ & H). eauto.
  - intros path fid thr keep rs raw agg Hd H. eapply prepare_finalized; eauto.
  - intros path fid thr keep rs raw agg Hd H. rewrite prepare_per_param_eq in H.
    eapply prepare_finalized; eauto.
  - reflexivity.
  - intros thr m z p.
    destruct (final_cell_cases thr m z p) as (H1 & H2 & H3).
    repeat split; try assumption.
    intros Hz Heq. apply H3; [assumption | now apply eqb_not_gt].
  - intros thr r r' H. unfold finalize_run in H.
    apply bind_Ok in H. destruct H as (items & Hitems & H). injection H as <-.
    simpl. now apply finalize_items_finalized_from.
  - intros path fid thr keep rs raw agg Hd H.
    now apply (prepare_finalized_from get_discovery_rates path fid thr keep
                 rs raw agg Hd).
  - intros path fid thr keep rs raw agg Hd H. rewrite prepare_per_param_eq in H.
    now apply (prepare_finalized_from get_discovery_rates_per_param path fid
                 thr keep rs raw agg Hd).
Qed.

(** C6. When no listed file name contains the identifier, there is
    nothing to concatenate and the call fails with the error of
    [pd.concat]; no table is returned. *)
Theorem no_matching_file_fails_to_concatenate path fid thr keep files :
  listdir path = Ok files ->
  (forall f, In f files -> contains (default "result_"%string fid) f = false) ->
  multi_run_study_analysis_prepare
    float_repr listdir renamed_load get_discovery_rates path fid thr keep
  = Raise (ValueError "No objects to concatenate").
Proof.
  intros Hfiles Hnone. rewrite prepare_unfold, Hfiles. simpl.
  rewrite collect_nil_filter by assumption. reflexivity.
Qed.



End SingleModelClaims.

Section MultiModelClaims.

Variable renamed_load : string -> result MultiModel.Simulation.
Variable get_discovery_rates :
  MultiModel.Simulation -> result MultiModel.Simulation.

Lemma mm_prepare_unfold path fid thr keep :
  multi_run_study_analysis_multi_model_prepare
    float_repr listdir renamed_load get_discovery_rates path fid thr keep
  = files ← listdir path;
    results ← collect
      (mm_process_file renamed_load get_discovery_rates path
         (default default_custom_threshold thr) (default false keep))
      (List.filter (contains (default "result_"%string fid)) files);
    '(all_study_params, agg) ←
       aggregate float_repr (map MultiModel.parameters results);
    Ok (results, all_study_params, agg).
Proof.
  unfold multi_run_study_analysis_multi_model_prepare.
  destruct (listdir path) as [files|e]; simpl; [|reflexivity].
  rewrite mm_prepare_loop_collect.
  destruct (collect _ _) as [rs|e]; reflexivity.
Qed.



End MultiModelClaims.


(** C5, as amended. Two rows of the concatenated table whose
    simulation parameters hold the same items, the vectors item by
    item (the same integers, the same floats) and whatever list
    objects hold them, get the same stringified tuple and fall into
    one and the same group of the aggregated table; two such rows
    alone aggregate to a single row with their sum. *)
Theorem stringified_vectors_share_group tables raw agg r1 r2 :
  aggregate float_repr tables = Ok (raw, agg) ->
  In r1 (concat tables) -> In r2 (concat tables) ->
  same_parameters r1 r2 ->
  sim (astype_str float_repr r1) = sim (astype_str float_repr r2) /\
  (exists g, In g agg /\
     sim g = sim (astype_str float_repr r1) /\
     sim g = sim (astype_str float_repr r2) /\
     forall g', In g' agg -> sim g' = sim g -> g' = g) /\
  aggregate float_repr [[r1]; [r2]]
  = Ok ([astype_str float_repr r1; astype_str float_repr r2],
        [{| sim := sim (astype_str float_repr r1);
            num := add_nums (nums r1) (nums r2) |}]).
Proof.
  intros Hagg Hin1 Hin2 Hsame.
  pose proof (astype_str_same_parameters float_repr r1 r2 Hsame) as Hkey.
  split; [exact Hkey|]. split.
  - apply aggregate_raw in Hagg. destruct Hagg as (_ & -> & ->).
    set (rows := map (astype_str float_repr) (concat tables)).
    set (k := sim (astype_str float_repr r1)) in *.
    assert (Hrow : In (astype_str float_repr r1) rows) by now apply in_map.
    destruct (group_total_In k rows _ Hrow eq_refl) as [v Hv].
    rewrite <- lookup_groupby_sum in Hv.
    exists {| sim := k; num := v |}. simpl.
    split; [|split; [reflexivity|split; [exact Hkey|]]].
    + apply lookup_group_In in Hv. unfold reset_index.
      apply (in_map (fun g => {| sim := fst g; num := snd g |})) in Hv. exact Hv.
    + intros g' Hg' Hsim. unfold reset_index in Hg'.
      apply in_map_iff in Hg'. destruct Hg' as ([k' v'] & <- & Hin').
      simpl in Hsim. subst k'.
      apply In_lookup_group in Hin'; [|apply groupby_sum_sorted].
      rewrite Hv in Hin'. injection Hin' as <-. reflexivity.
  - unfold aggregate, pd_concat, groupby_sum, reset_index.
    cbn [mbind result_bind concat app map fold_left add_to_groups].
    rewrite <- Hkey, key_compare_refl. reflexivity.
Qed.

End StudyClaims.

(** C9. In the multi-model variant a second-level sub-result whose
    params table has no [mean_nonzero] column comes out of the
    finalization step as it went in; the single-model step has no such
    guard: it finalizes every sub-result and fails with a [KeyError] on
    a table without that column. *)
Theorem multi_model_skips_tables_without_mean_nonzero :
  (forall thr r2_i,
     Pd.has_column (params r2_i) "mean_nonzero" = false ->
     finalize_if_sparse thr r2_i = Ok r2_i) /\
  (forall thr r r' r_k r_i r2_k r2_i,
     mm_finalize_run thr r = Ok r' ->
     dict_get_str (MultiModel.results r) r_k = Some r_i ->
     dict_get r_i r2_k = Some r2_i ->
     Pd.has_column (params r2_i) "mean_nonzero" = false ->
     exists r_i',
       dict_get_str (MultiModel.results r') r_k = Some r_i' /\
       dict_get r_i' r2_k = Some r2_i) /\
  (forall thr r_i,
     Pd.has_column (params r_i) "mean_nonzero" = false ->
     finalize thr r_i = Raise (KeyError "mean_nonzero")) /\
  (forall thr r r' r_k r_i,
     finalize_run thr r = Ok r' ->
     dict_get (mcmc_results r) r_k = Some r_i ->
     Pd.has_column (params r_i) "mean_nonzero" = true /\
     exists r_i', dict_get (mcmc_results r') r_k = Some r_i' /\
                  Pd.has_column (params r_i') "final_parameter" = true).
Proof.
  split; [|split; [|split]].
  - intros thr r2_i H. unfold finalize_if_sparse. now rewrite H.
  - intros thr r r' r_k r_i r2_k r2_i Hrun Hk Hk2 Hcol.
    unfold mm_finalize_run in Hrun.
    apply bind_Ok in Hrun. destruct Hrun as (res & Hres & Hrun).
    injection Hrun as <-. simpl.
    pose proof (finalize_results_get thr _ _ r_k Hres) as G. rewrite Hk in G.
    destruct G as (r_i' & Hget & Hitems). exists r_i'. split; [exact Hget|].
    pose proof (finalize_items_if_sparse_get thr _ _ r2_k Hitems) as G2.
    rewrite Hk2 in G2. destruct G2 as (r2_i' & Hget2 & Hstep).
    unfold finalize_if_sparse in Hstep. rewrite Hcol in Hstep.
    injection Hstep as <-. exact Hget2.
  - intros thr r_i H. now apply finalize_missing_column.
  - intros thr r r' r_k r_i Hrun Hk.
    unfold finalize_run in Hrun.
    apply bind_Ok in Hrun. destruct Hrun as (items & Hitems & Hrun).
    injection Hrun as <-. simpl.
    pose proof (finalize_items_get thr _ _ r_k Hitems) as G. rewrite Hk in G.
    destruct G as (r_i' & Hget & Hfin).
    split; [now apply finalize_has_column in Hfin|].
    exists r_i'. split; [exact Hget|].
    unfold finalize in Hfin.
    apply bind_Ok in Hfin. destruct Hfin as (col & _ & Hfin).
    injection Hfin as <-. simpl.
    apply has_column_In. apply getitem_Ok_In with col.
    apply getitem_setitem_eq.
Qed.


(** ** The statements at work on the example study *)

Lemma final_parameter_of_processed_runs_witness :
  finalized default_custom_threshold Example.finalized_sub_result /\
  sub_results_finalized_from default_custom_threshold
    (mcmc_results (Example.run 10)) [(0, Example.finalized_sub_result)].
Proof.
  destruct (final_parameter_of_processed_runs
              Example.float_repr Example.listdir Example.renamed_load
              Example.get_discovery_rates Example.get_discovery_rates)
    as (_ & _ & H & _ & _ & _ & Hfrom & _).
  split.
  - eapply (H "study"%string None None None) with (k := 0).
    + intros r1 r2 E. injection E as <-. reflexivity.
    + reflexivity.
    + left. reflexivity.
    + reflexivity.
  - apply (Hfrom default_custom_threshold (Example.run 10)
             {| parameters := parameters (Example.run 10);
                mcmc_results := [(0, Example.finalized_sub_result)];
                _MCMCResult__raw_params :=
                  _MCMCResult__raw_params (Example.run 10) |}).
    reflexivity.
Defined.

Lemma no_matching_file_fails_to_concatenate_witness :
  multi_run_study_analysis_prepare
    Example.float_repr Example.empty_listdir Example.renamed_load
    Example.get_discovery_rates "study" None None None
  = Raise (ValueError "No objects to concatenate").
Proof.
  apply (no_matching_file_fails_to_concatenate
           Example.float_repr Example.empty_listdir Example.renamed_load
           Example.get_discovery_rates "study" None None None
           ["readme.txt"; "results.csv"]%string).
  - reflexivity.
  - intros f [<-|[<-|[]]]; reflexivity.
Defined.


Lemma stringified_vectors_share_group_witness :
  snd <$> aggregate Example.float_repr
            [[Example.row 10 [1; 3; 0; 1]]; [Example.row 20 [2; 2; 1; 0]]]
  = Ok [{| sim := ["1"; "5"; "1000"; "[5, 5]"; "[1.0, 2.0]"; "[[0.4, 0]]"; "1"]%string;
           num := [3; 5; 1; 1] |}].
Proof.
  edestruct (stringified_vectors_share_group Example.float_repr
               [[Example.row 10 [1; 3; 0; 1]]; [Example.row 20 [2; 2; 1; 0]]])
    as (_ & _ & H).
  - reflexivity.
  - left. reflexivity.
  - right. left. reflexivity.
  - repeat split; reflexivity.
  - rewrite H. reflexivity.
Defined.

(** C5 as stated fails for vectors that are equal under [==] but
    written differently: the effects [[1.0, 2.0]] and [[1, 2]] are
    element-wise equal, their strings differ, and the two rows end up in
    two groups. *)
Lemma elementwise_equal_vectors_split_groups :
  elementwise_equal_parameters
    (Example.row 10 [1; 3; 0; 1]) (Example.row_int_effects 20 [2; 2; 1; 0]) /\
  elementwise_equal (b_true (Example.row 10 [1; 3; 0; 1]))
                    (b_true (Example.row_int_effects 20 [2; 2; 1; 0])) = true /\
  snd <$> aggregate Example.float_repr
            [[Example.row 10 [1; 3; 0; 1]];
             [Example.row_int_effects 20 [2; 2; 1; 0]]]
  = Ok [{| sim := ["1"; "5"; "1000"; "[5, 5]"; "[1, 2]"; "[[0.4, 0]]"; "1"]%string;
           num := [2; 2; 1; 0] |};
        {| sim := ["1"; "5"; "1000"; "[5, 5]"; "[1.0, 2.0]"; "[[0.4, 0]]"; "1"]%string;
           num := [1; 3; 0; 1] |}].
Proof.
  split; [|split].
  - repeat split; vm_compute; reflexivity.
  - vm_compute. reflexivity.
  - vm_compute. reflexivity.
Qed.

Lemma multi_model_skips_tables_without_mean_nonzero_witness :
  exists r' r_i',
    mm_finalize_run default_custom_threshold (Example.mm_run 10) = Ok r' /\
    dict_get_str (MultiModel.results r') "Poisson" = Some r_i' /\
    dict_get r_i' 0 = Some Example.dense_sub_result.
Proof.
  destruct multi_model_skips_tables_without_mean_nonzero as (_ & H & _).
  destruct (mm_finalize_run default_custom_threshold (Example.mm_run 10))
    as [r'|e] eqn:E; [|discriminate].
  destruct (H default_custom_threshold (Example.mm_run 10) r' "Poisson"%string
              [(0, Example.dense_sub_result)] 0 Example.dense_sub_result E)
    as (r_i' & H1 & H2); try reflexivity.
  exists r', r_i'. auto.
Defined.


(** * Further properties *)

(** ** Result loader *)

Lemma renamed_module_legacy m :
  In m legacy_modules -> In (renamed_module m)
    ["util.multi_parameter_sampling";
     "util.compositional_analysis_generation_toolbox";
     "util.result_classes"; "model.dirichlet_models"]%string.
Proof.
  simpl. intros H.
  repeat (destruct H as [<-|H]; [vm_compute; tauto|]). contradiction.
Qed.

Lemma renamed_module_other m :
  ~ In m legacy_modules -> renamed_module m = m.
Proof.
  simpl. intros H. unfold renamed_module.
  repeat match goal with
  | |- context [String.eqb m ?s] =>
      destruct (String.eqb_spec m s); [exfalso; apply H; subst; tauto|]
  end.
  reflexivity.
Qed.

(** X1. A class pickled under a legacy module is looked up exactly as
    the same class under the current module: renaming a module twice
    changes nothing more, a legacy name never reaches the lookup, and
    any other module is looked up under its own name. *)
Theorem find_class_resolves_legacy_modules {C}
    (super_find_class : string -> string -> result C) (module name : string) :
  find_class super_find_class (renamed_module module) name
  = find_class super_find_class module name /\
  ~ In (renamed_module module) legacy_modules /\
  (~ In module legacy_modules ->
   find_class super_find_class module name = super_find_class module name).
Proof.
  assert (Hcanon : forall m,
            In m ["util.multi_parameter_sampling";
                  "util.compositional_analysis_generation_toolbox";
                  "util.result_classes"; "model.dirichlet_models"]%string ->
            ~ In m legacy_modules /\ renamed_module m = m).
  { intros m H. simpl in H.
    repeat (destruct H as [<-|H];
            [split; [simpl; intuition discriminate | reflexivity]|]).
    contradiction. }
  destruct (in_dec String.string_dec module legacy_modules) as [Hin|Hout].
  - apply renamed_module_legacy in Hin. apply Hcanon in Hin.
    destruct Hin as [H1 H2]. unfold find_class. rewrite H2.
    split; [reflexivity|]. split; [assumption|]. intros H. 
    rewrite (renamed_module_other module H). reflexivity.
  - unfold find_class. rewrite (renamed_module_other module Hout).
    rewrite (renamed_module_other module Hout). auto.
Qed.

Lemma find_class_resolves_legacy_modules_witness :
  find_class Demo.class_lookup "model.result_classes" "MCMCResult"
  = find_class Demo.class_lookup "util.result_classes" "MCMCResult" /\
  find_class Demo.class_lookup "numpy" "ndarray"
  = Demo.class_lookup "numpy" "ndarray".
Proof.
  destruct (find_class_resolves_legacy_modules
              Demo.class_lookup "model.result_classes" "MCMCResult")
    as (H1 & _ & _).
  destruct (find_class_resolves_legacy_modules
              Demo.class_lookup "numpy" "ndarray") as (_ & _ & H3).
  split; [rewrite <- H1; reflexivity|].
  apply H3. simpl. intuition discriminate.
Defined.

(** ** get_scores: when it succeeds *)

Lemma get_scores_Ok_numeric df df' :
  get_scores df = Ok df' ->
  exists tp tn fp fn,
    Pd.getitem df "tp" = Ok tp /\ Pd.getitem df "tn" = Ok tn /\
    Pd.getitem df "fp" = Ok fp /\ Pd.getitem df "fn" = Ok fn /\
    numeric tp = true /\ numeric tn = true /\
    numeric fp = true /\ numeric fn = true.
Proof.
  unfold get_scores. intros H.
  apply bind_Ok in H. destruct H as (tp & Htp & H).
  apply bind_Ok in H. destruct H as (tn & Htn & H).
  apply bind_Ok in H. destruct H as (fp & Hfp & H).
  apply bind_Ok in H. destruct H as (fn & Hfn & H).
  exists tp, tn, fp, fn. repeat split; try assumption;
    destruct tp, tn, fp, fn; try reflexivity; discriminate.
Qed.

(** The seven columns depend on the four count columns only. *)
Lemma get_scores_columns tp tn fp fn :
  numeric tp = true -> numeric tn = true ->
  numeric fp = true -> numeric fn = true ->
  exists c1 c2 c3 c4 c5 c6 c7,
    forall df,
      Pd.getitem df "tp" = Ok tp -> Pd.getitem df "tn" = Ok tn ->
      Pd.getitem df "fp" = Ok fp -> Pd.getitem df "fn" = Ok fn ->
      get_scores df = Ok (with_scores df [c1; c2; c3; c4; c5; c6; c7]).
Proof.
  intros Ntp Ntn Nfp Nfn.
  destruct tp, tn, fp, fn; try discriminate;
    do 7 eexists; intros df Htp Htn Hfp Hfn;
    unfold get_scores; rewrite Htp, Htn, Hfp, Hfn; reflexivity.
Qed.



(** ** get_scores: running it again *)

Lemma setitem_same {C} (df : Frame C) k c :
  Pd.getitem df k = Ok c -> Pd.setitem df k c = df.
Proof.
  induction df as [|[k0 c0] df IH]; simpl; [discriminate|].
  destruct (String.eqb k0 k) eqn:E; intros H.
  - now injection H as ->.
  - now rewrite IH.
Qed.

Lemma with_scores_again df c1 c2 c3 c4 c5 c6 c7 :
  with_scores (with_scores df [c1; c2; c3; c4; c5; c6; c7])
              [c1; c2; c3; c4; c5; c6; c7]
  = with_scores df [c1; c2; c3; c4; c5; c6; c7].
Proof.
  set (df' := with_scores df [c1; c2; c3; c4; c5; c6; c7]).
  assert (G : Pd.getitem df' "tpr" = Ok c1 /\ Pd.getitem df' "tnr" = Ok c2 /\
              Pd.getitem df' "precision" = Ok c3 /\
              Pd.getitem df' "accuracy" = Ok c4 /\
              Pd.getitem df' "youden" = Ok c5 /\
              Pd.getitem df' "f1_score" = Ok c6 /\ Pd.getitem df' "mcc" = Ok c7).
  { unfold df', with_scores. simpl.
    repeat split;
      repeat (rewrite getitem_setitem_eq
              || (rewrite getitem_setitem_ne by discriminate)); reflexivity. }
  destruct G as (G1 & G2 & G3 & G4 & G5 & G6 & G7).
  unfold with_scores at 1. simpl.
  now rewrite (setitem_same df' _ _ G1), (setitem_same df' _ _ G2),
    (setitem_same df' _ _ G3), (setitem_same df' _ _ G4),
    (setitem_same df' _ _ G5), (setitem_same df' _ _ G6),
    (setitem_same df' _ _ G7).
Qed.

(** X3. Scoring a table that has been scored changes nothing: the
    seven columns are computed again from the same counts and written
    over themselves. *)
Theorem get_scores_idempotent df df' :
  get_scores df = Ok df' -> get_scores df' = Ok df'.
Proof.
  intros H.
  destruct (get_scores_Ok_numeric df df' H)
    as (tp & tn & fp & fn & Htp & Htn & Hfp & Hfn & Ntp & Ntn & Nfp & Nfn).
  destruct (get_scores_columns tp tn fp fn Ntp Ntn Nfp Nfn)
    as (c1 & c2 & c3 & c4 & c5 & c6 & c7 & Hcols).
  rewrite (Hcols df Htp Htn Hfp Hfn) in H. injection H as <-.
  rewrite Hcols.
  - now rewrite with_scores_again.
  - rewrite with_scores_other; [assumption | simpl; intuition discriminate].
  - rewrite with_scores_other; [assumption | simpl; intuition discriminate].
  - rewrite with_scores_other; [assumption | simpl; intuition discriminate].
  - rewrite with_scores_other; [assumption | simpl; intuition discriminate].
Qed.

Lemma get_scores_idempotent_witness :
  exists df', get_scores Demo.agg_table = Ok df' /\ get_scores df' = Ok df'.
Proof.
  destruct (get_scores Demo.agg_table) as [df'|e] eqn:E; [|discriminate].
  exists df'. split; [reflexivity|].
  exact (get_scores_idempotent Demo.agg_table df' E).
Defined.

(** ** get_scores: row counts *)

Lemma rectangular_setitem n df k c :
  rectangular n df -> series_length c = n -> rectangular n (Pd.setitem df k c).
Proof.
  intros H Hc. induction H as [|[k0 c0] df Hhd Htl IH]; simpl.
  - constructor; [exact Hc | constructor].
  - destruct (String.eqb k0 k); constructor; assumption.
Qed.

Lemma rectangular_getitem n df k c :
  rectangular n df -> Pd.getitem df k = Ok c -> series_length c = n.
Proof.
  intros H. induction H as [|[k0 c0] df Hhd Htl IH]; simpl; [discriminate|].
  destruct (String.eqb k0 k); intros E; [now injection E as <- | auto].
Qed.

(** X4. On a table whose columns all have [n] rows, [get_scores]
    returns a table whose columns, the seven new ones included, all
    have [n] rows. *)
Theorem get_scores_keeps_row_count n df df' :
  rectangular n df -> get_scores df = Ok df' -> rectangular n df'.
Proof.
  intros Hrect H.
  destruct (get_scores_Ok_numeric df df' H)
    as (tp & tn & fp & fn & Htp & Htn & Hfp & Hfn & Ntp & Ntn & Nfp & Nfn).
  pose proof (rectangular_getitem n df _ _ Hrect Htp) as Ltp.
  pose proof (rectangular_getitem n df _ _ Hrect Htn) as Ltn.
  pose proof (rectangular_getitem n df _ _ Hrect Hfp) as Lfp.
  pose proof (rectangular_getitem n df _ _ Hrect Hfn) as Lfn.
  unfold get_scores in H. rewrite Htp, Htn, Hfp, Hfn in H.
  destruct tp, tn, fp, fn; try discriminate;
    simpl in H; injection H as <-; simpl in Ltp, Ltn, Lfp, Lfn;
    repeat (apply rectangular_setitem; [|simpl;
      repeat (rewrite ?length_zip_with, ?length_map, ?length_fmap); lia]);
    exact Hrect.
Qed.

Lemma get_scores_keeps_row_count_witness :
  exists df', get_scores Demo.agg_table = Ok df' /\ rectangular 2 df'.
Proof.
  destruct (get_scores Demo.agg_table) as [df'|e] eqn:E; [|discriminate].
  exists df'. split; [reflexivity|].
  apply (get_scores_keeps_row_count 2 Demo.agg_table df'); [|exact E].
  repeat constructor.
Defined.

(** ** binary64: conversions of int64 values are finite *)

Lemma digits2_pos_upper (m : positive) (k : Z) :
  Z.pos m < 2 ^ k -> Z.pos (digits2_pos m) <= k.
Proof.
  intros H. pose proof (digits2_pos_lower m) as L.
  assert (Hk : 0 <= k).
  { destruct (Z.le_gt_cases 0 k) as [?|Hneg]; [assumption|].
    rewrite Z.pow_neg_r in H by assumption. lia. }
  assert (Hlt : 2 ^ (Z.pos (digits2_pos m) - 1) < 2 ^ k) by lia.
  apply Z.pow_lt_mono_r_iff in Hlt; lia.
Qed.

Lemma shr_fexp_nonneg (m e : Z) (l : location) :
  0 <= m -> 0 <= shr_m (fst (shr_fexp Np.prec Np.emax m e l)).
Proof.
  intros Hm. unfold shr_fexp, shr.
  destruct (fexp Np.prec Np.emax (Zdigits2 m + e) - e) as [|p|p]; simpl.
  - now rewrite shr_record_of_loc_m.
  - rewrite iter_pos_shr_1_m by (now rewrite shr_record_of_loc_m).
    rewrite shr_record_of_loc_m. apply Z.div_pos; [assumption|].
    apply Z.pow_pos_nonneg; lia.
  - now rewrite shr_record_of_loc_m.
Qed.

(** Rounding a non-negative mantissa never gives NaN. *)
Lemma binary_round_aux_not_nan (s : bool) (m e : Z) (l : location) :
  0 <= m -> binary_round_aux Np.prec Np.emax s m e l <> S754_nan.
Proof.
  intros Hm. unfold binary_round_aux.
  pose proof (shr_fexp_nonneg m e l Hm) as H1.
  destruct (shr_fexp Np.prec Np.emax m e l) as [mrs' e']. simpl in H1.
  pose proof (round_nearest_even_ge (shr_m mrs') (loc_of_shr_record mrs')) as Hr.
  pose proof (shr_fexp_nonneg
                (round_nearest_even (shr_m mrs') (loc_of_shr_record mrs'))
                e' loc_Exact) as H2.
  destruct (shr_fexp Np.prec Np.emax
              (round_nearest_even (shr_m mrs') (loc_of_shr_record mrs'))
              e' loc_Exact) as [mrs'' e'']. simpl in H2.
  destruct (shr_m mrs'') as [|m3|m3]; [discriminate| |lia].
  destruct (e'' <=? Np.emax - Np.prec); discriminate.
Qed.

Lemma shr_fexp_bound (m : positive) (e k : Z) (l : location) :
  emin Np.prec Np.emax <= e -> Z.pos m < 2 ^ k ->
  snd (shr_fexp Np.prec Np.emax (Z.pos m) e l) <= Z.max e (k + e - Np.prec) /\
  e <= snd (shr_fexp Np.prec Np.emax (Z.pos m) e l) /\
  shr_m (fst (shr_fexp Np.prec Np.emax (Z.pos m) e l))
  < 2 ^ (k - (snd (shr_fexp Np.prec Np.emax (Z.pos m) e l) - e)).
Proof.
  intros He Hk. pose proof (digits2_pos_upper m k Hk) as Hd.
  unfold shr_fexp, shr, fexp. simpl Zdigits2.
  set (d := Z.pos (digits2_pos m)) in *.
  destruct (Z.max (d + e - Np.prec) (emin Np.prec Np.emax) - e) as [|p|p] eqn:En;
    simpl.
  - rewrite shr_record_of_loc_m. replace (k - (e - e)) with k by lia. lia.
  - rewrite iter_pos_shr_1_m by (rewrite shr_record_of_loc_m; lia).
    rewrite shr_record_of_loc_m.
    assert (Hp : Z.pos p = d - Np.prec) by lia.
    split; [lia|]. split; [lia|].
    replace (k - (e + Z.pos p - e)) with (k - Z.pos p) by lia.
    apply Z.div_lt_upper_bound; [apply Z.pow_pos_nonneg; lia|].
    rewrite <- Z.pow_add_r by (unfold Np.prec in *; lia).
    replace (Z.pos p + (k - Z.pos p)) with k by lia. exact Hk.
  - rewrite shr_record_of_loc_m. replace (k - (e - e)) with k by lia. lia.
Qed.

Lemma round_nearest_even_le m l : round_nearest_even m l <= m + 1.
Proof. destruct l as [|[]]; simpl; try lia. destruct (Z.even m); lia. Qed.

Lemma binary_round_aux_finite (s : bool) (m : positive) (e k : Z) (l : location) :
  emin Np.prec Np.emax <= e -> Z.pos m < 2 ^ k ->
  Z.max e (k + e + 1 - Np.prec) <= Np.emax - Np.prec ->
  exists m' e', binary_round_aux Np.prec Np.emax s (Z.pos m) e l
                = S754_finite s m' e'.
Proof.
  intros He Hk Hmax. unfold binary_round_aux.
  pose proof (shr_fexp_pos m e l He) as P1.
  destruct (shr_fexp_bound m e k l He Hk) as (B1 & B2 & B3).
  destruct (shr_fexp Np.prec Np.emax (Z.pos m) e l) as [mrs' e'] eqn:E1.
  simpl in P1, B1, B2, B3.
  pose proof (round_nearest_even_ge (shr_m mrs') (loc_of_shr_record mrs')) as Hr.
  pose proof (round_nearest_even_le (shr_m mrs') (loc_of_shr_record mrs')) as Hr'.
  destruct (round_nearest_even (shr_m mrs') (loc_of_shr_record mrs'))
    as [|m2|m2] eqn:E2; try lia.
  assert (He' : emin Np.prec Np.emax <= e') by lia.
  assert (Hk2 : Z.pos m2 < 2 ^ (k - (e' - e) + 1)).
  { assert (0 <= k - (e' - e)).
    { destruct (Z.le_gt_cases 0 (k - (e' - e))) as [?|Hneg]; [assumption|].
      rewrite Z.pow_neg_r in B3 by assumption. lia. }
    rewrite Z.pow_add_r by lia. lia. }
  pose proof (shr_fexp_pos m2 e' loc_Exact He') as P2.
  destruct (shr_fexp_bound m2 e' _ loc_Exact He' Hk2) as (C1 & _ & _).
  destruct (shr_fexp Np.prec Np.emax (Z.pos m2) e' loc_Exact) as [mrs'' e''] eqn:E3.
  simpl in P2, C1.
  destruct (shr_m mrs'') as [|m3|m3]; try lia.
  destruct (Z.leb_spec e'' (Np.emax - Np.prec)); [eauto|lia].
Qed.

Lemma pos_iter_xO (m d : positive) :
  Z.pos (Pos.iter xO m d) = Z.pos m * 2 ^ Z.pos d.
Proof.
  induction d as [|d IH] using Pos.peano_ind.
  - simpl. lia.
  - rewrite Pos.iter_succ, Pos2Z.inj_xO, IH, Pos2Z.inj_succ, Z.pow_succ_r by lia.
    lia.
Qed.

Lemma of_int_finite z :
  0 < z <= Np.max_int64 ->
  exists m e, Np.of_int z = S754_finite false m e.
Proof.
  intros [Hz Hmax]. unfold Np.of_int, binary_normalize.
  destruct z as [|p|p]; try lia.
  unfold binary_round, shl_align.
  set (e1 := fexp Np.prec Np.emax (Z.pos (digits2_pos p) + 0)).
  assert (He1 : emin Np.prec Np.emax <= e1) by (unfold e1, fexp; lia).
  assert (Hp : Z.pos p < 2 ^ 63) by (unfold Np.max_int64 in Hmax; lia).
  destruct (e1 - 0) as [|d|d] eqn:Ed.
  - apply binary_round_aux_finite with 63; [vm_compute; discriminate| exact Hp|].
    vm_compute. discriminate.
  - apply binary_round_aux_finite with 63; [vm_compute; discriminate| exact Hp|].
    vm_compute. discriminate.
  - apply binary_round_aux_finite with (63 + Z.pos d); [exact He1| |].
    + change (PosDef.Pos.iter xO p d) with (Pos.iter xO p d).
      rewrite pos_iter_xO, Z.pow_add_r by lia.
      apply Z.mul_lt_mono_pos_r; [apply Z.pow_pos_nonneg; lia | exact Hp].
    + assert (e1 = Z.neg d) by lia. unfold Np.prec, Np.emax. lia.
Qed.

Lemma fdiv_finite_not_nan sx mx ex sy my ey :
  Np.fdiv (S754_finite sx mx ex) (S754_finite sy my ey) <> S754_nan.
Proof.
  unfold Np.fdiv, SFdiv, SFdiv_core_binary.
  set (e' := Z.min _ _). set (m' := match ex - ey - e' with
                                    | 0 => Z.pos mx
                                    | Z.pos _ => Z.shiftl (Z.pos mx) (ex - ey - e')
                                    | Z.neg _ => 0
                                    end).
  assert (Hm' : 0 <= m').
  { unfold m'. destruct (ex - ey - e') as [|p|p]; try lia.
    apply Z.shiftl_nonneg. lia. }
  pose proof (Z.div_pos m' (Z.pos my) Hm' eq_refl) as Hq.
  unfold Z.div in Hq.
  destruct (Z.div_eucl m' (Z.pos my)) as [q r]. simpl in Hq.
  now apply binary_round_aux_not_nan.
Qed.

(** X5. With non-negative counts whose total fits into int64, the
    accuracy cell is NaN on the rows without any decision
    ([tp + tn + fp + fn = 0]) and on no other row. *)
Theorem get_scores_accuracy_nan_iff_empty_row df tps tns fps fns :
  Pd.getitem df "tp" = Ok (SInt tps) -> Pd.getitem df "tn" = Ok (SInt tns) ->
  Pd.getitem df "fp" = Ok (SInt fps) -> Pd.getitem df "fn" = Ok (SInt fns) ->
  exists df', get_scores df = Ok df' /\
    forall i tp tn fp fn,
      tps !! i = Some tp -> tns !! i = Some tn ->
      fps !! i = Some fp -> fns !! i = Some fn ->
      0 <= tp -> 0 <= tn -> 0 <= fp -> 0 <= fn ->
      tp + tn + fp + fn <= Np.max_int64 ->
      exists r, row_of df' i = Some r /\
        (Np.isnan (rs_accuracy r) = true <-> tp + tn + fp + fn = 0).
Proof.
  intros Htp Htn Hfp Hfn.
  destruct (get_scores_cells df tps tns fps fns Htp Htn Hfp Hfn) as (df' & Hs & Hrow).
  exists df'. split; [exact Hs|].
  intros i tp tn fp fn H1 H2 H3 H4 P1 P2 P3 P4 Hmax.
  exists (scores_of_counts tp tn fp fn). split; [now apply Hrow|].
  simpl. unfold accuracy_cell.
  rewrite (iadd_small tp tn), (iadd_small (tp + tn) fp),
    (iadd_small (tp + tn + fp) fn)
    by (unfold Np.min_int64, Np.max_int64 in *; lia).
  split.
  - intros Hnan.
    destruct (Z.eq_dec (tp + tn + fp + fn) 0) as [?|Hne]; [assumption|exfalso].
    destruct (of_int_finite (tp + tn + fp + fn)) as (my & ey & Ey); [lia|].
    rewrite Ey in Hnan.
    destruct (Z.eq_dec (tp + tn) 0) as [E0|Hne0].
    + rewrite E0 in Hnan. vm_compute in Hnan. discriminate.
    + destruct (of_int_finite (tp + tn)) as (mx & ex & Ex); [lia|].
      rewrite Ex in Hnan.
      pose proof (fdiv_finite_not_nan false mx ex false my ey) as N.
      destruct (Np.fdiv _ _); try discriminate. now apply N.
  - intros H0. assert (tp + tn = 0) by lia.
    replace (tp + tn + fp + fn) with 0 by lia. replace (tp + tn) with 0 by lia.
    reflexivity.
Qed.

Lemma get_scores_accuracy_nan_iff_empty_row_witness :
  exists r1 r2,
    scores_at Demo.agg_table 0 = Some r1 /\ Np.isnan (rs_accuracy r1) = false /\
    scores_at Demo.agg_table 1 = Some r2 /\ Np.isnan (rs_accuracy r2) = true.
Proof.
  destruct (get_scores_accuracy_nan_iff_empty_row
              Demo.agg_table [8; 0] [7; 0] [3; 0] [2; 0]
              eq_refl eq_refl eq_refl eq_refl) as (df' & Hs & Hrow).
  destruct (Hrow 0%nat 8 7 3 2 eq_refl eq_refl eq_refl eq_refl)
    as (r1 & Hr1 & Hiff1); try lia; [vm_compute; discriminate|].
  destruct (Hrow 1%nat 0 0 0 0 eq_refl eq_refl eq_refl eq_refl)
    as (r2 & Hr2 & Hiff2); try lia; [vm_compute; discriminate|].
  exists r1, r2. unfold scores_at. rewrite Hs.
  repeat split; try assumption.
  - destruct (Np.isnan (rs_accuracy r1)); [|reflexivity].
    pose proof (proj1 Hiff1 eq_refl) as F. discriminate F.
  - apply Hiff2. reflexivity.
Defined.

(** ** The finalizer: outcome, frame, edge values *)

Lemma finalize_Ok_summaries thr r_i r_i' :
  finalize thr r_i = Ok r_i' -> has_summaries r_i.
Proof.
  unfold finalize. intros H.
  apply bind_Ok in H. destruct H as (col & Hcol & _).
  destruct (final_parameter_elements thr _ _ Hcol)
    as (mean & mn & ip & H1 & H2 & H3 & _).
  repeat split; apply has_column_In; eapply getitem_Ok_In; eassumption.
Qed.

Lemma final_parameter_frame thr (df : Frame (list float64)) c :
  final_parameter thr (Pd.setitem df "final_parameter" c) = final_parameter thr df.
Proof.
  unfold final_parameter.
  now rewrite !getitem_setitem_ne by discriminate.
Qed.

Lemma setitem_setitem {C} (df : Frame C) k c c' :
  Pd.setitem (Pd.setitem df k c) k c' = Pd.setitem df k c'.
Proof.
  induction df as [|[k0 c0] df IH]; simpl.
  - now rewrite String.eqb_refl.
  - destruct (String.eqb k0 k) eqn:E; simpl; rewrite E; [reflexivity|].
    now rewrite IH.
Qed.

Lemma finalize_other_columns thr r_i r_i' k :
  finalize thr r_i = Ok r_i' -> k <> "final_parameter"%string ->
  Pd.getitem (params r_i') k = Pd.getitem (params r_i) k.
Proof.
  unfold finalize. intros H Hk.
  apply bind_Ok in H. destruct H as (col & _ & H). injection H as <-.
  simpl. apply getitem_setitem_ne. congruence.
Qed.

(** X6. The finalizer succeeds exactly on a sub-result that has the
    columns [mean], [mean_nonzero] and [inclusion_prob]; otherwise it
    raises the [KeyError] of the first one missing in the order
    [mean_nonzero], [mean], [inclusion_prob]. When it succeeds it
    writes [final_parameter] and nothing else: [y] and every other
    column are as before, and finalizing the outcome again returns
    it unchanged. *)
Theorem finalize_outcome thr r_i :
  (has_summaries r_i <-> exists r_i', finalize thr r_i = Ok r_i') /\
  (forall r_i',
     finalize thr r_i = Ok r_i' ->
     y r_i' = y r_i /\
     (forall k, k <> "final_parameter"%string ->
                Pd.getitem (params r_i') k = Pd.getitem (params r_i) k) /\
     finalize thr r_i' = Ok r_i') /\
  (Pd.has_column (params r_i) "mean_nonzero" = false ->
   finalize thr r_i = Raise (KeyError "mean_nonzero")) /\
  (Pd.has_column (params r_i) "mean_nonzero" = true ->
   Pd.has_column (params r_i) "mean" = false ->
   finalize thr r_i = Raise (KeyError "mean")) /\
  (Pd.has_column (params r_i) "mean_nonzero" = true ->
   Pd.has_column (params r_i) "mean" = true ->
   Pd.has_column (params r_i) "inclusion_prob" = false ->
   finalize thr r_i = Raise (KeyError "inclusion_prob")).
Proof.
  assert (Hmiss : forall k, Pd.has_column (params r_i) k = false ->
                    Pd.getitem (params r_i) k = Raise (KeyError k)).
  { intros k H. apply getitem_missing. intros Hin.
    apply has_column_In in Hin. congruence. }
  split; [|split; [|split; [|split]]].
  - split; [apply finalize_total|].
    intros (r_i' & H). exact (finalize_Ok_summaries thr r_i r_i' H).
  - intros r_i' H. unfold finalize in H.
    apply bind_Ok in H. destruct H as (col & Hcol & H). injection H as <-.
    simpl. split; [reflexivity|]. split.
    + intros k Hk. apply getitem_setitem_ne. congruence.
    + unfold finalize. simpl.
      rewrite final_parameter_frame, Hcol. simpl.
      now rewrite setitem_setitem.
  - intros H. now apply finalize_missing_column.
  - intros H1 H2. destruct (getitem_has_column _ _ H1) as (mn & Hmn).
    unfold finalize, final_parameter. now rewrite Hmn, (Hmiss _ H2).
  - intros H1 H2 H3. destruct (getitem_has_column _ _ H1) as (mn & Hmn).
    destruct (getitem_has_column _ _ H2) as (mean & Hmean).
    unfold finalize, final_parameter. now rewrite Hmn, Hmean, (Hmiss _ H3).
Qed.

Lemma finalize_outcome_witness :
  finalize default_custom_threshold Example.finalized_sub_result
  = Ok Example.finalized_sub_result /\
  finalize default_custom_threshold Example.dense_sub_result
  = Raise (KeyError "mean_nonzero").
Proof.
  split.
  - destruct (finalize_outcome default_custom_threshold Example.sub_result)
      as (_ & H & _).
    apply (H Example.finalized_sub_result). reflexivity.
  - destruct (finalize_outcome default_custom_threshold Example.dense_sub_result)
      as (_ & _ & H & _).
    apply H. reflexivity.
Defined.

Lemma gt_nan_l thr : Np.gt S754_nan thr = false.
Proof. unfold Np.gt, SFltb, SFcompare. now destruct thr. Qed.

Lemma gt_nan_r p : Np.gt p S754_nan = false.
Proof. unfold Np.gt, SFltb, SFcompare. now destruct p. Qed.

Lemma isnan_true x : Np.isnan x = true -> x = S754_nan.
Proof. unfold Np.isnan. destruct x; congruence. Qed.

(** X7. Undefined values in the finalizer. An element of
    [final_parameter] is NaN exactly where [mean_nonzero] and [mean]
    are both NaN. Where [mean_nonzero] is defined, a NaN inclusion
    probability, or a NaN threshold, gives 0: the comparison with the
    threshold is false. *)
Theorem final_parameter_undefined_values thr r_i r_i' :
  finalize thr r_i = Ok r_i' ->
  exists mean mean_nonzero inclusion_prob col,
    Pd.getitem (params r_i) "mean" = Ok mean /\
    Pd.getitem (params r_i) "mean_nonzero" = Ok mean_nonzero /\
    Pd.getitem (params r_i) "inclusion_prob" = Ok inclusion_prob /\
    Pd.getitem (params r_i') "final_parameter" = Ok col /\
    forall i m z p,
      mean !! i = Some m -> mean_nonzero !! i = Some z ->
      inclusion_prob !! i = Some p ->
      exists v, col !! i = Some v /\
        (Np.isnan v = true <-> Np.isnan z = true /\ Np.isnan m = true) /\
        (Np.isnan z = false -> Np.isnan p = true -> v = Np.zero) /\
        (Np.isnan z = false -> Np.isnan thr = true -> v = Np.zero).
Proof.
  intros H.
  pose proof (fun k => finalize_other_columns thr r_i r_i' k H) as Hother.
  apply finalize_finalized in H. destruct H as [H _].
  destruct H as (mean & mn & ip & col & H1 & H2 & H3 & H4 & _ & Hrows).
  exists mean, mn, ip, col.
  rewrite <- (Hother "mean"%string), <- (Hother "mean_nonzero"%string),
    <- (Hother "inclusion_prob"%string) by discriminate.
  repeat split; try assumption.
  intros i m z p Hm Hz Hp. exists (final_cell thr m z p).
  split; [now apply Hrows|]. unfold final_cell.
  split; [|split].
  - destruct (Np.isnan z) eqn:Ez.
    + tauto.
    + split; [|intros [? _]; discriminate].
      destruct (Np.gt p thr); [congruence | discriminate].
  - intros -> Hp'. apply isnan_true in Hp'. subst p. now rewrite gt_nan_l.
  - intros -> Ht. apply isnan_true in Ht. subst thr. now rewrite gt_nan_r.
Qed.

Lemma final_parameter_undefined_values_witness :
  exists col,
    Pd.getitem (params Example.finalized_sub_result) "final_parameter" = Ok col /\
    exists v, col !! 1%nat = Some v /\ Np.isnan v = false.
Proof.
  destruct (final_parameter_undefined_values default_custom_threshold
              Example.sub_result Example.finalized_sub_result eq_refl)
    as (mean & mn & ip & col & H1 & H2 & H3 & H4 & Hrows).
  exists col. split; [exact H4|].
  injection H1 as <-. injection H2 as <-. injection H3 as <-.
  destruct (Hrows 1%nat Example.f_1 Np.nan Example.f_0_9 eq_refl eq_refl eq_refl)
    as (v & Hv & Hiff & _).
  exists v. split; [exact Hv|].
  destruct (Np.isnan v); [|reflexivity].
  destruct (proj1 Hiff eq_refl) as [_ F]. discriminate F.
Defined.

(** ** The multi-model finalizer *)








(** ** The loop over the directory listing *)

Lemma prefix_spec sub s :
  String.prefix sub s = true <-> exists post, s = sub +:+ post.
Proof.
  revert s. induction sub as [|a sub IH]; intros s.
  - split; [intros _; now exists s | now destruct s].
  - destruct s as [|b s]; simpl.
    + split; [discriminate | intros (post & H); discriminate].
    + destruct (Ascii.ascii_dec a b) as [Hab|Hab].
      * split.
        -- intros H. apply IH in H. destruct H as (post & ->).
           exists post. now subst.
        -- intros (post & H). simpl in H. injection H as _ H.
           apply IH. now exists post.
      * split; [discriminate | intros (post & H); injection H as E _; congruence].
Qed.

Lemma contains_unfold sub s :
  contains sub s
  = String.prefix sub s
    || match s with EmptyString => false | String _ s' => contains sub s' end.
Proof. now destruct s. Qed.

Lemma contains_spec sub s :
  contains sub s = true <-> exists pre post, s = pre +:+ sub +:+ post.
Proof.
  induction s as [|a s IH]; rewrite contains_unfold, orb_true_iff.
  - split.
    + intros [H|H]; [|discriminate]. apply prefix_spec in H.
      destruct H as (post & H). now exists EmptyString, post.
    + intros (pre & post & H). left. apply prefix_spec.
      destruct pre; [|discriminate]. now exists post.
  - split.
    + intros [H|H].
      * apply prefix_spec in H. destruct H as (post & H).
        now exists EmptyString, post.
      * apply IH in H. destruct H as (pre & post & H).
        exists (String a pre), post. rewrite H. reflexivity.
    + intros (pre & post & H). destruct pre as [|b pre].
      * left. apply prefix_spec. now exists post.
      * right. apply IH. exists pre, post. now injection H.
Qed.

Lemma collect_first_failure {A B} (f : A -> result B) pre x post e :
  (forall x0, In x0 pre -> exists y0, f x0 = Ok y0) ->
  f x = Raise e ->
  collect f (pre ++ x :: post) = Raise e.
Proof.
  intros Hpre Hx. induction pre as [|x0 pre IH]; simpl.
  - now rewrite Hx.
  - destruct (Hpre x0 (or_introl eq_refl)) as (y0 & ->). simpl.
    rewrite IH; [reflexivity|]. intros; apply Hpre; now right.
Qed.

Lemma collect_ext_In {A B} (f g : A -> result B) l :
  (forall x, In x l -> f x = g x) -> collect f l = collect g l.
Proof.
  intros H. induction l as [|x l IH]; simpl; [reflexivity|].
  rewrite (H x) by now left. rewrite IH; [reflexivity|].
  intros; apply H; now right.
Qed.

(** X9. What a successful call returns. The runs are those of the
    files whose name contains the identifier, in the order of the
    directory listing, each one loaded, finalized and passed through
    the discovery-rate method (and stripped of its raw payload unless
    results are kept); there is at least one; and the raw table is the
    rows of their parameter tables, in that order, stringified. This
    holds for either discovery-rate method, hence for
    [multi_run_study_analysis_prepare_per_param] as well. *)
Theorem prepare_returns_matching_runs_in_order
    (float_repr : float64 -> string)
    (listdir : string -> result (list string))
    (renamed_load : string -> result Simulation)
    (discovery : Simulation -> result Simulation)
    path fid thr keep rs raw agg :
  multi_run_study_analysis_prepare
    float_repr listdir renamed_load discovery path fid thr keep
  = Ok (rs, raw, agg) ->
  exists files,
    listdir path = Ok files /\
    Forall2
      (fun f r =>
         exists r0 r1 r2,
           renamed_load (path +:+ "/" +:+ f) = Ok r0 /\
           finalize_run (default default_custom_threshold thr) r0 = Ok r1 /\
           discovery r1 = Ok r2 /\
           r = if default false keep then r2 else discard_raw r2)
      (List.filter (contains (default "result_"%string fid)) files) rs /\
    rs <> [] /\
    raw = map (astype_str float_repr) (concat (map parameters rs)).
Proof.
  intros H. apply prepare_Ok in H. destruct H as (files & Hfiles & Hrs & Hagg).
  exists files. split; [assumption|].
  apply aggregate_raw in Hagg. destruct Hagg as (Hne & Hraw & _).
  split; [|split; [|assumption]].
  - apply collect_Forall2 in Hrs.
    eapply Forall2_impl; [exact Hrs|].
    intros f r Hf. unfold process_file in Hf.
    apply bind_Ok in Hf. destruct Hf as (r0 & H0 & Hf).
    apply bind_Ok in Hf. destruct Hf as (r1 & H1 & Hf).
    apply bind_Ok in Hf. destruct Hf as (r2 & H2 & Hf). injection Hf as <-.
    exists r0, r1, r2. auto.
  - intros ->. now apply Hne.
Qed.

Lemma prepare_returns_matching_runs_in_order_witness :
  exists rs raw agg,
    multi_run_study_analysis_prepare_per_param
      Example.float_repr Example.listdir Example.renamed_load
      Example.get_discovery_rates "study" None None None
    = Ok (rs, raw, agg) /\
    length rs = 2%nat /\ length raw = 2%nat.
Proof.
  eexists _, _, _. split; [reflexivity|].
  destruct (prepare_returns_matching_runs_in_order
              Example.float_repr Example.listdir Example.renamed_load
              Example.get_discovery_rates "study" None None None _ _ _ eq_refl)
    as (files & Hfiles & Hrs & _ & Hraw).
  split; reflexivity.
Defined.

(** X10. One bad file aborts the batch. When a file whose name
    contains the identifier fails to load, to finalize or in the
    discovery-rate method, and the matching files listed before it
    went through, the call raises that file's error, whatever is
    listed after it: no run and no table is returned. *)
Theorem prepare_first_failure_aborts
    (float_repr : float64 -> string)
    (listdir : string -> result (list string))
    (renamed_load : string -> result Simulation)
    (discovery : Simulation -> result Simulation)
    path fid thr keep before f after e :
  listdir path = Ok (before ++ f :: after) ->
  contains (default "result_"%string fid) f = true ->
  (forall g, In g before -> contains (default "result_"%string fid) g = true ->
     exists r0 r1 r2,
       renamed_load (path +:+ "/" +:+ g) = Ok r0 /\
       finalize_run (default default_custom_threshold thr) r0 = Ok r1 /\
       discovery r1 = Ok r2) ->
  (r0 ← renamed_load (path +:+ "/" +:+ f);
   r1 ← finalize_run (default default_custom_threshold thr) r0;
   discovery r1) = Raise e ->
  multi_run_study_analysis_prepare
    float_repr listdir renamed_load discovery path fid thr keep
  = Raise e.
Proof.
  intros Hfiles Hf Hbefore Hfail.
  rewrite prepare_unfold, Hfiles. simpl.
  rewrite List.filter_app. simpl. rewrite Hf.
  rewrite (collect_first_failure _ _ f _ e); [reflexivity| |].
  - intros g Hg. apply List.filter_In in Hg. destruct Hg as [Hg Hc].
    destruct (Hbefore g Hg Hc) as (r0 & r1 & r2 & H0 & H1 & H2).
    unfold process_file. rewrite H0. simpl. rewrite H1. simpl. rewrite H2.
    simpl. eauto.
  - unfold process_file.
    destruct (renamed_load _) as [r0|e0]; simpl in *; [|assumption].
    destruct (finalize_run _ r0) as [r1|e1]; simpl in *; [|assumption].
    now rewrite Hfail.
Qed.

Lemma prepare_first_failure_aborts_witness :
  multi_run_study_analysis_prepare
    Example.float_repr Demo.broken_listdir Example.renamed_load
    Example.get_discovery_rates "study" None None None
  = Raise UnpicklingError.
Proof.
  apply (prepare_first_failure_aborts _ _ _ _ "study" None None None
           ["result_a"; "notes.md"]%string "result_broken"%string
           ["old_result_b"]%string).
  - reflexivity.
  - reflexivity.
  - intros g [<-|[<-|[]]] Hc; [|discriminate Hc].
    eexists _, _, _. repeat split; reflexivity.
  - reflexivity.
Defined.

(** X11. Only files whose name contains the identifier are opened.
    Two loaders that agree on the paths [path/name], for the listed
    names of the form [pre ++ identifier ++ post], give the same
    outcome, runs, tables or error: what the loader would do with any
    other file of the directory is never observed. *)
Theorem prepare_opens_matching_files_only
    (float_repr : float64 -> string)
    (listdir : string -> result (list string))
    (load1 load2 : string -> result Simulation)
    (discovery : Simulation -> result Simulation)
    path fid thr keep :
  (forall files pre post,
     listdir path = Ok files ->
     In (pre +:+ default "result_"%string fid +:+ post) files ->
     load1 (path +:+ "/" +:+ pre +:+ default "result_"%string fid +:+ post)
     = load2 (path +:+ "/" +:+ pre +:+ default "result_"%string fid +:+ post)) ->
  multi_run_study_analysis_prepare
    float_repr listdir load1 discovery path fid thr keep
  = multi_run_study_analysis_prepare
      float_repr listdir load2 discovery path fid thr keep.
Proof.
  intros Hagree. rewrite !prepare_unfold.
  destruct (listdir path) as [files|e] eqn:Hfiles; simpl; [|reflexivity].
  rewrite (collect_ext_In
             (process_file load1 discovery path
                (default default_custom_threshold thr) (default false keep))
             (process_file load2 discovery path
                (default default_custom_threshold thr) (default false keep)));
    [reflexivity|].
  intros f Hf. apply List.filter_In in Hf. destruct Hf as [Hin Hc].
  apply contains_spec in Hc. destruct Hc as (pre & post & ->).
  unfold process_file. now rewrite (Hagree files pre post eq_refl Hin).
Qed.

Lemma prepare_opens_matching_files_only_witness :
  multi_run_study_analysis_prepare
    Example.float_repr Example.listdir Demo.eager_load
    Example.get_discovery_rates "study" None None None
  = multi_run_study_analysis_prepare
      Example.float_repr Example.listdir Example.renamed_load
      Example.get_discovery_rates "study" None None None.
Proof.
  apply prepare_opens_matching_files_only.
  intros files pre post Hfiles Hin. injection Hfiles as <-.
  destruct Hin as [H|[H|[H|[]]]]; rewrite <- H; try reflexivity.
  assert (E : contains "result_" "readme.txt" = true)
    by (apply contains_spec; exists pre, post; exact H).
  discriminate E.
Defined.

(** ** The multi-model loop over the directory listing *)

(** X12. The batch behaviour of the multi-model variant. A successful
    call returns the runs of the files whose name contains the
    identifier, in listing order, each loaded, finalized and passed
    through the discovery-rate method, with the stringified rows of
    their parameter tables as raw table; without any matching file the
    call fails with the error of [pd.concat]; and the first matching
    file that fails aborts the call with its error. *)
Theorem multi_model_batch_outcome
    (float_repr : float64 -> string)
    (listdir : string -> result (list string))
    (renamed_load : string -> result MultiModel.Simulation)
    (get_discovery_rates : MultiModel.Simulation -> result MultiModel.Simulation)
    path fid thr keep :
  (forall rs raw agg,
     multi_run_study_analysis_multi_model_prepare
       float_repr listdir renamed_load get_discovery_rates path fid thr keep
     = Ok (rs, raw, agg) ->
     exists files,
       listdir path = Ok files /\
       Forall2
         (fun f r =>
            exists r0 r1 r2,
              renamed_load (path +:+ "/" +:+ f) = Ok r0 /\
              mm_finalize_run (default default_custom_threshold thr) r0 = Ok r1 /\
              get_discovery_rates r1 = Ok r2 /\
              r = if default false keep then r2 else mm_discard_raw r2)
         (List.filter (contains (default "result_"%string fid)) files) rs /\
       rs <> [] /\
       raw = map (astype_str float_repr) (concat (map MultiModel.parameters rs))) /\
  (forall files,
     listdir path = Ok files ->
     (forall f, In f files -> contains (default "result_"%string fid) f = false) ->
     multi_run_study_analysis_multi_model_prepare
       float_repr listdir renamed_load get_discovery_rates path fid thr keep
     = Raise (ValueError "No objects to concatenate")) /\
  (forall before f after e,
     listdir path = Ok (before ++ f :: after) ->
     contains (default "result_"%string fid) f = true ->
     (forall g, In g before -> contains (default "result_"%string fid) g = true ->
        exists r0 r1 r2,
          renamed_load (path +:+ "/" +:+ g) = Ok r0 /\
          mm_finalize_run (default default_custom_threshold thr) r0 = Ok r1 /\
          get_discovery_rates r1 = Ok r2) ->
     (r0 ← renamed_load (path +:+ "/" +:+ f);
      r1 ← mm_finalize_run (default default_custom_threshold thr) r0;
      get_discovery_rates r1) = Raise e ->
     multi_run_study_analysis_multi_model_prepare
       float_repr listdir renamed_load get_discovery_rates path fid thr keep
     = Raise e).
Proof.
  rewrite mm_prepare_unfold. split; [|split].
  - intros rs raw agg H.
    apply bind_Ok in H. destruct H as (files & Hfiles & H).
    apply bind_Ok in H. destruct H as (rs' & Hrs & H).
    apply bind_Ok in H. destruct H as ([raw' agg'] & Hagg & H).
    injection H as <- <- <-.
    exists files. split; [assumption|].
    apply aggregate_raw in Hagg. destruct Hagg as (Hne & Hraw & _).
    split; [|split; [|assumption]].
    + apply collect_Forall2 in Hrs.
      eapply Forall2_impl; [exact Hrs|].
      intros f r Hf. unfold mm_process_file in Hf.
      apply bind_Ok in Hf. destruct Hf as (r0 & H0 & Hf).
      apply bind_Ok in Hf. destruct Hf as (r1 & H1 & Hf).
      apply bind_Ok in Hf. destruct Hf as (r2 & H2 & Hf). injection Hf as <-.
      exists r0, r1, r2. auto.
    + intros ->. now apply Hne.
  - intros files Hfiles Hnone. rewrite Hfiles. simpl.
    rewrite collect_nil_filter by assumption. reflexivity.
  - intros before f after e Hfiles Hf Hbefore Hfail.
    rewrite Hfiles. simpl.
    rewrite List.filter_app. simpl. rewrite Hf.
    rewrite (collect_first_failure _ _ f _ e); [reflexivity| |].
    + intros g Hg. apply List.filter_In in Hg. destruct Hg as [Hg Hc].
      destruct (Hbefore g Hg Hc) as (r0 & r1 & r2 & H0 & H1 & H2).
      unfold mm_process_file. rewrite H0. simpl. rewrite H1. simpl. rewrite H2.
      simpl. eauto.
    + unfold mm_process_file.
      destruct (renamed_load _) as [r0|e0]; simpl in *; [|assumption].
      destruct (mm_finalize_run _ r0) as [r1|e1]; simpl in *; [|assumption].
      now rewrite Hfail.
Qed.

Lemma multi_model_batch_outcome_witness :
  multi_run_study_analysis_multi_model_prepare
    Example.float_repr Demo.broken_listdir Demo.mm_broken_load
    Example.mm_get_discovery_rates "study" None None None
  = Raise (KeyError "mean") /\
  multi_run_study_analysis_multi_model_prepare
    Example.float_repr Example.empty_listdir Example.mm_renamed_load
    Example.mm_get_discovery_rates "study" None None None
  = Raise (ValueError "No objects to concatenate").
Proof.
  split.
  - destruct (multi_model_batch_outcome
                Example.float_repr Demo.broken_listdir Demo.mm_broken_load
                Example.mm_get_discovery_rates "study" None None None)
      as (_ & _ & H).
    apply (H ["result_a"; "notes.md"]%string "result_broken"%string
             ["old_result_b"]%string).
    + reflexivity.
    + reflexivity.
    + intros g [<-|[<-|[]]] Hc; [|discriminate Hc].
      eexists _, _, _. repeat split; reflexivity.
    + reflexivity.
  - destruct (multi_model_batch_outcome
                Example.float_repr Example.empty_listdir Example.mm_renamed_load
                Example.mm_get_discovery_rates "study" None None None)
      as (_ & H & _).
    apply (H ["readme.txt"; "results.csv"]%string); [reflexivity|].
    intros f [<-|[<-|[]]]; reflexivity.
Defined.

(** ** The aggregated table *)

Lemma sorted_groups_NoDup groups :
  sorted_groups groups -> NoDup (map fst groups).
Proof.
  induction groups as [|[k v] groups IH]; simpl; [constructor|].
  intros [Hlt Hs]. constructor; [|auto].
  intros Hin. apply list_elem_of_In, in_map_iff in Hin.
  destruct Hin as ([k' v'] & Hk & Hin).
  simpl in Hk. subst k'.
  rewrite List.Forall_forall in Hlt. specialize (Hlt _ Hin).
  unfold key_lt in Hlt. simpl in Hlt. now apply key_lt_neq in Hlt.
Qed.

Lemma reset_index_In groups g :
  In g (reset_index groups) <-> In (sim g, num g) groups.
Proof.
  unfold reset_index. rewrite in_map_iff. split.
  - intros ([k v] & <- & Hin). exact Hin.
  - intros Hin. exists (sim g, num g). split; [now destruct g | assumption].
Qed.

Lemma group_total_Some_In k rows v :
  group_total k rows = Some v -> exists row, In row rows /\ sim row = k.
Proof.
  unfold group_total.
  assert (G : forall acc,
             fold_left (fun acc row =>
                          if bool_decide (sim row = k)
                          then add_opt acc (Some (num row)) else acc) rows acc
             = Some v ->
             acc = None -> exists row, In row rows /\ sim row = k).
  { induction rows as [|row rows IH]; intros acc H Hacc; simpl in H.
    - congruence.
    - destruct (bool_decide (sim row = k)) eqn:E.
      + apply bool_decide_eq_true in E. exists row. split; [now left | assumption].
      + destruct (IH acc H Hacc) as (row' & Hin & Hk).
        exists row'. split; [now right | assumption]. }
  intros H. now apply (G None).
Qed.

(** X13. The aggregated table, row by row. Its rows are in strictly
    increasing order of the stringified parameter tuple, so no tuple
    occurs twice; a row belongs to it exactly when its numeric cells
    are the sum of the raw rows with its tuple; and every tuple of the
    raw table has its row. *)
Theorem aggregated_table_rows (float_repr : float64 -> string) tables raw agg :
  aggregate float_repr tables = Ok (raw, agg) ->
  sorted_groups (set_index agg) /\
  NoDup (map sim agg) /\
  (forall g, In g agg <-> group_total (sim g) raw = Some (num g)) /\
  (forall g, In g agg -> exists row, In row raw /\ sim row = sim g) /\
  (forall row, In row raw -> exists g, In g agg /\ sim g = sim row).
Proof.
  intros H. apply aggregate_raw in H. destruct H as (_ & _ & ->).
  pose proof (groupby_sum_sorted raw) as Hs.
  assert (Hiff : forall g, In g (reset_index (groupby_sum raw)) <->
                           group_total (sim g) raw = Some (num g)).
  { intros g. rewrite reset_index_In, <- lookup_groupby_sum. split.
    - now apply In_lookup_group.
    - apply lookup_group_In. }
  rewrite set_index_reset_index.
  split; [assumption|]. split; [|split; [assumption|split]].
  - replace (map sim (reset_index (groupby_sum raw)))
      with (map fst (groupby_sum raw)).
    + now apply sorted_groups_NoDup.
    + unfold reset_index. rewrite map_map. reflexivity.
  - intros g Hg. apply Hiff in Hg. now apply group_total_Some_In in Hg.
  - intros row Hrow.
    destruct (group_total_In (sim row) raw row Hrow eq_refl) as [v Hv].
    exists {| sim := sim row; num := v |}. split; [|reflexivity].
    apply Hiff. exact Hv.
Qed.

Lemma aggregated_table_rows_witness :
  exists raw agg,
    aggregate Example.float_repr
      [[Example.row 1 [1; 2]; Example.row_other 5 [10; 20]];
       [Example.row 9 [100; 200]]] = Ok (raw, agg) /\
    map num agg = [[10; 20]; [101; 202]] /\
    NoDup (map sim agg).
Proof.
  destruct (aggregate Example.float_repr
              [[Example.row 1 [1; 2]; Example.row_other 5 [10; 20]];
               [Example.row 9 [100; 200]]]) as [[raw agg]|e] eqn:E;
    [|discriminate E].
  exists raw, agg. split; [reflexivity|].
  split; [now injection E as <- <-|].
  exact (proj1 (proj2 (aggregated_table_rows Example.float_repr _ _ _ E))).
Defined.

(** ** Order of the files *)

Lemma iadd_comm a b : Np.iadd a b = Np.iadd b a.
Proof. unfold Np.iadd. now rewrite Z.add_comm. Qed.

Lemma add_nums_comm a b : add_nums a b = add_nums b a.
Proof.
  unfold add_nums. revert b. induction a as [|x a IH]; intros [|y b0]; simpl;
    try reflexivity.
  now rewrite iadd_comm, IH.
Qed.

Lemma add_opt_comm a b : add_opt a b = add_opt b a.
Proof.
  destruct a, b; simpl; try reflexivity. now rewrite add_nums_comm.
Qed.

Lemma add_opt_None_l a : add_opt None a = a.
Proof. reflexivity. Qed.

Lemma group_total_cons k row rows :
  group_total k (row :: rows)
  = add_opt (if bool_decide (sim row = k) then Some (num row) else None)
            (group_total k rows).
Proof.
  change (row :: rows) with ([row] ++ rows). rewrite group_total_app.
  f_equal.
Qed.

Lemma group_total_Permutation k rows rows' :
  Permutation rows rows' -> group_total k rows = group_total k rows'.
Proof.
  induction 1 as [|x l l' _ IH|x x' l|l l' l'' _ IH1 _ IH2].
  - reflexivity.
  - now rewrite !group_total_cons, IH.
  - rewrite !group_total_cons, <- !add_opt_assoc. f_equal. apply add_opt_comm.
  - congruence.
Qed.

Lemma groupby_sum_Permutation rows rows' :
  Permutation rows rows' -> groupby_sum rows = groupby_sum rows'.
Proof.
  intros H. apply sorted_groups_ext; try apply groupby_sum_sorted.
  intros k. rewrite !lookup_groupby_sum. now apply group_total_Permutation.
Qed.

Lemma concat_Permutation {A} (l l' : list (list A)) :
  Permutation l l' -> Permutation (concat l) (concat l').
Proof.
  induction 1 as [|x l l' _ IH|x x' l|l l' l'' _ IH1 _ IH2]; simpl.
  - constructor.
  - now apply Permutation_app_head.
  - rewrite !app_assoc. apply Permutation_app_tail, Permutation_app_comm.
  - now transitivity (concat l').
Qed.

Lemma aggregate_Permutation float_repr tables tables' raw agg :
  Permutation tables tables' ->
  aggregate float_repr tables = Ok (raw, agg) ->
  exists raw', aggregate float_repr tables' = Ok (raw', agg) /\
               Permutation raw raw'.
Proof.
  intros Hp H. apply aggregate_raw in H. destruct H as (Hne & -> & ->).
  unfold aggregate, pd_concat.
  destruct tables' as [|t' tables'].
  - apply Permutation_nil_r in Hp. contradiction.
  - cbn [mbind result_bind]. eexists. split.
    + f_equal. f_equal. f_equal. apply groupby_sum_Permutation.
      apply Permutation_map. apply concat_Permutation.
      symmetry. exact Hp.
    + apply Permutation_map. now apply concat_Permutation.
Qed.

Lemma collect_Permutation {A B} (f : A -> result B) l l' ys :
  Permutation l l' -> collect f l = Ok ys ->
  exists ys', collect f l' = Ok ys' /\ Permutation ys ys'.
Proof.
  intros Hp. revert ys.
  induction Hp as [|x l l' _ IH|x x' l|l l' l'' _ IH1 _ IH2]; intros ys H.
  - exists ys. split; [assumption | reflexivity].
  - simpl in H. apply bind_Ok in H. destruct H as (y0 & Hy & H).
    apply bind_Ok in H. destruct H as (ys0 & Hys & H). injection H as <-.
    destruct (IH ys0 Hys) as (ys' & Hys' & Hperm).
    exists (y0 :: ys'). simpl. rewrite Hy, Hys'. split; [reflexivity|].
    now constructor.
  - simpl in H. apply bind_Ok in H. destruct H as (y0 & Hy & H).
    apply bind_Ok in H. destruct H as (ys0 & Hys & H). injection H as <-.
    apply bind_Ok in Hys. destruct Hys as (y1 & Hy1 & H).
    apply bind_Ok in H. destruct H as (ys1 & Hys1 & H). injection H as <-.
    exists (y1 :: y0 :: ys1). simpl. rewrite Hy1, Hy, Hys1.
    split; [reflexivity | constructor].
  - destruct (IH1 ys H) as (ys' & Hys' & Hp1).
    destruct (IH2 ys' Hys') as (ys'' & Hys'' & Hp2).
    exists ys''. split; [assumption | now transitivity ys'].
Qed.

Lemma filter_Permutation {A} (p : A -> bool) l l' :
  Permutation l l' -> Permutation (List.filter p l) (List.filter p l').
Proof.
  induction 1 as [|x l l' _ IH|x x' l|l l' l'' _ IH1 _ IH2]; simpl.
  - constructor.
  - destruct (p x); [now constructor | assumption].
  - destruct (p x), (p x'); try reflexivity. constructor.
  - now transitivity (List.filter p l').
Qed.

(** X14. The aggregated table does not depend on the order of the
    files. When the directory is listed in another order and the call
    succeeds for the one listing, it succeeds for the other with the
    same aggregated table; the runs and the rows of the raw table are
    the same up to their order. The same holds for the aggregation of
    parameter tables given in another order. *)
Theorem aggregated_table_ignores_listing_order
    (float_repr : float64 -> string)
    (listdir listdir' : string -> result (list string))
    (renamed_load : string -> result Simulation)
    (discovery : Simulation -> result Simulation)
    path fid thr keep files files' rs raw agg :
  listdir path = Ok files ->
  listdir' path = Ok files' ->
  Permutation files files' ->
  multi_run_study_analysis_prepare
    float_repr listdir renamed_load discovery path fid thr keep
  = Ok (rs, raw, agg) ->
  exists rs' raw',
    multi_run_study_analysis_prepare
      float_repr listdir' renamed_load discovery path fid thr keep
    = Ok (rs', raw', agg) /\
    Permutation rs rs' /\ Permutation raw raw'.
Proof.
  intros Hfiles Hfiles' Hp H.
  apply prepare_Ok in H. destruct H as (files0 & Hfiles0 & Hrs & Hagg).
  rewrite Hfiles in Hfiles0. injection Hfiles0 as <-.
  rewrite prepare_unfold, Hfiles'. cbn [mbind result_bind].
  destruct (collect_Permutation _ _ _ _
              (filter_Permutation
                 (contains (default "result_"%string fid)) _ _ Hp) Hrs)
    as (rs' & Hrs' & Hprs).
  destruct (aggregate_Permutation float_repr _ (map parameters rs') _ _
              (Permutation_map parameters Hprs) Hagg)
    as (raw' & Hagg' & Hpraw).
  exists rs', raw'. rewrite Hrs'. cbn [mbind result_bind]. rewrite Hagg'.
  repeat split; assumption.
Qed.

Lemma aggregated_table_ignores_listing_order_witness :
  exists rs raw agg rs' raw',
    multi_run_study_analysis_prepare
      Example.float_repr Example.listdir Example.renamed_load
      Example.get_discovery_rates "study" None None None
    = Ok (rs, raw, agg) /\
    multi_run_study_analysis_prepare
      Example.float_repr Demo.reversed_listdir Example.renamed_load
      Example.get_discovery_rates "study" None None None
    = Ok (rs', raw', agg) /\
    Permutation rs rs'.
Proof.
  destruct (multi_run_study_analysis_prepare
              Example.float_repr Example.listdir Example.renamed_load
              Example.get_discovery_rates "study" None None None)
    as [[[rs raw] agg]|e] eqn:E; [|discriminate E].
  destruct (aggregated_table_ignores_listing_order
              Example.float_repr Example.listdir Demo.reversed_listdir
              Example.renamed_load Example.get_discovery_rates
              "study" None None None
              ["result_a"; "readme.txt"; "old_result_b"]%string
              ["old_result_b"; "readme.txt"; "result_a"]%string
              rs raw agg eq_refl eq_refl
              (Permutation_rev ["result_a"; "readme.txt"; "old_result_b"]%string)
              E)
    as (rs' & raw' & H & Hp & _).
  exists rs, raw, agg, rs', raw'. split; [reflexivity|]. split; assumption.
Defined.

(** ** Totals *)

Lemma column_totals_from rows acc :
  fold_left (fun acc row => add_opt acc (Some (num row))) rows acc
  = add_opt acc (column_totals rows).
Proof.
  unfold column_totals. revert acc.
  induction rows as [|row rows IH]; intros acc; simpl.
  - now rewrite add_opt_None_r.
  - rewrite IH, (IH (Some (num row))). now rewrite add_opt_assoc.
Qed.

Lemma column_totals_cons row rows :
  column_totals (row :: rows) = add_opt (Some (num row)) (column_totals rows).
Proof. unfold column_totals at 1. simpl. apply column_totals_from. Qed.

Lemma column_totals_add_to_groups k v groups :
  column_totals (reset_index (add_to_groups k v groups))
  = add_opt (Some v) (column_totals (reset_index groups)).
Proof.
  induction groups as [|[k' v'] groups IH].
  - reflexivity.
  - cbn [add_to_groups]. destruct (key_compare k k').
    + cbn [reset_index map]. rewrite !column_totals_cons. cbn [num fst snd].
      rewrite <- !add_opt_assoc. f_equal. cbn [add_opt].
      now rewrite add_nums_comm.
    + cbn [reset_index map]. now rewrite !column_totals_cons.
    + change (reset_index ((k', v') :: add_to_groups k v groups))
        with ({| sim := k'; num := v' |}
                :: reset_index (add_to_groups k v groups)).
      change (reset_index ((k', v') :: groups))
        with ({| sim := k'; num := v' |} :: reset_index groups).
      rewrite !column_totals_cons, IH. cbn [num].
      rewrite <- !add_opt_assoc. f_equal. apply add_opt_comm.
Qed.

Lemma column_totals_groupby_sum rows :
  column_totals (reset_index (groupby_sum rows)) = column_totals rows.
Proof.
  unfold groupby_sum.
  assert (G : forall groups,
             column_totals
               (reset_index
                  (fold_left (fun groups row =>
                                add_to_groups (sim row) (num row) groups)
                             rows groups))
             = add_opt (column_totals (reset_index groups))
                       (column_totals rows)).
  { induction rows as [|row rows IH]; intros groups; simpl.
    - now rewrite add_opt_None_r.
    - rewrite IH, column_totals_add_to_groups, column_totals_cons.
      rewrite <- add_opt_assoc. f_equal. apply add_opt_comm. }
  now rewrite G.
Qed.

(** X15. Aggregation loses nothing. The totals of the numeric columns
    (int64 sums) over the aggregated table are the totals over the raw
    table: every count of every run is in exactly one group. *)
Theorem aggregation_preserves_column_totals
    (float_repr : float64 -> string) tables raw agg :
  aggregate float_repr tables = Ok (raw, agg) ->
  column_totals agg = column_totals raw.
Proof.
  intros H. apply aggregate_raw in H. destruct H as (_ & _ & ->).
  apply column_totals_groupby_sum.
Qed.

Lemma aggregation_preserves_column_totals_witness :
  exists raw agg,
    aggregate Example.float_repr
      [[Example.row 1 [1; 2]; Example.row_other 5 [10; 20]];
       [Example.row 9 [100; 200]]] = Ok (raw, agg) /\
    column_totals agg = Some [111; 222].
Proof.
  destruct (aggregate Example.float_repr
              [[Example.row 1 [1; 2]; Example.row_other 5 [10; 20]];
               [Example.row 9 [100; 200]]]) as [[raw agg]|e] eqn:E;
    [|discriminate E].
  exists raw, agg. split; [reflexivity|].
  rewrite (aggregation_preserves_column_totals Example.float_repr _ _ _ E).
  now injection E as <- <-.
Defined.

(** ** Stringified integers *)

Lemma pretty_N_char_int d : is_int_char (pretty_N_char d) = true.
Proof.
  unfold pretty_N_char. destruct d as [|p]; [reflexivity|].
  do 4 (try destruct p as [p|p|]); reflexivity.
Qed.

Lemma pretty_N_go_chars x s :
  all_chars is_int_char s = true ->
  all_chars is_int_char (pretty_N_go x s) = true.
Proof.
  revert s. induction (N.lt_wf_0 x) as [x _ IH]; intros s Hs.
  destruct (N.eq_dec x 0%N) as [->|Hx].
  - now rewrite pretty_N_go_0.
  - rewrite pretty_N_go_step by lia. apply IH.
    + apply N.div_lt; lia.
    + simpl. now rewrite pretty_N_char_int, Hs.
Qed.

Lemma pretty_N_go_length x s :
  (String.length s <= String.length (pretty_N_go x s))%nat.
Proof.
  revert s. induction (N.lt_wf_0 x) as [x _ IH]; intros s.
  destruct (N.eq_dec x 0%N) as [->|Hx].
  - now rewrite pretty_N_go_0.
  - rewrite pretty_N_go_step by lia.
    etransitivity; [|apply IH; apply N.div_lt; lia]. simpl. lia.
Qed.

Lemma pretty_N_chars (x : N) :
  all_chars is_int_char (pretty x) = true /\ pretty x <> EmptyString.
Proof.
  unfold pretty, pretty_N. destruct (decide (x = 0%N)) as [->|Hx].
  - split; [reflexivity | discriminate].
  - split; [now apply pretty_N_go_chars|].
    rewrite pretty_N_go_step by lia. intros E.
    pose proof (pretty_N_go_length (x `div` 10)%N
                  (String (pretty_N_char (x `mod` 10)%N) EmptyString)) as L.
    rewrite E in L. simpl in L. lia.
Qed.

Lemma pretty_Z_chars (z : Z) :
  all_chars is_int_char (pretty z) = true /\ pretty z <> EmptyString.
Proof.
  unfold pretty, pretty_Z. destruct z as [|p|p].
  - split; [reflexivity | discriminate].
  - apply (pretty_N_chars (N.pos p)).
  - split; [|discriminate].
    change (all_chars is_int_char (String "-" (pretty (N.pos p))) = true).
    simpl. apply (pretty_N_chars (N.pos p)).
Qed.







Lemma py_str_PyInt_token float_repr z : int_token (py_str float_repr (PyInt z)).
Proof. apply pretty_Z_chars. Qed.






(** ** Count data of the case/control plots *)

Lemma attempt_bind_Returns {A B} (m : attempt A) (k : A -> attempt B) b :
  (x ← m; k x) = Returns b -> exists a, m = Returns a /\ k a = Returns b.
Proof. destruct m as [a|e]; simpl; [eauto | discriminate]. Qed.

Lemma slice_to_from {A} (n : Z) (a : list A) :
  slice_to n a ++ slice_from n a = a.
Proof. apply take_drop. Qed.

Lemma Permutation_app_middle {A} (a b c d : list A) :
  Permutation ((a ++ c) ++ (b ++ d)) ((a ++ b) ++ (c ++ d)).
Proof.
  rewrite <- !app_assoc. apply Permutation_app_head.
  rewrite !app_assoc. apply Permutation_app_tail, Permutation_app_comm.
Qed.

Lemma split_sub_results_rows r items controls_y cases_y controls cases :
  split_sub_results r items controls_y cases_y = Returns (controls, cases) ->
  exists controls' cases',
    controls = controls_y ++ controls' /\ cases = cases_y ++ cases' /\
    Permutation (controls' ++ cases')
                (concat (map (fun kv => y (snd kv)) items)).
Proof.
  revert controls_y cases_y.
  induction items as [|[i r_i] items IH]; intros controls_y cases_y H;
    simpl in H.
  - injection H as <- <-. exists [], []. rewrite !app_nil_r. now repeat split.
  - apply attempt_bind_Returns in H. destruct H as (row & _ & H).
    apply attempt_bind_Returns in H. destruct H as (v & _ & H).
    apply attempt_bind_Returns in H. destruct H as (n & _ & H).
    destruct (IH _ _ H) as (c' & s' & -> & -> & Hp).
    exists (slice_to n (y r_i) ++ c'), (slice_from n (y r_i) ++ s').
    split; [now rewrite app_assoc|]. split; [now rewrite app_assoc|].
    simpl. etransitivity; [apply Permutation_app_middle|].
    rewrite slice_to_from. now apply Permutation_app_head.
Qed.

Lemma get_count_data_rows py_eq identifier_w results controls_y cases_y
    controls cases :
  get_count_data py_eq identifier_w results controls_y cases_y
  = Returns (controls, cases) ->
  exists controls' cases',
    controls = controls_y ++ controls' /\ cases = cases_y ++ cases' /\
    Permutation (controls' ++ cases')
      (sample_rows (List.filter (selected py_eq identifier_w) results)).
Proof.
  revert controls_y cases_y.
  induction results as [|r results IH]; intros controls_y cases_y H;
    simpl in H.
  - injection H as <- <-. exists [], []. rewrite !app_nil_r. now repeat split.
  - apply attempt_bind_Returns in H. destruct H as (row & Hrow & H).
    assert (Hsel : selected py_eq identifier_w r
                   = py_eq (w_true row) identifier_w).
    { unfold selected, loc in *. simpl in Hrow.
      destruct (parameters r) as [|row0 rows]; [discriminate Hrow|].
      simpl in Hrow. now injection Hrow as ->. }
    simpl. rewrite Hsel. destruct (py_eq (w_true row) identifier_w).
    + apply attempt_bind_Returns in H. destruct H as ([c1 s1] & H1 & H).
      destruct (split_sub_results_rows _ _ _ _ _ _ H1) as (c' & s' & -> & -> & Hp1).
      destruct (IH _ _ H) as (c'' & s'' & -> & -> & Hp2).
      exists (c' ++ c''), (s' ++ s'').
      split; [now rewrite app_assoc|]. split; [now rewrite app_assoc|].
      unfold sample_rows in *. simpl.
      etransitivity; [apply Permutation_app_middle|].
      now apply Permutation_app.
    + apply IH, H.
Qed.

Lemma split_sub_results_total r items controls_y cases_y :
  (forall i r_i, In (i, r_i) items ->
     exists row id z rest,
       loc (parameters r) i = Returns row /\
       n_samples row = PyList id (PyInt z :: rest)) ->
  exists out, split_sub_results r items controls_y cases_y = Returns out.
Proof.
  revert controls_y cases_y.
  induction items as [|[i r_i] items IH]; intros controls_y cases_y H; simpl.
  - eauto.
  - destruct (H i r_i (or_introl eq_refl)) as (row & id & z & rest & -> & Hn).
    simpl. rewrite Hn. simpl. apply IH.
    intros i' r_i' Hin. apply (H i' r_i'). now right.
Qed.

Lemma get_count_data_total py_eq identifier_w results controls_y cases_y :
  (forall r, In r results -> parameters r <> []) ->
  (forall r i r_i,
     In r results -> selected py_eq identifier_w r = true ->
     In (i, r_i) (mcmc_results r) ->
     exists row id z rest,
       loc (parameters r) i = Returns row /\
       n_samples row = PyList id (PyInt z :: rest)) ->
  exists out,
    get_count_data py_eq identifier_w results controls_y cases_y = Returns out.
Proof.
  revert controls_y cases_y.
  induction results as [|r results IH]; intros c0 s0 Hrows Hsub; simpl.
  - eauto.
  - assert (Hr : In r (r :: results)) by now left.
    pose proof (Hrows r Hr) as Hne. pose proof (Hsub r) as Hsel.
    unfold selected in Hsel. unfold loc at 1. simpl.
    destruct (parameters r) as [|row rows] eqn:Hp; [contradiction|]. simpl.
    assert (Hrows' : forall r', In r' results -> parameters r' <> [])
      by (intros; apply Hrows; now right).
    assert (Hsub' : forall r' i r_i,
              In r' results -> selected py_eq identifier_w r' = true ->
              In (i, r_i) (mcmc_results r') ->
              exists row id z rest,
                loc (parameters r') i = Returns row /\
                n_samples row = PyList id (PyInt z :: rest))
      by (intros r' i r_i Hin; apply Hsub; now right).
    destruct (py_eq (w_true row) identifier_w).
    + destruct (split_sub_results_total r (mcmc_results r) c0 s0)
        as ([c1 s1] & ->).
      { intros i r_i Hin. rewrite Hp. apply (Hsel i r_i Hr eq_refl Hin). }
      simpl. now apply IH.
    + now apply IH.
Qed.

(** X17. The loop that collects the count data of the boxplots. When
    it returns, every sample row of every sub-result of the runs whose
    [w_true] at label 0 equals [identifier_w] is in exactly one of the
    two groups, and the groups hold nothing else: whatever the first
    entry of [n_samples] is, [y[:n]] and [y[n:]] split [y]. It returns
    when every run has a row labelled 0 and, in the selected runs,
    every sub-result key labels a row whose [n_samples] is a list that
    starts with an integer. *)
Theorem count_data_partitions_samples
    (py_eq : pyval -> pyval -> bool) identifier_w results :
  (forall controls_y cases_y,
     get_count_data py_eq identifier_w results [] []
     = Returns (controls_y, cases_y) ->
     Permutation (controls_y ++ cases_y)
       (sample_rows (List.filter (selected py_eq identifier_w) results))) /\
  ((forall r, In r results -> parameters r <> []) ->
   (forall r i r_i,
      In r results -> selected py_eq identifier_w r = true ->
      In (i, r_i) (mcmc_results r) ->
      exists row id z rest,
        loc (parameters r) i = Returns row /\
        n_samples row = PyList id (PyInt z :: rest)) ->
   exists controls_y cases_y,
     get_count_data py_eq identifier_w results [] []
     = Returns (controls_y, cases_y)).
Proof.
  split.
  - intros controls_y cases_y H.
    destruct (get_count_data_rows _ _ _ _ _ _ _ H) as (c' & s' & -> & -> & Hp).
    exact Hp.
  - intros Hrows Hsub.
    destruct (get_count_data_total py_eq identifier_w results [] [] Hrows Hsub)
      as ([controls_y cases_y] & H).
    eauto.
Qed.

Lemma count_data_partitions_samples_witness :
  exists controls_y cases_y,
    get_count_data same_value Demo.identifier_w
      [Demo.unbalanced_run; Demo.other_effect_run] [] []
    = Returns (controls_y, cases_y) /\
    Permutation (controls_y ++ cases_y) [[10; 20]; [30; 40]; [50; 60]].
Proof.
  exists [[10; 20]], [[30; 40]; [50; 60]]. split; [reflexivity|].
  apply (proj1 (count_data_partitions_samples same_value Demo.identifier_w
                  [Demo.unbalanced_run; Demo.other_effect_run])).
  reflexivity.
Defined.

Lemma column_Returns i ys :
  Forall (fun y0 => (i < length y0)%nat) ys <->
  exists cs, column i ys = Returns cs.
Proof.
  induction ys as [|y0 ys IH]; simpl.
  - split; [eauto | constructor].
  - split.
    + intros H. inversion H as [|? ? Hy Hys]; subst.
      apply lookup_lt_is_Some_2 in Hy. destruct Hy as [c ->].
      apply IH in Hys. destruct Hys as (cs & ->). simpl. eauto.
    + intros (cs & H). destruct (y0 !! i) as [c|] eqn:E; [|discriminate H].
      apply attempt_bind_Returns in H. destruct H as (cs' & Hcs & _).
      constructor; [apply lookup_lt_is_Some_1; eauto | apply IH; eauto].
Qed.

Lemma column_length i ys cs :
  column i ys = Returns cs -> length cs = length ys.
Proof.
  revert cs. induction ys as [|y0 ys IH]; intros cs H; simpl in H.
  - now injection H as <-.
  - destruct (y0 !! i) as [c|]; [|discriminate H].
    apply attempt_bind_Returns in H. destruct H as (cs' & Hcs & H).
    injection H as <-. simpl. f_equal. auto.
Qed.

(** X18. The boxplot frame of the per-type plots needs as many
    control rows as case rows. With every collected row having a
    count for cell type [i], the frame of [controls] and [cases] is
    built exactly when the two groups have the same number of rows;
    otherwise the constructor raises a [ValueError]. A row without a
    count for cell type [i] raises an [IndexError] before. *)
Theorem box_df_needs_balanced_groups i controls_y cases_y :
  ((exists df, box_df i controls_y cases_y = Returns df) <->
   Forall (fun y0 => (i < length y0)%nat) (controls_y ++ cases_y) /\
   length controls_y = length cases_y) /\
  (Forall (fun y0 => (i < length y0)%nat) (controls_y ++ cases_y) ->
   length controls_y <> length cases_y ->
   exists msg, box_df i controls_y cases_y = Raises (Exn (ValueError msg))) /\
  (~ Forall (fun y0 => (i < length y0)%nat) (controls_y ++ cases_y) ->
   box_df i controls_y cases_y = Raises IndexError).
Proof.
  rewrite Forall_app. unfold box_df.
  split; [|split].
  - split.
    + intros (df & H).
      apply attempt_bind_Returns in H. destruct H as (cs & Hc & H).
      apply attempt_bind_Returns in H. destruct H as (ss & Hs & H).
      destruct (bool_decide (length cs = length ss)) eqn:E; [|discriminate H].
      apply bool_decide_eq_true in E.
      rewrite (column_length _ _ _ Hc), (column_length _ _ _ Hs) in E.
      repeat split; [apply column_Returns; eauto | apply column_Returns; eauto
                    | assumption].
    + intros [[Hc Hs] Hlen].
      apply column_Returns in Hc. destruct Hc as (cs & Hc).
      apply column_Returns in Hs. destruct Hs as (ss & Hs).
      rewrite Hc, Hs. simpl.
      rewrite bool_decide_eq_true_2; [eauto|].
      now rewrite (column_length _ _ _ Hc), (column_length _ _ _ Hs).
  - intros [Hc Hs] Hlen.
    apply column_Returns in Hc. destruct Hc as (cs & Hc).
    apply column_Returns in Hs. destruct Hs as (ss & Hs).
    rewrite Hc, Hs. simpl.
    rewrite bool_decide_eq_false_2; [eauto|].
    now rewrite (column_length _ _ _ Hc), (column_length _ _ _ Hs).
  - intros Hnot.
    destruct (column i controls_y) as [cs|e] eqn:Hc.
    + simpl. destruct (column i cases_y) as [ss|e] eqn:Hs.
      * exfalso. apply Hnot. split; apply column_Returns; eauto.
      * simpl. f_equal. clear -Hs. revert e Hs.
        induction cases_y as [|y0 ys IH]; intros e Hs; simpl in Hs;
          [discriminate Hs|].
        destruct (y0 !! i); [|now injection Hs].
        destruct (column i ys) as [cs'|e'] eqn:E; [discriminate Hs|].
        simpl in Hs. injection Hs as <-. now apply IH.
    + simpl. f_equal. clear -Hc. revert e Hc.
      induction controls_y as [|y0 ys IH]; intros e Hc; simpl in Hc;
        [discriminate Hc|].
      destruct (y0 !! i); [|now injection Hc].
      destruct (column i ys) as [cs'|e'] eqn:E; [discriminate Hc|].
      simpl in Hc. injection Hc as <-. now apply IH.
Qed.

Lemma box_df_needs_balanced_groups_witness :
  exists controls_y cases_y msg,
    get_count_data same_value Demo.identifier_w [Demo.unbalanced_run] [] []
    = Returns (controls_y, cases_y) /\
    box_df 0 controls_y cases_y = Raises (Exn (ValueError msg)).
Proof.
  exists [[10; 20]], [[30; 40]; [50; 60]].
  destruct (box_df_needs_balanced_groups 0 [[10; 20]] [[30; 40]; [50; 60]])
    as (_ & H & _).
  destruct H as (msg & Hmsg).
  - repeat constructor.
  - discriminate.
  - exists msg. split; [reflexivity | exact Hmsg].
Defined.

(** ** File names of the per-type plots *)

Lemma replace_dot_int_chars new s :
  all_chars is_int_char s = true -> replace_from "." new 0 s = s.
Proof.
  induction s as [|c s IH]; intros H; [reflexivity|].
  simpl in H. apply andb_prop in H. destruct H as [Hc Hs].
  cbn [replace_from].
  assert (E : String.prefix "." (String c s) = false).
  { destruct (String.prefix "." (String c s)) eqn:E; [|reflexivity].
    apply prefix_spec in E. destruct E as (post & E).
    injection E as -> _. discriminate Hc. }
  rewrite E. f_equal. now apply IH.
Qed.

(** X19. The per-type plots are saved to different files. For cell
    type [i] of [range(K)] the file is [path + "_type_" + str(i+1)]:
    the [replace] has no dot to remove, and two cell types never get
    the same file. *)
Theorem per_type_plots_get_distinct_files path i j :
  savefig_path path i = path +:+ "_type_" +:+ pretty (Z.of_nat i + 1)%Z /\
  (savefig_path path i = savefig_path path j -> i = j).
Proof.
  assert (E : forall k, savefig_path path k
                        = path +:+ "_type_" +:+ pretty (Z.of_nat k + 1)%Z).
  { intros k. unfold savefig_path, str_replace.
    rewrite replace_dot_int_chars; [reflexivity|]. apply pretty_Z_chars. }
  split; [apply E|].
  rewrite !E. intros H.
  apply (inj (String.app path)) in H.
  apply (inj (String.app "_type_")) in H.
  apply (inj pretty) in H. lia.
Qed.

Lemma per_type_plots_get_distinct_files_witness :
  savefig_path "plots/study" 9 = "plots/study_type_10"%string.
Proof.
  rewrite (proj1 (per_type_plots_get_distinct_files "plots/study" 9 9)).
  reflexivity.
Defined.
